(** * A shallow embedding of the co-do shell: pipe parser, terminal and OPFS store

    The development follows the TypeScript sources:
    - [src/pipeParser.ts]   : the standalone pipeline parser ([PipeParser]);
    - [src/terminal.ts]     : the inline shell executor with pipes and the
                              line editor ([Terminal]), and its earlier
                              revision without pipes ([TerminalV0]);
    - [src/opfsFileSystem.ts]: the file store ([OPFS]).

    Strings are sequences of 8-bit code units (Latin-1).  Numbers produced
    by [parseInt] are exact integers; NaN is a separate value. *)

From Stdlib Require Import ZArith Ascii String List Bool Lia.
From stdpp Require Import base tactics option list strings gmap.

Local Open Scope Z_scope.

(** ** The JavaScript primitives the sources call *)

Module JS.

(** [\s] of a regular expression and the white space of [trim], on
    code units below 256: TAB, LF, VT, FF, CR, SP and NBSP. *)
Definition isWhiteSpace (c : ascii) : bool :=
  let n := nat_of_ascii c in
  ((9 <=? n) && (n <=? 13) || (n =? 32) || (n =? 160))%nat.

Definition isDigit (c : ascii) : bool :=
  let n := nat_of_ascii c in ((48 <=? n) && (n <=? 57))%nat.

Fixpoint trimStart (s : string) : string :=
  match s with
  | EmptyString => EmptyString
  | String c r => if isWhiteSpace c then trimStart r else s
  end.

Fixpoint trimEnd (s : string) : string :=
  match s with
  | EmptyString => EmptyString
  | String c r =>
      match trimEnd r with
      | EmptyString => if isWhiteSpace c then EmptyString else String c EmptyString
      | r' => String c r'
      end
  end.

Definition trim (s : string) : string := trimEnd (trimStart s).

(** [String.prototype.toLowerCase] on Latin-1: A-Z and U+00C0..U+00DE
    except U+00D7 move up by 32. *)
Definition lowerChar (c : ascii) : ascii :=
  let n := nat_of_ascii c in
  if ((65 <=? n) && (n <=? 90) ||
      (192 <=? n) && (n <=? 222) && negb (n =? 215))%nat
  then ascii_of_nat (n + 32) else c.

Fixpoint toLowerCase (s : string) : string :=
  match s with
  | EmptyString => EmptyString
  | String c r => String (lowerChar c) (toLowerCase r)
  end.

(** [s.startsWith(p)] *)
Fixpoint startsWith (p s : string) : bool :=
  match p, s with
  | EmptyString, _ => true
  | String a p', String b s' => if Ascii.eqb a b then startsWith p' s' else false
  | String _ _, EmptyString => false
  end.

(** [s.includes(p)] *)
Fixpoint includes (p s : string) : bool :=
  startsWith p s ||
  match s with
  | EmptyString => false
  | String _ r => includes p r
  end.

(** [s.split(sep)] for a one-character separator: never empty. *)
Fixpoint split (sep : ascii) (s : string) : list string :=
  match s with
  | EmptyString => [EmptyString]
  | String c r =>
      if Ascii.eqb c sep then EmptyString :: split sep r
      else match split sep r with
           | w :: ws => String c w :: ws
           | [] => [String c EmptyString]
           end
  end.

(** [s.split(/\s+/)]: the pieces between maximal runs of white space. *)
Fixpoint splitWs_from (inRun : bool) (s : string) : list string :=
  match s with
  | EmptyString => [EmptyString]
  | String c r =>
      if isWhiteSpace c then
        if inRun then splitWs_from true r
        else EmptyString :: splitWs_from true r
      else match splitWs_from false r with
           | w :: ws => String c w :: ws
           | [] => [String c EmptyString]
           end
  end.

Definition splitWs (s : string) : list string := splitWs_from false s.

(** [arr.join(sep)] *)
Fixpoint join (sep : string) (l : list string) : string :=
  match l with
  | [] => EmptyString
  | [x] => x
  | x :: r => x +:+ sep +:+ join sep r
  end.

(** Relative index of [slice]: negative counts from the end, then
    the index is clamped to [0, len]. *)
Definition relIndex (len i : Z) : Z :=
  if i <? 0 then Z.max (len + i) 0 else Z.min i len.

(** [arr.slice(start, end)]; [end = None] is an omitted argument. *)
Definition slice {A} (l : list A) (start : Z) (end_ : option Z) : list A :=
  let len := Z.of_nat (length l) in
  let from := relIndex len start in
  let to := match end_ with Some e => relIndex len e | None => len end in
  take (Z.to_nat (to - from)) (drop (Z.to_nat from) l).

(** [str.slice(start, end)] *)
Definition sliceStr (s : string) (start : Z) (end_ : option Z) : string :=
  let len := Z.of_nat (String.length s) in
  let from := relIndex len start in
  let to := match end_ with Some e => relIndex len e | None => len end in
  substring (Z.to_nat from) (Z.to_nat (to - from)) s.

(** Relational comparison of strings ([a <= b]): lexicographic on
    code units. *)
Fixpoint leStr (a b : string) : bool :=
  match a, b with
  | EmptyString, _ => true
  | String _ _, EmptyString => false
  | String x a', String y b' =>
      let nx := nat_of_ascii x in
      let ny := nat_of_ascii y in
      if (nx <? ny)%nat then true
      else if (ny <? nx)%nat then false
      else leStr a' b'
  end.

(** Numbers as [parseInt] returns them. *)
Inductive Num := NaN | Int (n : Z).

Definition isNaN (n : Num) : bool :=
  match n with NaN => true | Int _ => false end.

(** Value of a digit in radices up to 36. *)
Definition digitValue (c : ascii) : option Z :=
  let n := nat_of_ascii c in
  if ((48 <=? n) && (n <=? 57))%nat then Some (Z.of_nat n - 48)
  else if ((97 <=? n) && (n <=? 122))%nat then Some (Z.of_nat n - 87)
  else if ((65 <=? n) && (n <=? 90))%nat then Some (Z.of_nat n - 55)
  else None.

(** Longest prefix of digits below [radix], accumulated left to right;
    [None] when there is no digit at all. *)
Fixpoint digits (radix : Z) (acc : option Z) (s : string) : option Z :=
  match s with
  | EmptyString => acc
  | String c r =>
      match digitValue c with
      | Some d =>
          if d <? radix
          then digits radix (Some (radix * default 0 acc + d)) r
          else acc
      | None => acc
      end
  end.

(** [parseInt(s, radix)] for [radix] 10 or omitted ([None]): leading
    white space, a sign, a [0x] prefix when the radix is omitted. *)
Definition parseInt (s : string) (radix : option Z) : Num :=
  let s1 := trimStart s in
  let '(sign, s2) :=
    match s1 with
    | String "-" r => (-1, r)
    | String "+" r => (1, r)
    | _ => (1, s1)
    end in
  let '(R, s3) :=
    match radix, s2 with
    | None, String "0" (String "x" r) => (16, r)
    | None, String "0" (String "X" r) => (16, r)
    | None, _ => (10, s2)
    | Some k, _ => (k, s2)
    end in
  match digits R None s3 with
  | Some n => Int (sign * n)
  | None => NaN
  end.

(** Truthiness of a number and of a string. *)
Definition truthyNum (n : Num) : bool :=
  match n with NaN => false | Int k => negb (k =? 0) end.

Definition truthyStr (s : string) : bool :=
  match s with EmptyString => false | _ => true end.

(** [n.toString()] for a natural number. *)
Fixpoint showDigits (fuel n : nat) (acc : string) : string :=
  match fuel with
  | O => acc
  | S f =>
      let d := String (ascii_of_nat (48 + n mod 10)) acc in
      if (n <? 10)%nat then d else showDigits f (n / 10) d
  end.

Definition showNat (n : nat) : string := showDigits (S n) n EmptyString.

Definition showZ (z : Z) : string :=
  if z <? 0 then String "-" (showNat (Z.to_nat (- z))) else showNat (Z.to_nat z).

(** [arr[i]] for a number [i]: [undefined] outside the array. *)
Definition index {A} (l : list A) (i : Z) : option A :=
  if i <? 0 then None else l !! Z.to_nat i.

(** [x || d] for a string that may be [undefined]. *)
Definition orStr (x : option string) (d : string) : string :=
  match x with
  | Some s => if truthyStr s then s else d
  | None => d
  end.

(** A condition on a string that may be [undefined]. *)
Definition truthyOpt (x : option string) : bool :=
  match x with
  | Some s => truthyStr s
  | None => false
  end.

(** The double quote, and a text between two of them. *)
Definition DQ : ascii := ascii_of_nat 34.
Definition quoted (s : string) : string :=
  String DQ (s +:+ String DQ EmptyString).

(** The escape character of the ANSI sequences. *)
Definition ESC : string := String (ascii_of_nat 27) EmptyString.

End JS.

(** ** Regular expressions with the [g] flag

    The engine is a parameter: a compiled expression answers, for a
    subject and a start index, with the first match at or after that
    index, as the pair of its start and its end.  [test] and [replace]
    are the standard algorithms over it, with the [lastIndex] field of
    a global expression written out. *)

Module RegExp.

Definition Matcher : Type := string -> nat -> option (nat * nat).

(** [new RegExp(source, flags)]; [None] is a SyntaxError. *)
Definition Engine : Type := string -> string -> option Matcher.

(** [regex.test(s)] with [regex.lastIndex = lastIndex] before the
    call: the answer and the [lastIndex] after it. *)
Definition test (m : Matcher) (lastIndex : nat) (s : string) : bool * nat :=
  if (String.length s <? lastIndex)%nat then (false, O)
  else match m s lastIndex with
       | Some (_, e) => (true, e)
       | None => (false, O)
       end.

(** [lines.filter(line => regex.test(line))]: one expression object
    serves all lines, so [lastIndex] is carried from line to line. *)
Fixpoint filterTest {A} (m : Matcher) (key : A -> string) (lastIndex : nat)
    (l : list A) : list A :=
  match l with
  | [] => []
  | x :: r =>
      let '(b, lastIndex') := test m lastIndex (key x) in
      if b then x :: filterTest m key lastIndex' r
      else filterTest m key lastIndex' r
  end.

(** The matches [replace] collects, from [lastIndex]: after an empty
    match the index moves on by one. *)
Fixpoint collect (fuel : nat) (m : Matcher) (s : string) (lastIndex : nat)
  : list (nat * nat) :=
  match fuel with
  | O => []
  | S fuel' =>
      if (String.length s <? lastIndex)%nat then []
      else match m s lastIndex with
           | None => []
           | Some (i, e) =>
               (i, e) :: collect fuel' m s (if (e =? i)%nat then S e else e)
           end
  end.

(** The result string of [replace]: the text between the matches is
    kept, every match [w] becomes [f w]. *)
Fixpoint rebuild (s : string) (f : string -> string) (next : nat)
    (ms : list (nat * nat)) : string :=
  match ms with
  | [] => substring next (String.length s - next) s
  | (i, e) :: r =>
      if (next <=? i)%nat then
        substring next (i - next) s +:+ f (substring i (e - i) s) +:+ rebuild s f e r
      else rebuild s f next r
  end.

(** [s.replace(regex, f)] for a global expression; it starts from
    [lastIndex = 0] whatever the field held. *)
Definition replace (m : Matcher) (s : string) (f : string -> string) : string :=
  rebuild s f O (collect (S (S (String.length s))) m s O).

(** *** The engine on patterns without metacharacters

    Such a pattern matches its own text; with the [i] flag, letters
    match in either case. *)
Definition sameChar (ignoreCase : bool) (a b : ascii) : bool :=
  if ignoreCase then Ascii.eqb (JS.lowerChar a) (JS.lowerChar b) else Ascii.eqb a b.

Fixpoint matchesAt (ignoreCase : bool) (p s : string) : bool :=
  match p, s with
  | EmptyString, _ => true
  | String a p', String b s' => sameChar ignoreCase a b && matchesAt ignoreCase p' s'
  | String _ _, EmptyString => false
  end.

(** Search [s], whose first character has index [pos], for the first
    occurrence at an index not below [from]. *)
Fixpoint search (ignoreCase : bool) (p : string) (from pos : nat) (s : string)
  : option (nat * nat) :=
  if (from <=? pos)%nat && matchesAt ignoreCase p s
  then Some (pos, (pos + String.length p)%nat)
  else match s with
       | EmptyString => None
       | String _ r => search ignoreCase p from (S pos) r
       end.

Definition isMeta (c : ascii) : bool :=
  JS.includes (String c EmptyString) "\^$.|?*+()[]{}/".

Fixpoint hasMeta (p : string) : bool :=
  match p with
  | EmptyString => false
  | String c r => isMeta c || hasMeta r
  end.

Definition literalEngine : Engine :=
  fun source flags =>
    if hasMeta source then None
    else Some (fun s from => search (JS.includes "i" flags) source from O s).

End RegExp.

(** ** The pipeline parser, [src/pipeParser.ts] *)

Module PipeParser.

(** The values an argument record holds. *)
Inductive Value :=
| VStr (s : string)
| VNum (n : JS.Num)
| VBool (b : bool)
| VList (l : list string).

(** [PipeCommand]: [args] is a [Record<string, unknown>]. *)
Record PipeCommand := {
  tool : string;
  args : gmap string Value
}.

Record ParseResult := {
  isPipeCommand : bool;
  commands : list PipeCommand;
  error : option string
}.

(** Truthiness of a property read: [undefined] when the key is absent. *)
Definition truthy (v : option Value) : bool :=
  match v with
  | None => false
  | Some (VStr s) => JS.truthyStr s
  | Some (VNum n) => JS.truthyNum n
  | Some (VBool b) => b
  | Some (VList _) => true
  end.

Definition dash (arg : string) : bool := JS.startsWith "-" arg.

(** [arg.match(/^-\d+$/)] *)
Fixpoint allDigits (s : string) : bool :=
  match s with
  | EmptyString => true
  | String c r => JS.isDigit c && allDigits r
  end.

Definition isDashNumber (arg : string) : bool :=
  match arg with
  | String "-" (String c r) => JS.isDigit c && allDigits r
  | _ => false
  end.

Definition cat_parseArgs (a : list string) : gmap string Value :=
  match a with
  | [] => ∅
  | [p] => {[ "path" := VStr p ]}
  | _ => {[ "paths" := VList a ]}
  end.

(** The flag loop of grep stops at the first argument without a dash. *)
Fixpoint grep_flags (result : gmap string Value) (a : list string)
  : gmap string Value * list string :=
  match a with
  | flag :: r =>
      if dash flag then
        let result' :=
          if String.eqb flag "-i" then <["caseInsensitive" := VBool true]> result
          else if String.eqb flag "-v" then <["invertMatch" := VBool true]> result
          else result in
        grep_flags result' r
      else (result, a)
  | [] => (result, [])
  end.

Definition grep_parseArgs (a : list string) : gmap string Value :=
  let '(result, rest) := grep_flags ∅ a in
  match rest with
  | [] => result
  | pat :: rest' =>
      let result := <["pattern" := VStr pat]> result in
      match rest' with
      | [] => result
      | p :: _ => <["path" := VStr p]> result
      end
  end.

Definition sort_step (result : gmap string Value) (arg : string) : gmap string Value :=
  if String.eqb arg "-r" || String.eqb arg "--reverse" then <["reverse" := VBool true]> result
  else if String.eqb arg "-n" || String.eqb arg "--numeric" then <["numeric" := VBool true]> result
  else if String.eqb arg "-u" || String.eqb arg "--unique" then <["unique" := VBool true]> result
  else if String.eqb arg "-f" || String.eqb arg "--ignore-case" then <["ignoreCase" := VBool true]> result
  else if negb (dash arg) then <["path" := VStr arg]> result
  else result.

Definition sort_parseArgs (a : list string) : gmap string Value :=
  fold_left sort_step a ∅.

Definition uniq_step (result : gmap string Value) (arg : string) : gmap string Value :=
  if String.eqb arg "-c" || String.eqb arg "--count" then <["count" := VBool true]> result
  else if String.eqb arg "-d" || String.eqb arg "--repeated" then <["duplicatesOnly" := VBool true]> result
  else if String.eqb arg "-u" || String.eqb arg "--unique" then <["uniqueOnly" := VBool true]> result
  else if String.eqb arg "-i" || String.eqb arg "--ignore-case" then <["ignoreCase" := VBool true]> result
  else if negb (dash arg) then <["path" := VStr arg]> result
  else result.

Definition uniq_parseArgs (a : list string) : gmap string Value :=
  fold_left uniq_step a ∅.

(** head and tail share one loop: [-n N] consumes the following
    argument, [-N] is the shorthand, anything without a dash is the
    path. *)
Fixpoint lines_loop (result : gmap string Value) (a : list string)
  : gmap string Value :=
  match a with
  | [] => result
  | arg :: rest =>
      match String.eqb arg "-n", rest with
      | true, next :: rest' =>
          let n := JS.parseInt (if JS.truthyStr next then next else "10") (Some 10) in
          lines_loop (<["lines" := VNum n]> result) rest'
      | _, _ =>
          if isDashNumber arg then
            lines_loop (<["lines" := VNum (JS.parseInt (JS.sliceStr arg 1 None) (Some 10))]> result) rest
          else if negb (dash arg) then
            lines_loop (<["path" := VStr arg]> result) rest
          else lines_loop result rest
      end
  end.

Definition head_parseArgs (a : list string) : gmap string Value := lines_loop ∅ a.
Definition tail_parseArgs (a : list string) : gmap string Value := lines_loop ∅ a.

(** wc: the loop state is the record and [hasSpecificFlags]. *)
Definition wc_step (st : gmap string Value * bool) (arg : string)
  : gmap string Value * bool :=
  let '(result, hasSpecificFlags) := st in
  if String.eqb arg "-l" || String.eqb arg "--lines" then
    (<["countChars" := VBool false]>
       (<["countWords" := VBool false]>
          (<["countLines" := VBool true]> result)), true)
  else if String.eqb arg "-w" || String.eqb arg "--words" then
    let result := <["countWords" := VBool true]> result in
    let result :=
      if negb hasSpecificFlags then
        <["countChars" := VBool false]> (<["countLines" := VBool false]> result)
      else result in
    (result, true)
  else if String.eqb arg "-c" || String.eqb arg "--chars" || String.eqb arg "-m" then
    let result := <["countChars" := VBool true]> result in
    let result :=
      if negb hasSpecificFlags then
        <["countWords" := VBool false]> (<["countLines" := VBool false]> result)
      else result in
    (result, true)
  else if negb (dash arg) then (<["path" := VStr arg]> result, hasSpecificFlags)
  else (result, hasSpecificFlags).

Definition wc_parseArgs (a : list string) : gmap string Value :=
  fst (fold_left wc_step a (∅, false)).

Definition read_file_parseArgs (a : list string) : gmap string Value :=
  match a with
  | p :: _ => {[ "path" := VStr p ]}
  | [] => ∅
  end.

Definition write_file_parseArgs (a : list string) : gmap string Value :=
  match a with
  | p :: rest =>
      let result : gmap string Value := {[ "path" := VStr p ]} in
      match rest with
      | _ :: _ => <["content" := VStr (JS.join " " (JS.slice a 1 None))]> result
      | [] => result
      end
  | [] => ∅
  end.

Record Pattern := {
  toolName : string;
  parseArgs : list string -> gmap string Value
}.

(** Own properties of the [COMMAND_PATTERNS] table. *)
Definition COMMAND_PATTERNS (name : string) : option Pattern :=
  if String.eqb name "cat" then Some {| toolName := "cat"; parseArgs := cat_parseArgs |}
  else if String.eqb name "grep" then Some {| toolName := "grep"; parseArgs := grep_parseArgs |}
  else if String.eqb name "sort" then Some {| toolName := "sort"; parseArgs := sort_parseArgs |}
  else if String.eqb name "uniq" then Some {| toolName := "uniq"; parseArgs := uniq_parseArgs |}
  else if String.eqb name "head" then Some {| toolName := "head"; parseArgs := head_parseArgs |}
  else if String.eqb name "tail" then Some {| toolName := "tail"; parseArgs := tail_parseArgs |}
  else if String.eqb name "wc" then Some {| toolName := "wc"; parseArgs := wc_parseArgs |}
  else if String.eqb name "read_file" then
    Some {| toolName := "read_file"; parseArgs := read_file_parseArgs |}
  else if String.eqb name "write_file" then
    Some {| toolName := "write_file"; parseArgs := write_file_parseArgs |}
  else None.

(** Own properties of the [COMMAND_ALIASES] table. *)
Definition COMMAND_ALIASES (name : string) : option string :=
  if String.eqb name "less" then Some "cat"
  else if String.eqb name "more" then Some "cat"
  else if String.eqb name "type" then Some "cat"
  else if String.eqb name "find" then Some "grep"
  else None.

(** Both tables are object literals, so a property read also finds
    what [Object.prototype] provides; each of these names reads as a
    truthy value that is not a string.  Only the first two are fixed by
    [toLowerCase]. *)
Definition inheritedProperty (name : string) : bool :=
  bool_decide (name ∈ ["constructor"; "__proto__"; "hasOwnProperty";
                       "isPrototypeOf"; "propertyIsEnumerable"; "toString";
                       "toLocaleString"; "valueOf"; "__defineGetter__";
                       "__defineSetter__"; "__lookupGetter__";
                       "__lookupSetter__"]).

(** Loop state of [tokenize]. *)
Record TokState := {
  tokens : list string;
  current : string;
  inQuote : option ascii
}.

Definition tokenize_step (st : TokState) (char : ascii) : TokState :=
  match inQuote st with
  | Some q =>
      if Ascii.eqb char q
      then {| tokens := tokens st; current := current st; inQuote := None |}
      else {| tokens := tokens st;
              current := current st +:+ String char EmptyString;
              inQuote := Some q |}
  | None =>
      if Ascii.eqb char JS.DQ || Ascii.eqb char "'" then
        {| tokens := tokens st; current := current st; inQuote := Some char |}
      else if Ascii.eqb char " " || Ascii.eqb char "009" then
        if JS.truthyStr (current st)
        then {| tokens := tokens st ++ [current st];
                current := EmptyString; inQuote := None |}
        else st
      else {| tokens := tokens st;
              current := current st +:+ String char EmptyString;
              inQuote := None |}
  end.

Fixpoint tokenize_loop (st : TokState) (input : string) : TokState :=
  match input with
  | EmptyString => st
  | String char r => tokenize_loop (tokenize_step st char) r
  end.

Definition tokenize (input : string) : list string :=
  let st := tokenize_loop
              {| tokens := []; current := EmptyString; inQuote := None |} input in
  if JS.truthyStr (current st) then tokens st ++ [current st] else tokens st.

(** [parseCommand]: [None] is [null]. *)
Definition parseCommand (commandStr : string) : option PipeCommand :=
  match tokenize (JS.trim commandStr) with
  | [] => None
  | t0 :: a =>
      let cmdName := JS.toLowerCase t0 in
      if inheritedProperty cmdName then None
      else
        let cmdName := default cmdName (COMMAND_ALIASES cmdName) in
        match COMMAND_PATTERNS cmdName with
        | None => None
        | Some pattern =>
            Some {| tool := toolName pattern; args := parseArgs pattern a |}
        end
  end.

(** [COMMAND_PATTERNS[w] || COMMAND_ALIASES[w]] as a condition. *)
Definition isKnownCommand (w : string) : bool :=
  bool_decide (is_Some (COMMAND_PATTERNS w)) ||
  bool_decide (is_Some (COMMAND_ALIASES w)) ||
  inheritedProperty w.

Definition firstOf (l : list string) : string := default EmptyString (head l).

Definition isPipeCommandSyntax (input : string) : bool :=
  let trimmed := JS.trim input in
  if negb (JS.includes "|" trimmed) then
    let firstWord := JS.toLowerCase (firstOf (JS.splitWs trimmed)) in
    if negb (JS.truthyStr firstWord) then false
    else isKnownCommand firstWord
         && negb (JS.includes "?" trimmed)
         && negb (JS.includes "please" trimmed)
  else
    let segments := JS.split "|" trimmed in
    if (length segments <? 2)%nat then false
    else
      let firstCmd :=
        JS.toLowerCase (firstOf (JS.splitWs (JS.trim (firstOf segments)))) in
      if negb (JS.truthyStr firstCmd) then false
      else isKnownCommand firstCmd.

(** The [for] loop over the segments: the first segment that does not
    parse ends it with that segment. *)
Fixpoint parseSegments (segments : list string) (acc : list PipeCommand)
  : string + list PipeCommand :=
  match segments with
  | [] => inr acc
  | segment :: r =>
      match parseCommand segment with
      | None => inl segment
      | Some cmd => parseSegments r (acc ++ [cmd])
      end
  end.

Definition requiresSource (t : string) : bool :=
  String.eqb t "cat" || String.eqb t "read_file" || String.eqb t "grep".

Definition splitSegments (trimmed : string) : list string :=
  filter (λ s, (0 <? String.length s)%nat = true)
         (map JS.trim (JS.split "|" trimmed)).

Definition parsePipeCommand (input : string) : ParseResult :=
  let trimmed := JS.trim input in
  if negb (isPipeCommandSyntax trimmed) then
    {| isPipeCommand := false; commands := []; error := None |}
  else
    let segments := splitSegments trimmed in
    match segments with
    | [] => {| isPipeCommand := false; commands := []; error := None |}
    | _ =>
        match parseSegments segments [] with
        | inl segment =>
            let cmdName := firstOf (JS.splitWs segment) in
            {| isPipeCommand := true; commands := [];
               error := Some ("Unknown command: " +:+ cmdName) |}
        | inr cmds =>
            match cmds with
            | firstCmd :: _ =>
                if requiresSource (tool firstCmd)
                   && negb (truthy (args firstCmd !! "path"))
                   && negb (truthy (args firstCmd !! "paths"))
                then
                  {| isPipeCommand := true; commands := [];
                     error := Some ("First command (" +:+ tool firstCmd
                                    +:+ ") requires a file path") |}
                else {| isPipeCommand := true; commands := cmds; error := None |}
            | [] => {| isPipeCommand := true; commands := cmds; error := None |}
            end
        end
    end.

End PipeParser.

(** ** Methods that may throw and that change a state

    An [async] method is run to completion: it is a function from the
    state before to an outcome and the state after.  [Throw] carries
    the message of the [Error]. *)

Module Async.

Inductive Result (A : Type) :=
| Ok (a : A)
| Throw (message : string).
Arguments Ok {A} a.
Arguments Throw {A} message.

Definition M (S A : Type) : Type := S -> Result A * S.

Definition ret {S A} (a : A) : M S A := fun s => (Ok a, s).
Definition throw {S A} (message : string) : M S A := fun s => (Throw message, s).

Definition bind {S A B} (m : M S A) (k : A -> M S B) : M S B :=
  fun s =>
    match m s with
    | (Ok a, s') => k a s'
    | (Throw e, s') => (Throw e, s')
    end.

(** [try { m } catch (e) { handler(e.message) }] *)
Definition tryCatch {S A} (m : M S A) (handler : string -> M S A) : M S A :=
  fun s =>
    match m s with
    | (Ok a, s') => (Ok a, s')
    | (Throw e, s') => handler e s'
    end.

Definition get {S} : M S S := fun s => (Ok s, s).
Definition modify {S} (f : S -> S) : M S unit := fun s => (Ok tt, f s).

End Async.

Notation "'let*' x ':=' m 'in' k" := (Async.bind m (fun x => k))
  (at level 10, x name, m at level 100, k at level 200, only parsing).

(** ** The file store, [src/opfsFileSystem.ts] *)

Module OPFS.
Import Async.

Inductive Kind := file | directory.

Record OPFSEntry := {
  name : string;
  path : string;
  kind : Kind
}.

(** The File System API of the browser, as the class calls it.  [W] is
    the state of the browser's private file system, [H] its handles. *)
Class FileSystemAPI (W H : Type) := {
  (** ['storage' in navigator && 'getDirectory' in navigator.storage] *)
  isSupported : bool;
  (** [navigator.storage.getDirectory()] *)
  getDirectory : M W H;
  (** [dir.getDirectoryHandle(name, { create })] *)
  getDirectoryHandle : H -> string -> bool -> M W H;
  (** [dir.getFileHandle(name, { create })] *)
  getFileHandle : H -> string -> bool -> M W H;
  (** [dir.removeEntry(name, { recursive })] *)
  removeEntry : H -> string -> bool -> M W unit;
  (** [(await handle.getFile()).text()] *)
  getFileText : H -> M W string;
  (** [createWritable()], [write(content)], [close()] *)
  writeContent : H -> string -> M W unit
}.

(** The fields of [OPFSFileSystem], next to the browser's state. *)
Record OPFSFileSystem (W H : Type) := {
  rootHandle : option H;
  fileCache : gmap string OPFSEntry;
  initialized : bool;
  browser : W
}.
Arguments rootHandle {W H} _.
Arguments fileCache {W H} _.
Arguments initialized {W H} _.
Arguments browser {W H} _.

Section Methods.
Context {W H : Type} `{API : FileSystemAPI W H}.

Abbreviation FS := (OPFSFileSystem W H).

(** A call of the browser runs on the [browser] field. *)
Definition call {A} (m : M W A) : M FS A :=
  fun fs =>
    let '(r, w) := m (browser fs) in
    (r, {| rootHandle := rootHandle fs; fileCache := fileCache fs;
           initialized := initialized fs; browser := w |}).

Definition setCache (f : gmap string OPFSEntry -> gmap string OPFSEntry) : M FS unit :=
  modify (fun fs => {| rootHandle := rootHandle fs; fileCache := f (fileCache fs);
                       initialized := initialized fs; browser := browser fs |}).

Definition init : M FS unit :=
  let* fs := get in
  if initialized fs then ret tt
  else if negb isSupported then
    throw "Origin Private File System is not supported in this browser"
  else
    let* h := call getDirectory in
    modify (fun fs => {| rootHandle := Some h; fileCache := fileCache fs;
                         initialized := true; browser := browser fs |}).

Definition ensureInitialized : M FS unit :=
  let* fs := get in
  if negb (initialized fs) then init else ret tt.

(** [this.rootHandle!]: a method call on [null] is a TypeError. *)
Definition root : M FS H :=
  let* fs := get in
  match rootHandle fs with
  | Some h => ret h
  | None => throw "Cannot read properties of null"
  end.

(** [path.split('/').filter(p => p.length > 0)] *)
Definition pathParts (p : string) : list string :=
  filter (λ x, (0 <? String.length x)%nat = true) (JS.split "/" p).

(** The loop [for (const part of pathParts) dirHandle = await
    dirHandle.getDirectoryHandle(part)]. *)
Fixpoint navigate (dirHandle : H) (parts : list string) : M FS H :=
  match parts with
  | [] => ret dirHandle
  | part :: r =>
      let* d := call (getDirectoryHandle dirHandle part false) in
      navigate d r
  end.

(** [pathParts.pop()]: the last part, and the parts before it. *)
Definition pop (parts : list string) : option string * list string :=
  (last parts, removelast parts).

Definition getFileHandleByPath (p : string) : M FS H :=
  let* _ := ensureInitialized in
  let '(fileName, parts) := pop (pathParts p) in
  match fileName with
  | None => throw ("Invalid file path: " +:+ p)
  | Some fileName =>
      let* r := root in
      let* dirHandle := navigate r parts in
      call (getFileHandle dirHandle fileName false)
  end.

Definition readFile (p : string) : M FS string :=
  let* fileHandle := getFileHandleByPath p in
  call (getFileText fileHandle).

Definition writeFile (p content : string) : M FS unit :=
  let* fileHandle := getFileHandleByPath p in
  call (writeContent fileHandle content).

(** The loop of [createFile] that creates and caches the directories
    on the way. *)
Fixpoint navigateCreate (dirHandle : H) (currentPath : string) (parts : list string)
  : M FS H :=
  match parts with
  | [] => ret dirHandle
  | part :: r =>
      let currentPath :=
        if JS.truthyStr currentPath then currentPath +:+ "/" +:+ part else part in
      let* d := call (getDirectoryHandle dirHandle part true) in
      let* _ := setCache (fun c =>
        match c !! currentPath with
        | Some _ => c
        | None => <[currentPath := {| name := part; path := currentPath;
                                      kind := directory |}]> c
        end) in
      navigateCreate d currentPath r
  end.

Definition createFile (p content : string) : M FS OPFSEntry :=
  let* _ := ensureInitialized in
  let '(fileName, parts) := pop (pathParts p) in
  match fileName with
  | None => throw ("Invalid file path: " +:+ p)
  | Some fileName =>
      let* r := root in
      let* dirHandle := navigateCreate r EmptyString parts in
      let* fileHandle := call (getFileHandle dirHandle fileName true) in
      let* _ := call (writeContent fileHandle content) in
      let entry := {| name := fileName; path := p; kind := file |} in
      let* _ := setCache (fun c => <[p := entry]> c) in
      ret entry
  end.

Definition deleteFile (p : string) : M FS unit :=
  let* _ := ensureInitialized in
  let '(fileName, parts) := pop (pathParts p) in
  match fileName with
  | None => throw ("Invalid file path: " +:+ p)
  | Some fileName =>
      let* r := root in
      let* dirHandle := navigate r parts in
      let* _ := call (removeEntry dirHandle fileName false) in
      setCache (fun c => delete p c)
  end.

(** The message of the error [renameFile] throws when the original
    could not be deleted. *)
Definition renameError (oldPath message : string) : string :=
  "Failed to complete rename: could not delete original file " +:+ JS.quoted oldPath
  +:+ ". Error: " +:+ message.

Definition renameFile (oldPath newPath : string) : M FS unit :=
  let* content := readFile oldPath in
  let* _ := createFile newPath content in
  tryCatch (deleteFile oldPath)
    (fun deleteError =>
       let* _ := tryCatch (deleteFile newPath) (fun _ => ret tt) in
       throw (renameError oldPath deleteError)).

Definition copyFile (sourcePath destinationPath : string) : M FS OPFSEntry :=
  let* content := readFile sourcePath in
  createFile destinationPath content.

Definition exists_ (p : string) (fs : FS) : bool :=
  bool_decide (is_Some (fileCache fs !! p)).

End Methods.

(** *** An in-memory browser

    Files and directories are keyed by their path from the root; the
    entries in [locked] refuse removal, as a file does while a writer
    holds it. *)
Record MemFS := {
  files : gmap string string;
  dirs : gset string;
  locked : gset string
}.

Definition child (h name : string) : string :=
  if JS.truthyStr h then h +:+ "/" +:+ name else name.

Definition under (p q : string) : bool :=
  String.eqb q p || JS.startsWith (p +:+ "/") q.

Definition mem_getDirectoryHandle (h name : string) (create : bool) : M MemFS string :=
  fun w =>
    let p := child h name in
    if bool_decide (p ∈ dirs w) then (Ok p, w)
    else if bool_decide (is_Some (files w !! p)) then (Throw "TypeMismatchError", w)
    else if create then
      (Ok p, {| files := files w; dirs := {[p]} ∪ dirs w; locked := locked w |})
    else (Throw "NotFoundError", w).

Definition mem_getFileHandle (h name : string) (create : bool) : M MemFS string :=
  fun w =>
    let p := child h name in
    if bool_decide (is_Some (files w !! p)) then (Ok p, w)
    else if bool_decide (p ∈ dirs w) then (Throw "TypeMismatchError", w)
    else if create then
      (Ok p, {| files := <[p := EmptyString]> (files w); dirs := dirs w;
                locked := locked w |})
    else (Throw "NotFoundError", w).

Definition mem_removeEntry (h name : string) (recursive : bool) : M MemFS unit :=
  fun w =>
    let p := child h name in
    if bool_decide (p ∈ locked w) then (Throw "NoModificationAllowedError", w)
    else if bool_decide (is_Some (files w !! p)) then
      (Ok tt, {| files := delete p (files w); dirs := dirs w; locked := locked w |})
    else if bool_decide (p ∈ dirs w) then
      if recursive then
        (Ok tt, {| files := filter (λ kv, under p kv.1 = false) (files w);
                   dirs := filter (λ d, under p d = false) (dirs w);
                   locked := locked w |})
      else (Throw "InvalidModificationError", w)
    else (Throw "NotFoundError", w).

Definition mem_getFileText (h : string) : M MemFS string :=
  fun w =>
    match files w !! h with
    | Some c => (Ok c, w)
    | None => (Throw "NotFoundError", w)
    end.

Definition mem_writeContent (h content : string) : M MemFS unit :=
  fun w =>
    match files w !! h with
    | Some _ => (Ok tt, {| files := <[h := content]> (files w); dirs := dirs w;
                           locked := locked w |})
    | None => (Throw "NotFoundError", w)
    end.

#[global] Instance MemAPI : FileSystemAPI MemFS string := {
  isSupported := true;
  getDirectory := ret EmptyString;
  getDirectoryHandle := mem_getDirectoryHandle;
  getFileHandle := mem_getFileHandle;
  removeEntry := mem_removeEntry;
  getFileText := mem_getFileText;
  writeContent := mem_writeContent
}.

(** A fresh [OPFSFileSystem] over a browser state. *)
Definition fresh {W H} (w : W) : OPFSFileSystem W H :=
  {| rootHandle := None; fileCache := ∅; initialized := false; browser := w |}.

End OPFS.

(** ** The terminal, [src/terminal.ts] *)

Module Terminal.
Import Async.

Record CommandResult := {
  success : bool;
  output : string;
  error : option string
}.

(** What the component sends to xterm. *)
Inductive TermOp :=
| Write (text : string)
| Writeln (text : string)
| Clear.

(** The fields of [TerminalManager]; [terminal] is the sequence of
    operations sent to xterm so far. *)
Record TerminalManager := {
  terminal : list TermOp;
  currentLine : string;
  cursorPosition : Z;
  commandHistory : list string;
  historyIndex : Z;
  currentDirectory : string;
  debugMode : bool
}.

(** The state of a fresh [TerminalManager]. *)
Definition initial : TerminalManager :=
  {| terminal := []; currentLine := EmptyString; cursorPosition := 0;
     commandHistory := []; historyIndex := -1;
     currentDirectory := EmptyString; debugMode := false |}.

Definition send (op : TermOp) (t : TerminalManager) : TerminalManager :=
  {| terminal := terminal t ++ [op]; currentLine := currentLine t;
     cursorPosition := cursorPosition t; commandHistory := commandHistory t;
     historyIndex := historyIndex t; currentDirectory := currentDirectory t;
     debugMode := debugMode t |}.

Definition setCurrentLine (l : string) (t : TerminalManager) : TerminalManager :=
  {| terminal := terminal t; currentLine := l;
     cursorPosition := cursorPosition t; commandHistory := commandHistory t;
     historyIndex := historyIndex t; currentDirectory := currentDirectory t;
     debugMode := debugMode t |}.

Definition setCursorPosition (c : Z) (t : TerminalManager) : TerminalManager :=
  {| terminal := terminal t; currentLine := currentLine t;
     cursorPosition := c; commandHistory := commandHistory t;
     historyIndex := historyIndex t; currentDirectory := currentDirectory t;
     debugMode := debugMode t |}.

Definition setHistoryIndex (i : Z) (t : TerminalManager) : TerminalManager :=
  {| terminal := terminal t; currentLine := currentLine t;
     cursorPosition := cursorPosition t; commandHistory := commandHistory t;
     historyIndex := i; currentDirectory := currentDirectory t;
     debugMode := debugMode t |}.

Definition pushHistory (input : string) (t : TerminalManager) : TerminalManager :=
  {| terminal := terminal t; currentLine := currentLine t;
     cursorPosition := cursorPosition t;
     commandHistory := commandHistory t ++ [input];
     historyIndex := historyIndex t; currentDirectory := currentDirectory t;
     debugMode := debugMode t |}.

Definition setDebugMode (b : bool) (t : TerminalManager) : TerminalManager :=
  {| terminal := terminal t; currentLine := currentLine t;
     cursorPosition := cursorPosition t; commandHistory := commandHistory t;
     historyIndex := historyIndex t; currentDirectory := currentDirectory t;
     debugMode := b |}.

Definition CSI : string := JS.ESC +:+ "[".

Definition prompt (t : TerminalManager) : TerminalManager :=
  let dir := JS.orStr (Some (currentDirectory t)) "/" in
  send (Write (CSI +:+ "1;36m" +:+ dir +:+ CSI +:+ "0m " +:+ CSI +:+ "1;32m$"
               +:+ CSI +:+ "0m ")) t.

Definition strlen (s : string) : Z := Z.of_nat (String.length s).

Definition replaceCurrentLine (newLine : string) (t : TerminalManager)
  : TerminalManager :=
  let t := send (Write (CSI +:+ "2K" +:+ String (ascii_of_nat 13) EmptyString)) t in
  let t := prompt t in
  let t := setCursorPosition (strlen newLine) t in
  let t := setCurrentLine newLine t in
  send (Write newLine) t.

(** Loop state of [parsePipeChain] and of [parseCommand]. *)
Record ScanState := {
  done_ : list string;
  current : string;
  inQuote : bool;
  quoteChar : string
}.

Definition char1 (c : ascii) : string := String c EmptyString.

Definition isQuote (c : ascii) : bool := Ascii.eqb c JS.DQ || Ascii.eqb c "'".

Definition parsePipeChain_step (st : ScanState) (char : ascii) : ScanState :=
  if isQuote char && negb (inQuote st) then
    {| done_ := done_ st; current := current st +:+ char1 char;
       inQuote := true; quoteChar := char1 char |}
  else if String.eqb (char1 char) (quoteChar st) && inQuote st then
    {| done_ := done_ st; current := current st +:+ char1 char;
       inQuote := false; quoteChar := EmptyString |}
  else if Ascii.eqb char "|" && negb (inQuote st) then
    {| done_ := done_ st ++ [JS.trim (current st)]; current := EmptyString;
       inQuote := inQuote st; quoteChar := quoteChar st |}
  else
    {| done_ := done_ st; current := current st +:+ char1 char;
       inQuote := inQuote st; quoteChar := quoteChar st |}.

Fixpoint scan (step : ScanState -> ascii -> ScanState) (st : ScanState)
    (input : string) : ScanState :=
  match input with
  | EmptyString => st
  | String char r => scan step (step st char) r
  end.

Definition scanStart : ScanState :=
  {| done_ := []; current := EmptyString; inQuote := false;
     quoteChar := EmptyString |}.

Definition parsePipeChain (input : string) : list string :=
  let st := scan parsePipeChain_step scanStart input in
  if JS.truthyStr (JS.trim (current st))
  then done_ st ++ [JS.trim (current st)]
  else done_ st.

Definition parseCommand_step (st : ScanState) (char : ascii) : ScanState :=
  if isQuote char && negb (inQuote st) then
    {| done_ := done_ st; current := current st;
       inQuote := true; quoteChar := char1 char |}
  else if String.eqb (char1 char) (quoteChar st) && inQuote st then
    {| done_ := done_ st; current := current st;
       inQuote := false; quoteChar := EmptyString |}
  else if Ascii.eqb char " " && negb (inQuote st) then
    if JS.truthyStr (current st)
    then {| done_ := done_ st ++ [current st]; current := EmptyString;
            inQuote := inQuote st; quoteChar := quoteChar st |}
    else st
  else
    {| done_ := done_ st; current := current st +:+ char1 char;
       inQuote := inQuote st; quoteChar := quoteChar st |}.

Definition parseCommand (input : string) : list string :=
  let st := scan parseCommand_step scanStart input in
  if JS.truthyStr (current st) then done_ st ++ [current st] else done_ st.

(** Own properties of [COMMAND_ALIASES]. *)
Definition COMMAND_ALIASES (name : string) : option string :=
  if String.eqb name "list_files" then Some "ls"
  else if String.eqb name "open_file" then Some "cat"
  else if String.eqb name "create_file" then Some "touch"
  else if String.eqb name "delete_file" then Some "rm"
  else if String.eqb name "move_file" then Some "mv"
  else if String.eqb name "rename_file" then Some "mv"
  else if String.eqb name "head_file" then Some "head"
  else if String.eqb name "tail_file" then Some "tail"
  else if String.eqb name "write_file" then Some "write"
  else None.

(** [resolvePath] *)
Definition resolvePath (t : TerminalManager) (p : string) : string :=
  let cwd := currentDirectory t in
  if negb (JS.truthyStr p) || String.eqb p "." then cwd
  else if JS.startsWith "/" p then JS.sliceStr p 1 None
  else if String.eqb p ".." then
    let parts := filter (λ x, JS.truthyStr x = true) (JS.split "/" cwd) in
    JS.join "/" (removelast parts)
  else
    let p := if JS.startsWith "./" p then JS.sliceStr p 2 None else p in
    if JS.truthyStr cwd then cwd +:+ "/" +:+ p else p.

Definition LF : ascii := ascii_of_nat 10.

Definition failure (message : string) : CommandResult :=
  {| success := false; output := EmptyString; error := Some message |}.

Definition ok (out : string) : CommandResult :=
  {| success := true; output := out; error := None |}.

(** [match => `\x1b[1;31m${match}\x1b[0m`] *)
Definition highlight (w : string) : string :=
  CSI +:+ "1;31m" +:+ w +:+ CSI +:+ "0m".

Section Handlers.
(** [W] is the state of the [opfsFileSystem] singleton. *)
Context {W : Type}.
Variable readFile : string -> M W string.
Variable engine : RegExp.Engine.

Definition cmdCat (t : TerminalManager) (p stdin : option string)
  : M W CommandResult :=
  match stdin, JS.truthyOpt p with
  | Some input, false => ret (ok input)
  | None, false => ret (failure "Usage: cat <path>")
  | _, true =>
      let resolvedPath := resolvePath t (JS.orStr p EmptyString) in
      let* content := readFile resolvedPath in
      ret (ok content)
  end.

Definition cmdHead (t : TerminalManager) (p : option string) (lines : Z)
    (stdin : option string) : M W CommandResult :=
  let* src :=
    match stdin with
    | Some input =>
        (* with stdin, a path is read as the line count *)
        let lines :=
          if JS.truthyOpt p then
            match JS.parseInt (JS.orStr p EmptyString) None with
            | JS.Int parsed => parsed
            | JS.NaN => lines
            end
          else lines in
        ret (inr (input, lines))
    | None =>
        if negb (JS.truthyOpt p) then ret (inl (failure "Usage: head <path> [lines]"))
        else
          let resolvedPath := resolvePath t (JS.orStr p EmptyString) in
          let* content := readFile resolvedPath in
          ret (inr (content, lines))
    end in
  match src with
  | inl usage => ret usage
  | inr (content, lines) =>
      let allLines := JS.split LF content in
      let headLines := JS.slice allLines 0 (Some lines) in
      ret (ok (JS.join (char1 LF) headLines))
  end.

Definition cmdTail (t : TerminalManager) (p : option string) (lines : Z)
    (stdin : option string) : M W CommandResult :=
  let* src :=
    match stdin with
    | Some input =>
        let lines :=
          if JS.truthyOpt p then
            match JS.parseInt (JS.orStr p EmptyString) None with
            | JS.Int parsed => parsed
            | JS.NaN => lines
            end
          else lines in
        ret (inr (input, lines))
    | None =>
        if negb (JS.truthyOpt p) then ret (inl (failure "Usage: tail <path> [lines]"))
        else
          let resolvedPath := resolvePath t (JS.orStr p EmptyString) in
          let* content := readFile resolvedPath in
          ret (inr (content, lines))
    end in
  match src with
  | inl usage => ret usage
  | inr (content, lines) =>
      let allLines := JS.split LF content in
      let tailLines := JS.slice allLines (- lines) None in
      ret (ok (JS.join (char1 LF) tailLines))
  end.

(** The matching lines of [cmdGrep], highlighted. *)
Definition grepMatches (m : RegExp.Matcher) (content : string) : list string :=
  let lines := JS.split LF content in
  map (fun line => RegExp.replace m line highlight)
      (RegExp.filterTest m id O lines).

Definition cmdGrep (t : TerminalManager) (pattern p stdin : option string)
  : M W CommandResult :=
  if negb (JS.truthyOpt pattern) then ret (failure "Usage: grep <pattern> [path]")
  else
    let* content :=
      match stdin with
      | Some input => ret (inr input)
      | None =>
          if negb (JS.truthyOpt p) then ret (inl (failure "Usage: grep <pattern> <path>"))
          else
            let* content := readFile (resolvePath t (JS.orStr p EmptyString)) in
            ret (inr content)
      end in
    match content with
    | inl r => ret r
    | inr content =>
        match engine (JS.orStr pattern EmptyString) "gi" with
        | None => throw "Invalid regular expression"
        | Some regex =>
            let matches := grepMatches regex content in
            match matches with
            | [] => ret (ok EmptyString)
            | _ => ret (ok (JS.join (char1 LF) matches))
            end
        end
    end.

(** [parseInt(args[1] || '10') || 10] *)
Definition lineCount (a : list string) : Z :=
  match JS.parseInt (JS.orStr (a !! 1%nat) "10") None with
  | JS.Int n => if n =? 0 then 10 else n
  | JS.NaN => 10
  end.

(** The handlers this development does not embed, by the name the
    [switch] dispatches on. *)
Variable otherVerbs :
  string -> option (list string -> option string -> M (TerminalManager * W) CommandResult).

(** A handler that reads [this] and runs on the store. *)
Definition onStore {A} (h : TerminalManager -> M W A) : M (TerminalManager * W) A :=
  fun '(t, w) => let '(r, w') := h t w in (r, (t, w')).

Definition unknownCommand (command : string) : CommandResult :=
  failure ("Unknown command: " +:+ command
           +:+ ". Type 'help' for available commands.").

(** [runCommand]: a name that [COMMAND_ALIASES] inherits from
    [Object.prototype] resolves to a non-string and takes the
    [default] arm. *)
Definition runCommand (command : string) (a : list string) (stdin : option string)
  : M (TerminalManager * W) CommandResult :=
  if PipeParser.inheritedProperty command then ret (unknownCommand command)
  else
    let resolvedCommand := default command (COMMAND_ALIASES command) in
    if String.eqb resolvedCommand "cat" then
      onStore (fun t => cmdCat t (a !! 0%nat) stdin)
    else if String.eqb resolvedCommand "head" then
      onStore (fun t => cmdHead t (a !! 0%nat) (lineCount a) stdin)
    else if String.eqb resolvedCommand "tail" then
      onStore (fun t => cmdTail t (a !! 0%nat) (lineCount a) stdin)
    else if String.eqb resolvedCommand "grep" then
      onStore (fun t => cmdGrep t (a !! 0%nat) (a !! 1%nat) stdin)
    else if String.eqb resolvedCommand "echo" then
      ret (ok (JS.join " " a))
    else
      match otherVerbs resolvedCommand with
      | Some handler => handler a stdin
      | None => ret (unknownCommand command)
      end.

End Handlers.

(** [text.replace(/\n/g, '\r\n')] *)
Fixpoint crlf (text : string) : string :=
  match text with
  | EmptyString => EmptyString
  | String c r =>
      if Ascii.eqb c LF then String (ascii_of_nat 13) (String LF (crlf r))
      else String c (crlf r)
  end.

Definition errorLine (message : string) : TermOp :=
  Writeln (CSI +:+ "1;31mError:" +:+ CSI +:+ "0m " +:+ message).

(** One call of [runCommand] by the executor, with what it answered. *)
Record Invocation := {
  inv_command : string;
  inv_args : list string;
  inv_stdin : option string;
  inv_result : Result CommandResult
}.

(** How the stage loop of [executeCommand] ends: by the [return]
    after a failed stage, by running out of stages, or by an
    exception. *)
Inductive LoopExit :=
| Returned
| Completed (stdin : option string)
| Raised (message : string).

Section Executor.
Context {W : Type}.
Variable runCommand :
  string -> list string -> option string -> M (TerminalManager * W) CommandResult.
(** The boxes [logDebugInput] and [logDebugOutput] print. *)
Variable logDebugInput : string -> list string -> option string -> bool -> list TermOp.
Variable logDebugOutput : CommandResult -> list TermOp.

Definition onTerminal (f : TerminalManager -> TerminalManager)
    (s : TerminalManager * W) : TerminalManager * W := (f s.1, s.2).

Definition sendAll (ops : list TermOp) (t : TerminalManager) : TerminalManager :=
  fold_left (fun t op => send op t) ops t.

Definition debugging (command : string) (s : TerminalManager * W) : bool :=
  debugMode s.1 && negb (String.eqb command "debug").

(** The [for] loop of [executeCommand] from stage [i] on.  Next to
    the state it returns the calls of [runCommand] it made, in
    order. *)
Fixpoint runStages (pipeCommands : list string) (i : nat) (stdin : option string)
    (s : TerminalManager * W) : LoopExit * (TerminalManager * W) * list Invocation :=
  match pipeCommands with
  | [] => (Completed stdin, s, [])
  | cmdInput :: rest =>
      let parts := parseCommand cmdInput in
      let command := JS.toLowerCase (PipeParser.firstOf parts) in
      let a := JS.slice parts 1 None in
      let s := if debugging command s
               then onTerminal (sendAll (logDebugInput command a stdin (0 <? i)%nat)) s
               else s in
      let '(r, s) := runCommand command a stdin s in
      let call := {| inv_command := command; inv_args := a;
                     inv_stdin := stdin; inv_result := r |} in
      match r with
      | Throw message => (Raised message, s, [call])
      | Ok result =>
          let s := if debugging command s
                   then onTerminal (sendAll (logDebugOutput result)) s
                   else s in
          if negb (success result) then
            let s := if JS.truthyOpt (error result)
                     then onTerminal (send (errorLine (JS.orStr (error result) EmptyString))) s
                     else s in
            (Returned, onTerminal prompt s, [call])
          else
            let '(exit, s, calls) :=
              runStages rest (S i) (Some (output result)) s in
            (exit, s, call :: calls)
      end
  end.

Definition executeCommand (input : string) (s : TerminalManager * W)
  : (TerminalManager * W) * list Invocation :=
  if negb (JS.truthyStr input) then (onTerminal prompt s, [])
  else
    let s := onTerminal (pushHistory input) s in
    let s := onTerminal (setHistoryIndex (-1)) s in
    let pipeCommands := parsePipeChain input in
    match runStages pipeCommands O None s with
    | (Returned, s, calls) => (s, calls)
    | (Completed stdin, s, calls) =>
        let s := if JS.truthyOpt stdin
                 then onTerminal (send (Writeln (crlf (JS.orStr stdin EmptyString)))) s
                 else s in
        (onTerminal prompt s, calls)
    | (Raised message, s, calls) =>
        let s := if debugMode s.1
                 then onTerminal (sendAll (logDebugOutput (failure message))) s
                 else s in
        let s := onTerminal (send (errorLine message)) s in
        (onTerminal prompt s, calls)
    end.

Definition key (codes : list nat) : string :=
  fold_right (fun n r => String (ascii_of_nat n) r) EmptyString codes.

Definition ENTER : string := key [13%nat].
Definition BACKSPACE : string := key [127%nat].
Definition UP : string := CSI +:+ "A".
Definition DOWN : string := CSI +:+ "B".
Definition RIGHT : string := CSI +:+ "C".
Definition LEFT : string := CSI +:+ "D".
Definition CTRL_A : string := key [1%nat].
Definition CTRL_E : string := key [5%nat].
Definition CTRL_C : string := key [3%nat].
Definition CTRL_L : string := key [12%nat].

(** [this.commandHistory[this.commandHistory.length - 1 -
    this.historyIndex] || ''] *)
Definition historyEntry (t : TerminalManager) : string :=
  JS.orStr
    (JS.index (commandHistory t)
              (Z.of_nat (length (commandHistory t)) - 1 - historyIndex t))
    EmptyString.

(** [handleInput].  The call of [executeCommand] on Enter is run to
    its end before the line is reset; nothing in it reads or writes
    [currentLine] or [cursorPosition]. *)
Definition handleInput (data : string) (s : TerminalManager * W)
  : TerminalManager * W :=
  let t := s.1 in
  if String.eqb data ENTER then
    let s := onTerminal (send (Writeln EmptyString)) s in
    let s := (executeCommand (JS.trim (currentLine s.1)) s).1 in
    let s := onTerminal (setCurrentLine EmptyString) s in
    onTerminal (setCursorPosition 0) s
  else if String.eqb data BACKSPACE then
    if 0 <? cursorPosition t then
      let before := JS.sliceStr (currentLine t) 0 (Some (cursorPosition t - 1)) in
      let after := JS.sliceStr (currentLine t) (cursorPosition t) None in
      let s := onTerminal (setCurrentLine (before +:+ after)) s in
      let s := onTerminal (setCursorPosition (cursorPosition t - 1)) s in
      onTerminal (send (Write (key [8%nat] +:+ after +:+ " " +:+ CSI
                               +:+ JS.showZ (strlen after + 1) +:+ "D"))) s
    else s
  else if String.eqb data UP then
    if historyIndex t <? Z.of_nat (length (commandHistory t)) - 1 then
      let s := onTerminal (setHistoryIndex (historyIndex t + 1)) s in
      onTerminal (fun t => replaceCurrentLine (historyEntry t) t) s
    else s
  else if String.eqb data DOWN then
    if 0 <? historyIndex t then
      let s := onTerminal (setHistoryIndex (historyIndex t - 1)) s in
      onTerminal (fun t => replaceCurrentLine (historyEntry t) t) s
    else if historyIndex t =? 0 then
      let s := onTerminal (setHistoryIndex (-1)) s in
      onTerminal (replaceCurrentLine EmptyString) s
    else s
  else if String.eqb data RIGHT then
    if cursorPosition t <? strlen (currentLine t) then
      let s := onTerminal (setCursorPosition (cursorPosition t + 1)) s in
      onTerminal (send (Write RIGHT)) s
    else s
  else if String.eqb data LEFT then
    if 0 <? cursorPosition t then
      let s := onTerminal (setCursorPosition (cursorPosition t - 1)) s in
      onTerminal (send (Write LEFT)) s
    else s
  else if String.eqb data CTRL_A then
    if 0 <? cursorPosition t then
      let s := onTerminal (send (Write (CSI +:+ JS.showZ (cursorPosition t) +:+ "D"))) s in
      onTerminal (setCursorPosition 0) s
    else s
  else if String.eqb data CTRL_E then
    if cursorPosition t <? strlen (currentLine t) then
      let s := onTerminal (send (Write (CSI +:+ JS.showZ (strlen (currentLine t)
                                                           - cursorPosition t)
                                        +:+ "C"))) s in
      onTerminal (setCursorPosition (strlen (currentLine t))) s
    else s
  else if String.eqb data CTRL_C then
    let s := onTerminal (send (Writeln "^C")) s in
    let s := onTerminal (setCurrentLine EmptyString) s in
    let s := onTerminal (setCursorPosition 0) s in
    onTerminal prompt s
  else if String.eqb data CTRL_L then
    let s := onTerminal (send Clear) s in
    onTerminal prompt s
  else if JS.leStr " " data && JS.leStr data "~" then
    let before := JS.sliceStr (currentLine t) 0 (Some (cursorPosition t)) in
    let after := JS.sliceStr (currentLine t) (cursorPosition t) None in
    let s := onTerminal (setCurrentLine (before +:+ data +:+ after)) s in
    let s := onTerminal (setCursorPosition (cursorPosition t + 1)) s in
    let s := onTerminal (send (Write (data +:+ after))) s in
    if 0 <? strlen after
    then onTerminal (send (Write (CSI +:+ JS.showZ (strlen after) +:+ "D"))) s
    else s
  else s.

(** The events of a session, oldest first. *)
Definition handleInputs (events : list string) (s : TerminalManager * W)
  : TerminalManager * W :=
  fold_left (fun s data => handleInput data s) events s.

End Executor.

End Terminal.

(** ** The terminal before pipes, the earlier revision of [src/terminal.ts] *)

Module TerminalV0.
Import Async.
Import Terminal.

(** [parseCommand] of this revision. *)
Definition parseCommand_step (st : ScanState) (char : ascii) : ScanState :=
  if isQuote char && negb (inQuote st) then
    {| done_ := done_ st; current := current st;
       inQuote := true; quoteChar := char1 char |}
  else if String.eqb (char1 char) (quoteChar st) && inQuote st then
    {| done_ := done_ st; current := current st;
       inQuote := false; quoteChar := EmptyString |}
  else if Ascii.eqb char " " && negb (inQuote st) then
    if JS.truthyStr (current st)
    then {| done_ := done_ st ++ [current st]; current := EmptyString;
            inQuote := inQuote st; quoteChar := quoteChar st |}
    else st
  else
    {| done_ := done_ st; current := current st +:+ char1 char;
       inQuote := inQuote st; quoteChar := quoteChar st |}.

Definition parseCommand (input : string) : list string :=
  let st := scan parseCommand_step scanStart input in
  if JS.truthyStr (current st) then done_ st ++ [current st] else done_ st.

(** [`\x1b[1;33m${num}:\x1b[0m ${highlighted}`] *)
Definition numbered (num : nat) (highlighted : string) : string :=
  CSI +:+ "1;33m" +:+ JS.showNat num +:+ ":" +:+ CSI +:+ "0m " +:+ highlighted.

(** [lines.map((line, i) => ({ line, num: i + 1 }))] *)
Definition withNumbers (lines : list string) : list (string * nat) :=
  imap (fun i line => (line, S i)) lines.

Section Handlers.
Context {W : Type}.
Variable readFile : string -> M W string.
Variable engine : RegExp.Engine.

Definition grepMatches (m : RegExp.Matcher) (content : string) : list string :=
  let lines := JS.split LF content in
  map (fun '(line, num) => numbered num (RegExp.replace m line highlight))
      (RegExp.filterTest m fst O (withNumbers lines)).

Definition cmdGrep (t : TerminalManager) (pattern p : option string)
  : M W CommandResult :=
  if negb (JS.truthyOpt pattern) || negb (JS.truthyOpt p)
  then ret (failure "Usage: grep <pattern> <path>")
  else
    let resolvedPath := resolvePath t (JS.orStr p EmptyString) in
    let* content := readFile resolvedPath in
    match engine (JS.orStr pattern EmptyString) "gi" with
    | None => throw "Invalid regular expression"
    | Some regex =>
        let matches := grepMatches regex content in
        match matches with
        | [] => ret (ok (CSI +:+ "2m(no matches)" +:+ CSI +:+ "0m"))
        | _ => ret (ok (JS.join (char1 LF) matches))
        end
    end.

End Handlers.

End TerminalV0.

(** ** What the specification calls the normalized input *)

Module Spec.

(** The characters the pipeline tokenizer separates on. *)
Definition isBlank (c : ascii) : bool :=
  Ascii.eqb c " " || Ascii.eqb c (ascii_of_nat 9).

(** Where a left-to-right reading of the line stands: before the
    first word, inside a word, or in the blanks after a word. *)
Inductive Reading := AtStart | InWord | InGap.

(** Collapsed white space: every run of blanks between two words
    becomes one space, the blanks before the first word and after the
    last one disappear, and the words are kept as they are. *)
Fixpoint collapseFrom (r : Reading) (s : string) : string :=
  match s with
  | EmptyString => EmptyString
  | String c s' =>
      if isBlank c then
        collapseFrom (match r with AtStart => AtStart | _ => InGap end) s'
      else
        match r with
        | InGap => String " " (String c (collapseFrom InWord s'))
        | _ => String c (collapseFrom InWord s')
        end
  end.

Definition collapseWhitespace (s : string) : string := collapseFrom AtStart s.

Fixpoint hasQuote (s : string) : bool :=
  match s with
  | EmptyString => false
  | String c r => Terminal.isQuote c || hasQuote r
  end.

(** The quote tracking of the tokenizer, run over a whole line: the
    number of pipe characters met outside an open quote.  [open] is
    the quote character that is open, if any. *)
Fixpoint unquotedPipes (open : option ascii) (s : string) : nat :=
  match s with
  | EmptyString => O
  | String c r =>
      match open with
      | Some q =>
          if Ascii.eqb c q then unquotedPipes None r else unquotedPipes (Some q) r
      | None =>
          if Terminal.isQuote c then unquotedPipes (Some c) r
          else if Ascii.eqb c "|" then S (unquotedPipes None r)
          else unquotedPipes None r
      end
  end.

(** The lines a count selects.  A positive count [n] keeps the first
    (head) or the last (tail) [n] lines; a negative count [-k] drops
    the last (head) or the first (tail) [k] lines; the count zero
    keeps nothing in head and everything in tail. *)
Definition headOf (count : Z) (content : string) : string :=
  let ls := JS.split Terminal.LF content in
  JS.join (Terminal.char1 Terminal.LF)
    (if 0 <=? count then take (Z.to_nat count) ls
     else take (length ls - Z.to_nat (- count)) ls).

Definition tailOf (count : Z) (content : string) : string :=
  let ls := JS.split Terminal.LF content in
  JS.join (Terminal.char1 Terminal.LF)
    (if 0 <? count then drop (length ls - Z.to_nat count) ls
     else drop (Z.to_nat (- count)) ls).

(** A line the compiled pattern matches: it has a match from some
    start index. *)
Definition matched (m : RegExp.Matcher) (line : string) : Prop :=
  exists from, is_Some (m line from).

(** A compiled pattern answers with a match that starts at or after
    the start index it was given and does not end before it starts. *)
Definition wellBehaved (m : RegExp.Matcher) : Prop :=
  forall s from i e, m s from = Some (i, e) -> (from <= i)%nat ∧ (i <= e)%nat.

(** A printed line that begins with the line number [num] and a
    colon, plain or in the colour the terminal gives it. *)
Definition hasLineNumber (num : nat) (printed : string) : Prop :=
  exists rest,
    printed = JS.showNat num +:+ ":" +:+ rest
    ∨ printed = Terminal.CSI +:+ "1;33m" +:+ JS.showNat num +:+ ":" +:+ rest.

End Spec.

(** ** Notions the statements use *)

Module Notions.

(** What [tokenize] returns from a loop state. *)
Definition finish (st : PipeParser.TokState) : list string :=
  if JS.truthyStr (PipeParser.current st)
  then PipeParser.tokens st ++ [PipeParser.current st]
  else PipeParser.tokens st.

(** The text already fixed by a loop state outside quotes, and the
    reading the state stands for. *)
Definition emitted (toks : list string) (cur : string) : string :=
  if JS.truthyStr cur then JS.join " " (toks ++ [cur]) else JS.join " " toks.

Definition reading (toks : list string) (cur : string) : Spec.Reading :=
  if JS.truthyStr cur then Spec.InWord
  else match toks with [] => Spec.AtStart | _ => Spec.InGap end.

(** A loop state of [parsePipeChain] stands for an open quote or for
    none. *)
Definition tracks (st : Terminal.ScanState) (open : option ascii) : Prop :=
  match open with
  | None => Terminal.inQuote st = false ∧ Terminal.quoteChar st = EmptyString
  | Some q => Terminal.inQuote st = true ∧ Terminal.quoteChar st = Terminal.char1 q
  end.

(** What the executor runs for a stage text. *)
Definition stageCall (cmdInput : string) (c : Terminal.Invocation) : Prop :=
  Terminal.inv_command c
  = JS.toLowerCase (PipeParser.firstOf (Terminal.parseCommand cmdInput))
  ∧ Terminal.inv_args c = JS.slice (Terminal.parseCommand cmdInput) 1 None.

Definition succeeded (c : Terminal.Invocation) : Prop :=
  exists r, Terminal.inv_result c = Async.Ok r ∧ Terminal.success r = true.

(** The count head and tail use on piped input. *)
Definition pipedCount (p : option string) (lines : Z) : Z :=
  if JS.truthyOpt p then
    match JS.parseInt (JS.orStr p EmptyString) None with
    | JS.Int parsed => parsed
    | JS.NaN => lines
    end
  else lines.

(** Where the text of a successful grep comes from: the piped input,
    which leaves the store as it is, or the file at the path. *)
Definition grepText {W : Type} (readFile : string -> Async.M W string)
    (t : Terminal.TerminalManager) (p stdin : option string) (w w' : W)
    (content : string) : Prop :=
  match stdin with
  | Some input => content = input ∧ w' = w
  | None =>
      readFile (Terminal.resolvePath t (JS.orStr p EmptyString)) w
      = (Async.Ok content, w')
  end.

End Notions.

(** ** The invariant of the line editor *)

Module Editor.

(** [0 <= cursorPosition <= currentLine.length] *)
Definition cursorInLine (t : Terminal.TerminalManager) : Prop :=
  0 <= Terminal.cursorPosition t <= Terminal.strlen (Terminal.currentLine t).

End Editor.

(** ** Inputs used below *)

Module Examples.

Definition spaced_line : string :=
  "  cat   file.txt" +:+ Terminal.char1 (ascii_of_nat 9) +:+ " -n  5 ".

(** [cat "a|b.txt"]: one stage, whose path holds a pipe character. *)
Definition quoted_pipe_line : string := "cat " +:+ JS.quoted "a|b.txt".

(** A terminal over the in-memory browser, with the engine for plain
    patterns, no further verbs and silent debug boxes. *)
Definition Store : Type := OPFS.OPFSFileSystem OPFS.MemFS string.

Definition readFile : string -> Async.M Store string := OPFS.readFile.

Definition noOtherVerbs (verb : string)
  : option (list string -> option string
            -> Async.M (Terminal.TerminalManager * Store) Terminal.CommandResult) :=
  None.

Definition runCommand :=
  Terminal.runCommand readFile RegExp.literalEngine noOtherVerbs.

Definition noDebugInput (command : string) (a : list string)
    (stdin : option string) (piped : bool) : list Terminal.TermOp := [].

Definition noDebugOutput (r : Terminal.CommandResult) : list Terminal.TermOp := [].

Definition lines (l : list string) : string :=
  JS.join (Terminal.char1 Terminal.LF) l.

Definition disk : OPFS.MemFS :=
  {| OPFS.files := {[ "notes.txt" := lines ["one"; "two"; "three"];
                      "log.txt" := lines ["ba"; "a"] ]};
     OPFS.dirs := ∅;
     OPFS.locked := ∅ |}.

Definition session : Terminal.TerminalManager * Store :=
  (Terminal.initial, OPFS.fresh disk).

Definition executeCommand :=
  Terminal.executeCommand runCommand noDebugInput noDebugOutput.

(** A browser in which [a.txt] cannot be removed. *)
Definition lockedDisk : OPFS.MemFS :=
  {| OPFS.files := {[ "a.txt" := "hello" ]};
     OPFS.dirs := ∅;
     OPFS.locked := {[ "a.txt" ]} |}.

(** The same, and the copy cannot be removed either once it exists. *)
Definition stuckDisk : OPFS.MemFS :=
  {| OPFS.files := {[ "a.txt" := "hello" ]};
     OPFS.dirs := ∅;
     OPFS.locked := {[ "a.txt"; "b.txt" ]} |}.

End Examples.

(** ** The other text verbs of [src/terminal.ts] *)

Module TextVerbs.
Import Async Terminal.

(** [lines.filter((line, index, arr) => index === 0 || line !==
    arr[index - 1])]; [prev] is [arr[index - 1]], absent at index 0. *)
Fixpoint dropRepeats (prev : option string) (lines : list string) : list string :=
  match lines with
  | [] => []
  | line :: rest =>
      match prev with
      | None => line :: dropRepeats (Some line) rest
      | Some before =>
          if String.eqb line before then dropRepeats (Some line) rest
          else line :: dropRepeats (Some line) rest
      end
  end.

(** [(content.match(/\n/g) || []).length] *)
Fixpoint countNewlines (content : string) : nat :=
  match content with
  | EmptyString => O
  | String c r => if Ascii.eqb c LF then S (countNewlines r) else countNewlines r
  end.

(** [content.split(/\s+/).filter(w => w.length > 0).length] *)
Definition countWords (content : string) : nat :=
  length (filter (λ w, (0 <? String.length w)%nat = true) (JS.splitWs content)).

Fixpoint spaces (n : nat) : string :=
  match n with
  | O => EmptyString
  | S k => String " " (spaces k)
  end.

(** [s.padStart(n)] *)
Definition padStart (s : string) (n : nat) : string :=
  spaces (n - String.length s) +:+ s.

(** The line [cmdWc] prints. *)
Definition wcLine (content label : string) : string :=
  "  " +:+ padStart (JS.showNat (countNewlines content)) 6
  +:+ " " +:+ padStart (JS.showNat (countWords content)) 6
  +:+ " " +:+ padStart (JS.showNat (String.length content)) 6
  +:+ (if JS.truthyStr label then " " +:+ label else EmptyString).

Definition removed (line : string) : string :=
  CSI +:+ "31m- " +:+ line +:+ CSI +:+ "0m".

Definition added (line : string) : string :=
  CSI +:+ "32m+ " +:+ line +:+ CSI +:+ "0m".

(** What a template prints for a line that may be [undefined]. *)
Definition shown (line : option string) : string := default "undefined" line.

(** One round of the loop of [cmdDiff], at index [i]. *)
Definition diffAt (lines1 lines2 : list string) (i : nat) : list string :=
  match lines1 !! i, lines2 !! i with
  | None, line2 => [added (shown line2)]
  | Some line1, None => [removed line1]
  | Some line1, Some line2 =>
      if String.eqb line1 line2 then [] else [removed line1; added line2]
  end.

Definition diffLines (lines1 lines2 : list string) : list string :=
  let maxLines := Nat.max (length lines1) (length lines2) in
  concat (map (diffAt lines1 lines2) (seq 0 maxLines)).

Definition identicalNote : string := CSI +:+ "2m(files are identical)" +:+ CSI +:+ "0m".

Section Handlers.
Context {W : Type}.
Variable readFile : string -> M W string.

Definition cmdUniq (t : TerminalManager) (p stdin : option string)
  : M W CommandResult :=
  let* src :=
    match stdin with
    | Some input => ret (inr input)
    | None =>
        if negb (JS.truthyOpt p) then ret (inl (failure "Usage: uniq <path>"))
        else
          let resolvedPath := resolvePath t (JS.orStr p EmptyString) in
          let* content := readFile resolvedPath in
          ret (inr content)
    end in
  match src with
  | inl usage => ret usage
  | inr content =>
      let lines := JS.split LF content in
      let unique := dropRepeats None lines in
      ret (ok (JS.join (char1 LF) unique))
  end.

Definition cmdWc (t : TerminalManager) (p stdin : option string)
  : M W CommandResult :=
  let label := JS.orStr p EmptyString in
  let* src :=
    match stdin with
    | Some input => ret (inr (input, EmptyString))
    | None =>
        if negb (JS.truthyOpt p) then ret (inl (failure "Usage: wc <path>"))
        else
          let resolvedPath := resolvePath t (JS.orStr p EmptyString) in
          let* content := readFile resolvedPath in
          ret (inr (content, label))
    end in
  match src with
  | inl usage => ret usage
  | inr (content, label) => ret (ok (wcLine content label))
  end.

Definition cmdDiff (t : TerminalManager) (path1 path2 : option string)
  : M W CommandResult :=
  if negb (JS.truthyOpt path1) || negb (JS.truthyOpt path2)
  then ret (failure "Usage: diff <file1> <file2>")
  else
    let resolvedPath1 := resolvePath t (JS.orStr path1 EmptyString) in
    let resolvedPath2 := resolvePath t (JS.orStr path2 EmptyString) in
    tryCatch
      (let* content1 := readFile resolvedPath1 in
       let* content2 := readFile resolvedPath2 in
       let lines1 := JS.split LF content1 in
       let lines2 := JS.split LF content2 in
       if String.eqb content1 content2 then ret (ok identicalNote)
       else ret (ok (JS.join (char1 LF) (diffLines lines1 lines2))))
      (fun _ => ret (failure "Failed to read one or both files")).

End Handlers.

End TextVerbs.

(** ** More methods of the file store, [src/opfsFileSystem.ts] *)

Module StoreMethods.
Import Async OPFS.

Section Methods.
Context {W H : Type} `{API : FileSystemAPI W H}.

(** [cachedPath === path || cachedPath.startsWith(path + '/')] *)
Definition underPath (p cachedPath : string) : bool :=
  String.eqb cachedPath p || JS.startsWith (p +:+ "/") cachedPath.

Definition deleteDirectory (p : string) : M (OPFSFileSystem W H) unit :=
  let* _ := ensureInitialized in
  let '(dirName, parts) := pop (pathParts p) in
  match dirName with
  | None => throw ("Invalid directory path: " +:+ p)
  | Some dirName =>
      let* r := root in
      let* parentHandle := navigate r parts in
      let* _ := call (removeEntry parentHandle dirName true) in
      setCache (fun c => filter (λ kv, underPath p kv.1 = false) c)
  end.

(** [createDirectory]: the value returned is [this.fileCache.get] of
    the trimmed path, which may be [undefined]. *)
Definition createDirectory (p : string) : M (OPFSFileSystem W H) (option OPFSEntry) :=
  let* _ := ensureInitialized in
  let trimmedPath := JS.trim p in
  if negb (JS.truthyStr trimmedPath)
  then throw "Invalid directory path: path cannot be empty"
  else
    match pathParts trimmedPath with
    | [] => throw "Invalid directory path: path contains only slashes"
    | parts =>
        let* r := root in
        let* _ := navigateCreate r EmptyString parts in
        let* fs := get in
        ret (fileCache fs !! trimmedPath)
    end.

Definition isDirectory (p : string) (fs : OPFSFileSystem W H) : bool :=
  match fileCache fs !! p with
  | Some entry => match kind entry with directory => true | file => false end
  | None => false
  end.

Definition isFile (p : string) (fs : OPFSFileSystem W H) : bool :=
  match fileCache fs !! p with
  | Some entry => match kind entry with file => true | directory => false end
  | None => false
  end.

End Methods.

End StoreMethods.

(** ** The verbs of [src/terminal.ts] that change the store *)

Module StoreVerbs.
Import Async OPFS Terminal.

Section Handlers.
Context {W H : Type} `{API : FileSystemAPI W H}.

Definition cmdMkdir (t : TerminalManager) (p : option string)
  : M (OPFSFileSystem W H) CommandResult :=
  if negb (JS.truthyOpt p) then ret (failure "Usage: mkdir <path>")
  else
    let resolvedPath := resolvePath t (JS.orStr p EmptyString) in
    let* _ := StoreMethods.createDirectory resolvedPath in
    ret (ok ("Created directory: " +:+ resolvedPath)).

Definition cmdTouch (t : TerminalManager) (p : option string)
  : M (OPFSFileSystem W H) CommandResult :=
  if negb (JS.truthyOpt p) then ret (failure "Usage: touch <path>")
  else
    let resolvedPath := resolvePath t (JS.orStr p EmptyString) in
    let* _ := createFile resolvedPath EmptyString in
    ret (ok ("Created file: " +:+ resolvedPath)).

Definition cmdRm (t : TerminalManager) (p : option string)
  : M (OPFSFileSystem W H) CommandResult :=
  if negb (JS.truthyOpt p) then ret (failure "Usage: rm <path>")
  else
    let resolvedPath := resolvePath t (JS.orStr p EmptyString) in
    let* _ := deleteFile resolvedPath in
    ret (ok ("Removed: " +:+ resolvedPath)).

Definition cmdRmdir (t : TerminalManager) (p : option string)
  : M (OPFSFileSystem W H) CommandResult :=
  if negb (JS.truthyOpt p) then ret (failure "Usage: rmdir <path>")
  else
    let resolvedPath := resolvePath t (JS.orStr p EmptyString) in
    let* _ := StoreMethods.deleteDirectory resolvedPath in
    ret (ok ("Removed directory: " +:+ resolvedPath)).

Definition cmdMv (t : TerminalManager) (source dest : option string)
  : M (OPFSFileSystem W H) CommandResult :=
  if negb (JS.truthyOpt source) || negb (JS.truthyOpt dest)
  then ret (failure "Usage: mv <source> <dest>")
  else
    let resolvedSource := resolvePath t (JS.orStr source EmptyString) in
    let resolvedDest := resolvePath t (JS.orStr dest EmptyString) in
    let* _ := renameFile resolvedSource resolvedDest in
    ret (ok ("Moved: " +:+ resolvedSource +:+ " -> " +:+ resolvedDest)).

Definition cmdCp (t : TerminalManager) (source dest : option string)
  : M (OPFSFileSystem W H) CommandResult :=
  if negb (JS.truthyOpt source) || negb (JS.truthyOpt dest)
  then ret (failure "Usage: cp <source> <dest>")
  else
    let resolvedSource := resolvePath t (JS.orStr source EmptyString) in
    let resolvedDest := resolvePath t (JS.orStr dest EmptyString) in
    let* _ := copyFile resolvedSource resolvedDest in
    ret (ok ("Copied: " +:+ resolvedSource +:+ " -> " +:+ resolvedDest)).

Definition cmdWrite (t : TerminalManager) (p content : option string)
  : M (OPFSFileSystem W H) CommandResult :=
  if negb (JS.truthyOpt p) then ret (failure "Usage: write <path> <content>")
  else
    let resolvedPath := resolvePath t (JS.orStr p EmptyString) in
    let* fs := get in
    let* _ :=
      if exists_ resolvedPath fs
      then writeFile resolvedPath (JS.orStr content EmptyString)
      else let* _ := createFile resolvedPath (JS.orStr content EmptyString) in ret tt in
    ret (ok ("Written to: " +:+ resolvedPath)).

End Handlers.

Definition cmdPwd (t : TerminalManager) : CommandResult :=
  ok ("/" +:+ currentDirectory t).

End StoreVerbs.

(** ** Notions about texts *)

Module Text.

(** The character [c] occurs in [s]. *)
Fixpoint contains (c : ascii) (s : string) : bool :=
  match s with
  | EmptyString => false
  | String d r => Ascii.eqb d c || contains c r
  end.

(** Every character of [s] is [c]. *)
Fixpoint only (c : ascii) (s : string) : bool :=
  match s with
  | EmptyString => true
  | String d r => Ascii.eqb d c && only c r
  end.

(** [p] is the beginning of [s], or its end. *)
Definition isPrefix (p s : string) : Prop := exists rest, s = p +:+ rest.
Definition isSuffix (p s : string) : Prop := exists front, s = front +:+ p.

(** No line is followed by an equal line. *)
Definition noRepeats (lines : list string) : Prop :=
  forall i x y, lines !! i = Some x -> lines !! S i = Some y -> x ≠ y.

End Text.

(** ** Notions about the command history *)

Module History.

(** A [runCommand] that leaves the history fields alone, as every
    handler of the terminal does. *)
Definition keeps {W : Type}
    (runCommand : string -> list string -> option string ->
                  Async.M (Terminal.TerminalManager * W) Terminal.CommandResult)
  : Prop :=
  forall command a stdin s,
    Terminal.commandHistory (runCommand command a stdin s).2.1
    = Terminal.commandHistory s.1
    ∧ Terminal.historyIndex (runCommand command a stdin s).2.1
      = Terminal.historyIndex s.1.

(** Two states with the same history fields. *)
Definition same (t t' : Terminal.TerminalManager) : Prop :=
  Terminal.commandHistory t' = Terminal.commandHistory t
  ∧ Terminal.historyIndex t' = Terminal.historyIndex t.

(** [-1 <= historyIndex <= commandHistory.length - 1] *)
Definition indexInRange (t : Terminal.TerminalManager) : Prop :=
  -1 <= Terminal.historyIndex t
  <= Z.of_nat (length (Terminal.commandHistory t)) - 1.

(** The code units of the printable ASCII characters. *)
Definition printable (c : ascii) : Prop :=
  (32 <= nat_of_ascii c <= 126)%nat.

End History.

(** ** Notions about the pipe parser *)

Module Parsed.

(** The tool names of [COMMAND_PATTERNS]. *)
Definition toolNames : list string :=
  ["cat"; "grep"; "sort"; "uniq"; "head"; "tail"; "wc"; "read_file"; "write_file"].

(** The two messages that [parsePipeCommand] puts in [error]. *)
Definition unknownCommand (name : string) : string := "Unknown command: " +:+ name.
Definition missingSource (tool : string) : string :=
  "First command (" +:+ tool +:+ ") requires a file path".

(** The record [result] with [invertMatch] set when [-v] is among the
    flags and [caseInsensitive] set when [-i] is, and nothing else
    added. *)
Definition switches (flags : list string) (result : gmap string PipeParser.Value)
  : gmap string PipeParser.Value :=
  let result :=
    if bool_decide ("-v" ∈ flags)
    then <["invertMatch" := PipeParser.VBool true]> result else result in
  if bool_decide ("-i" ∈ flags)
  then <["caseInsensitive" := PipeParser.VBool true]> result else result.

(** The two flags of grep that have a meaning. *)
Definition isSwitch (flag : string) : Prop := flag = "-i" ∨ flag = "-v".

End Parsed.

(** ** The two tokenizers side by side *)

Module Tokenizers.

Definition TAB : ascii := "009".

(** The loop state of the terminal's [parseCommand] and the loop state
    of the pipe parser's [tokenize] hold the same tokens, the same
    current token and the same open quote. *)
Definition related (st : Terminal.ScanState) (ts : PipeParser.TokState) : Prop :=
  Terminal.done_ st = PipeParser.tokens ts
  ∧ Terminal.current st = PipeParser.current ts
  ∧ Notions.tracks st (PipeParser.inQuote ts).

End Tokenizers.

(** ** Notions about the cache of the file store *)

Module Cache.
Import Async OPFS.

(** A method that leaves [fileCache] as it was, however it ends. *)
Definition keeps {W H A : Type} (m : M (OPFSFileSystem W H) A) : Prop :=
  forall fs, fileCache (m fs).2 = fileCache fs.

(** A method that changes [fileCache] by [f] when it returns and
    leaves it as it was when it throws. *)
Definition updates {W H A : Type}
    (f : gmap string OPFSEntry -> gmap string OPFSEntry)
    (m : M (OPFSFileSystem W H) A) : Prop :=
  forall fs,
    fileCache (m fs).2
    = match (m fs).1 with
      | Ok _ => f (fileCache fs)
      | Throw _ => fileCache fs
      end.

Definition fileEntry (name p : string) : OPFSEntry :=
  {| name := name; path := p; kind := file |}.

End Cache.

(** ** Browsers *)

Module Browsers.
Import Async OPFS.

(** A browser without the Origin Private File System: the two
    properties are missing, and no call of the API is ever made. *)
Definition unsupported : FileSystemAPI unit unit := {|
  isSupported := false;
  getDirectory := throw "TypeError";
  getDirectoryHandle := fun _ _ _ => throw "TypeError";
  getFileHandle := fun _ _ _ => throw "TypeError";
  removeEntry := fun _ _ _ => throw "TypeError";
  getFileText := fun _ => throw "TypeError";
  writeContent := fun _ _ => throw "TypeError"
|}.

Definition notSupported : string :=
  "Origin Private File System is not supported in this browser".

(** A store whose [init] has run on the in-memory browser. *)
Definition ready (w : MemFS) : OPFSFileSystem MemFS string :=
  {| rootHandle := Some EmptyString; fileCache := ∅; initialized := true;
     browser := w |}.

End Browsers.

(** ** What the terminal shows *)

Module Screen.

Definition ESC : ascii := "027".
Definition CR : ascii := "013".
Definition LF : ascii := "010".

(** [`\x1b[1;31mError:\x1b[0m ${message}`], the text of the line that
    reports an error. *)
Definition errorText (message : string) : string :=
  String ESC ("[1;31mError:" +:+ String ESC ("[0m " +:+ message)).

(** [`\x1b[1;36m${dir}\x1b[0m \x1b[1;32m$\x1b[0m `], the text of
    the prompt in the directory [cwd]; the root shows as [/]. *)
Definition promptText (cwd : string) : string :=
  String ESC ("[1;36m" +:+ (match cwd with EmptyString => "/" | _ => cwd end)
              +:+ String ESC ("[0m " +:+ String ESC ("[1;32m$" +:+ String ESC "[0m "))).

(** The text with a carriage return in front of every line feed: its
    lines joined by CR LF. *)
Definition lineBreaks (text : string) : string :=
  JS.join (String CR (String LF EmptyString)) (JS.split LF text).

End Screen.

(** * Properties *)

Import Notions.

(** ** Strings *)

Lemma append_cons (c : ascii) (s t : string) :
  String c s +:+ t = String c (s +:+ t).
Proof. reflexivity. Qed.

Lemma append_nil_l (s : string) : EmptyString +:+ s = s.
Proof. reflexivity. Qed.

Lemma append_nil_r (s : string) : s +:+ EmptyString = s.
Proof.
  induction s as [|c s IH]; [reflexivity|]. by rewrite append_cons, IH.
Qed.

Lemma append_assoc (s t u : string) : (s +:+ t) +:+ u = s +:+ (t +:+ u).
Proof.
  induction s as [|c s IH]; [reflexivity|]. by rewrite !append_cons, IH.
Qed.

Lemma length_append (s t : string) :
  String.length (s +:+ t) = (String.length s + String.length t)%nat.
Proof.
  induction s as [|c s IH]; [reflexivity|].
  rewrite append_cons. cbn. by rewrite IH.
Qed.

Lemma truthyStr_snoc (s : string) (c : ascii) :
  JS.truthyStr (s +:+ String c EmptyString) = true.
Proof. by destruct s. Qed.

Lemma truthyStr_true (s : string) : JS.truthyStr s = true <-> s ≠ EmptyString.
Proof. destruct s; cbn; split; congruence. Qed.

Lemma join_snoc (sep : string) (l : list string) (x : string) :
  l ≠ [] -> JS.join sep (l ++ [x]) = JS.join sep l +:+ sep +:+ x.
Proof.
  induction l as [|a l IH]; [done|]. intros _.
  destruct l as [|b l].
  - reflexivity.
  - change (JS.join sep ((a :: b :: l) ++ [x]))
      with (a +:+ sep +:+ JS.join sep ((b :: l) ++ [x])).
    rewrite IH by done.
    change (JS.join sep (a :: b :: l)) with (a +:+ sep +:+ JS.join sep (b :: l)).
    by rewrite !append_assoc.
Qed.

Lemma join_snoc_grow (sep : string) (l : list string) (x y : string) :
  JS.join sep (l ++ [x +:+ y]) = JS.join sep (l ++ [x]) +:+ y.
Proof.
  destruct l as [|a l]; [reflexivity|].
  rewrite !join_snoc by done. by rewrite !append_assoc.
Qed.

(** ** The tokenizers *)

Section Tokenizers.
Import PipeParser.

Lemma tokenize_unfold (input : string) :
  tokenize input =
  finish (tokenize_loop {| tokens := []; current := EmptyString; inQuote := None |} input).
Proof. reflexivity. Qed.

Lemma tokenize_step_nonempty (st : TokState) (c : ascii) :
  Forall (λ t, t ≠ EmptyString) (tokens st) ->
  Forall (λ t, t ≠ EmptyString) (tokens (tokenize_step st c)).
Proof.
  intros H. unfold tokenize_step.
  destruct (inQuote st); repeat case_match; cbn; try done.
  apply Forall_app; split; [done|]. constructor; [|done].
  by apply truthyStr_true.
Qed.

Lemma tokenize_loop_nonempty (input : string) (st : TokState) :
  Forall (λ t, t ≠ EmptyString) (tokens st) ->
  Forall (λ t, t ≠ EmptyString) (tokens (tokenize_loop st input)).
Proof.
  revert st. induction input as [|c r IH]; intros st H; cbn; [done|].
  apply IH. by apply tokenize_step_nonempty.
Qed.

Lemma tokenize_nonempty (input : string) :
  Forall (λ t, t ≠ EmptyString) (tokenize input).
Proof.
  rewrite tokenize_unfold. unfold finish.
  pose proof (tokenize_loop_nonempty input
    {| tokens := []; current := EmptyString; inQuote := None |}) as H.
  specialize (H (Forall_nil_2 _)).
  destruct (JS.truthyStr _) eqn:E; [|done].
  apply Forall_app; split; [done|]. constructor; [|done].
  by apply truthyStr_true.
Qed.

Lemma isBlank_eq (c : ascii) :
  Ascii.eqb c " " || Ascii.eqb c "009" = Spec.isBlank c.
Proof. reflexivity. Qed.

Lemma tokenize_loop_collapse (input : string) :
  forall toks cur,
    Spec.hasQuote input = false ->
    JS.join " " (finish (tokenize_loop
                           {| tokens := toks; current := cur; inQuote := None |} input))
    = emitted toks cur +:+ Spec.collapseFrom (reading toks cur) input.
Proof.
  induction input as [|c r IH]; intros toks cur Hq.
  - cbn [tokenize_loop Spec.collapseFrom]. rewrite append_nil_r.
    unfold finish, emitted. cbn [current tokens]. by destruct (JS.truthyStr cur).
  - cbn in Hq. apply orb_false_iff in Hq as [Hc Hr].
    cbn [tokenize_loop]. unfold tokenize_step. cbn [inQuote tokens current].
    unfold Terminal.isQuote in Hc. rewrite Hc. rewrite isBlank_eq.
    cbn [Spec.collapseFrom].
    destruct (Spec.isBlank c) eqn:Hb.
    + destruct (JS.truthyStr cur) eqn:Hcur.
      * rewrite IH by done. unfold emitted, reading. rewrite Hcur. cbn.
        by destruct toks.
      * rewrite IH by done. unfold emitted, reading. rewrite Hcur.
        by destruct toks.
    + rewrite IH by done. unfold emitted, reading.
      rewrite truthyStr_snoc.
      destruct (JS.truthyStr cur) eqn:Hcur.
      * rewrite join_snoc_grow, append_assoc. reflexivity.
      * assert (cur = EmptyString) as -> by (by destruct cur).
        destruct toks as [|t toks].
        -- reflexivity.
        -- rewrite join_snoc by done. rewrite !append_assoc. reflexivity.
Qed.

(** The shell tokenizers keep the same invariant: only a non-empty
    [current] is ever pushed. *)
Lemma shell_step_nonempty (st : Terminal.ScanState) (c : ascii) :
  Forall (λ t, t ≠ EmptyString) (Terminal.done_ st) ->
  Forall (λ t, t ≠ EmptyString) (Terminal.done_ (TerminalV0.parseCommand_step st c)).
Proof.
  intros H. unfold TerminalV0.parseCommand_step.
  repeat case_match; cbn; try done.
  apply Forall_app; split; [done|]. constructor; [|done].
  by apply truthyStr_true.
Qed.

Lemma shell_scan_nonempty (input : string) (st : Terminal.ScanState) :
  Forall (λ t, t ≠ EmptyString) (Terminal.done_ st) ->
  Forall (λ t, t ≠ EmptyString)
         (Terminal.done_ (Terminal.scan TerminalV0.parseCommand_step st input)).
Proof.
  revert st. induction input as [|c r IH]; intros st H; cbn; [done|].
  apply IH. by apply shell_step_nonempty.
Qed.

Lemma shell_parseCommand_nonempty (input : string) :
  Forall (λ t, t ≠ EmptyString) (TerminalV0.parseCommand input).
Proof.
  unfold TerminalV0.parseCommand.
  pose proof (shell_scan_nonempty input Terminal.scanStart (Forall_nil_2 _)) as H.
  destruct (JS.truthyStr _) eqn:E; [|done].
  apply Forall_app; split; [done|]. constructor; [|done].
  by apply truthyStr_true.
Qed.

(** The revision with pipes kept the tokenizer of the one before. *)
Lemma parseCommand_same (input : string) :
  Terminal.parseCommand input = TerminalV0.parseCommand input.
Proof. reflexivity. Qed.

End Tokenizers.

(** C8. For an input without quote characters, the tokens of [tokenize]
    joined by one space are the input with its white space collapsed
    (the blanks of the tokenizer: space and tab); no token is empty, and
    the empty input has no tokens. *)
Theorem tokenize_join_collapses (input : string) :
  Spec.hasQuote input = false ->
  JS.join " " (PipeParser.tokenize input) = Spec.collapseWhitespace input
  ∧ Forall (λ t, t ≠ EmptyString) (PipeParser.tokenize input)
  ∧ (input = EmptyString -> PipeParser.tokenize input = []).
Proof.
  intros Hq. split; [|split].
  - rewrite tokenize_unfold.
    rewrite (tokenize_loop_collapse input [] EmptyString Hq). reflexivity.
  - apply tokenize_nonempty.
  - by intros ->.
Qed.

Lemma tokenize_join_collapses_witness :
  Spec.hasQuote Examples.spaced_line = false
  ∧ JS.join " " (PipeParser.tokenize Examples.spaced_line) = "cat file.txt -n 5".
Proof.
  split; [reflexivity|].
  rewrite (proj1 (tokenize_join_collapses Examples.spaced_line eq_refl)).
  reflexivity.
Defined.

(** C9, as the code has it. The text made of two double quotes yields
    no token in the shell tokenizer and none in the pipeline tokenizer;
    neither of them ever returns an empty token. *)
Theorem empty_quotes_yield_no_token :
  TerminalV0.parseCommand (JS.quoted EmptyString) = []
  ∧ PipeParser.tokenize (JS.quoted EmptyString) = []
  ∧ (forall input,
       (EmptyString ∉ TerminalV0.parseCommand input)
       ∧ (EmptyString ∉ PipeParser.tokenize input)).
Proof.
  split; [reflexivity|]. split; [reflexivity|].
  intros input. split; intros Hin.
  - pose proof (shell_parseCommand_nonempty input) as H.
    rewrite Forall_forall in H. by apply (H _ Hin).
  - pose proof (tokenize_nonempty input) as H.
    rewrite Forall_forall in H. by apply (H _ Hin).
Qed.

(** C9 as stated fails: the shell tokenizer does not return one empty
    token for two double quotes. *)
Lemma empty_quotes_counterexample :
  ¬ (TerminalV0.parseCommand (JS.quoted EmptyString) = [EmptyString]
     ∧ PipeParser.tokenize (JS.quoted EmptyString) = []).
Proof. intros [H _]. vm_compute in H. discriminate H. Qed.

(** ** The pipeline parser *)

Section PipeParserFacts.
Import PipeParser.

Lemma parseSegments_all (segs : list string) :
  forall acc,
    Forall (λ seg, is_Some (parseCommand seg)) segs ->
    exists cmds,
      parseSegments segs acc = inr (acc ++ cmds)
      ∧ Forall2 (λ seg cmd, parseCommand seg = Some cmd) segs cmds.
Proof.
  induction segs as [|seg segs IH]; intros acc Hall.
  - exists []. split; [by rewrite app_nil_r | constructor].
  - apply Forall_cons in Hall as [[cmd Hcmd] Hall].
    destruct (IH (acc ++ [cmd]) Hall) as (cmds & Heq & Hcmds).
    exists (cmd :: cmds). split.
    + cbn. rewrite Hcmd, Heq. by rewrite <- app_assoc.
    + by constructor.
Qed.

Lemma truthy_absent : truthy None = false.
Proof. reflexivity. Qed.

End PipeParserFacts.

(** C3. The line [cat | grep pattern] parses to a result with the
    pipeline flag set, no commands and an error that contains
    [requires a file path]; and whenever the segments of a line all
    parse and the first of them parses to cat, read_file or grep with
    neither a [path] nor a [paths] argument, the result is that error,
    with no commands. *)
Theorem first_stage_requires_path :
  (let r := PipeParser.parsePipeCommand "cat | grep pattern" in
   PipeParser.isPipeCommand r = true
   ∧ PipeParser.commands r = []
   ∧ exists e, PipeParser.error r = Some e
               ∧ JS.includes "requires a file path" e = true)
  ∧ (forall input seg segs firstCmd,
       PipeParser.isPipeCommandSyntax (JS.trim input) = true ->
       PipeParser.splitSegments (JS.trim input) = seg :: segs ->
       PipeParser.parseCommand seg = Some firstCmd ->
       Forall (λ s, is_Some (PipeParser.parseCommand s)) segs ->
       PipeParser.requiresSource (PipeParser.tool firstCmd) = true ->
       PipeParser.args firstCmd !! "path" = None ->
       PipeParser.args firstCmd !! "paths" = None ->
       PipeParser.parsePipeCommand input =
       {| PipeParser.isPipeCommand := true;
          PipeParser.commands := [];
          PipeParser.error :=
            Some ("First command (" +:+ PipeParser.tool firstCmd
                  +:+ ") requires a file path") |}).
Proof.
  split.
  - vm_compute. repeat split. eexists. split; reflexivity.
  - intros input seg segs firstCmd Hsyn Hsegs Hfirst Hrest Hreq Hpath Hpaths.
    unfold PipeParser.parsePipeCommand.
    rewrite Hsyn, Hsegs. cbn [negb].
    destruct (parseSegments_all segs [firstCmd] Hrest) as (cmds & Heq & _).
    cbn [PipeParser.parseSegments]. rewrite Hfirst. cbn [app].
    rewrite Heq. cbn [app].
    rewrite Hreq, Hpath, Hpaths. reflexivity.
Qed.

Lemma first_stage_requires_path_witness :
  PipeParser.parsePipeCommand "grep -i needle | sort -r" =
  {| PipeParser.isPipeCommand := true;
     PipeParser.commands := [];
     PipeParser.error := Some "First command (grep) requires a file path" |}.
Proof.
  refine (proj2 first_stage_requires_path "grep -i needle | sort -r"
            "grep -i needle" ["sort -r"]
            {| PipeParser.tool := "grep";
               PipeParser.args := PipeParser.grep_parseArgs ["-i"; "needle"] |}
            _ _ _ _ _ _ _).
  - reflexivity.
  - reflexivity.
  - reflexivity.
  - repeat constructor. by eexists.
  - reflexivity.
  - reflexivity.
  - reflexivity.
Defined.

(** C4 at the failing input. In [wc -w -l] the lines flag comes second
    and yet clears the words field that [-w] had set; in [wc -l -w]
    the words flag comes second and leaves the lines field set. *)
Theorem wc_lines_flag_reclears :
  PipeParser.wc_parseArgs ["-w"; "-l"] =
    {[ "countLines" := PipeParser.VBool true;
       "countWords" := PipeParser.VBool false;
       "countChars" := PipeParser.VBool false ]}
  ∧ PipeParser.wc_parseArgs ["-l"; "-w"] =
    {[ "countLines" := PipeParser.VBool true;
       "countWords" := PipeParser.VBool true;
       "countChars" := PipeParser.VBool false ]}.
Proof. split; by vm_compute. Qed.

(** The part of C4 the code keeps: without a count flag the three
    fields stay unset, the first flag makes the selection exclusive,
    and a later words or chars flag sets its field only. *)
Lemma wc_first_flag_exclusive :
  PipeParser.wc_parseArgs [] = ∅
  ∧ PipeParser.wc_parseArgs ["-l"] =
      {[ "countLines" := PipeParser.VBool true;
         "countWords" := PipeParser.VBool false;
         "countChars" := PipeParser.VBool false ]}
  ∧ PipeParser.wc_parseArgs ["-w"] =
      {[ "countLines" := PipeParser.VBool false;
         "countWords" := PipeParser.VBool true;
         "countChars" := PipeParser.VBool false ]}
  ∧ PipeParser.wc_parseArgs ["-c"] =
      {[ "countLines" := PipeParser.VBool false;
         "countWords" := PipeParser.VBool false;
         "countChars" := PipeParser.VBool true ]}.
Proof. repeat split; by vm_compute. Qed.

Lemma wc_later_words_or_chars_keeps (result : gmap string PipeParser.Value)
    (flag field : string) :
  flag = "-w" ∨ flag = "--words" ∨ flag = "-c" ∨ flag = "--chars" ∨ flag = "-m" ->
  field ≠ (if bool_decide (flag = "-w" ∨ flag = "--words")
           then "countWords" else "countChars") ->
  (PipeParser.wc_step (result, true) flag).1 !! field = result !! field.
Proof.
  intros Hflag Hfield.
  destruct Hflag as [->|[->|[->|[->| ->]]]]; cbn in *;
    by rewrite lookup_insert_ne.
Qed.

(** C1 at the failing input. [parsePipeCommand] cuts [cat "a|b.txt"] at
    the pipe inside the quotes and reports the second half as an unknown
    command; [parsePipeChain] keeps the line as one stage. *)
Theorem parsePipeCommand_splits_inside_quotes :
  PipeParser.parsePipeCommand Examples.quoted_pipe_line =
    {| PipeParser.isPipeCommand := true;
       PipeParser.commands := [];
       PipeParser.error := Some ("Unknown command: b.txt" +:+ Terminal.char1 JS.DQ) |}
  ∧ PipeParser.splitSegments Examples.quoted_pipe_line
    = ["cat " +:+ Terminal.char1 JS.DQ +:+ "a"; "b.txt" +:+ Terminal.char1 JS.DQ]
  ∧ Terminal.parsePipeChain Examples.quoted_pipe_line = [Examples.quoted_pipe_line].
Proof. repeat split; by vm_compute. Qed.

(** ** Splitting a line into stages *)

Section PipeChain.
Import Terminal.

Lemma char1_eqb (a b : ascii) : String.eqb (char1 a) (char1 b) = Ascii.eqb a b.
Proof.
  unfold char1. cbn. by destruct (Ascii.eqb a b).
Qed.

Lemma parsePipeChain_scan (input : string) :
  forall st open,
    tracks st open ->
    length (done_ (scan parsePipeChain_step st input))
    = (length (done_ st) + Spec.unquotedPipes open input)%nat.
Proof.
  induction input as [|c r IH]; intros st open Htr.
  - cbn. lia.
  - cbn [scan Spec.unquotedPipes]. unfold parsePipeChain_step.
    destruct open as [q|]; destruct Htr as [Hin Hq]; rewrite Hin, Hq.
    + rewrite andb_false_r. cbn [negb andb]. rewrite char1_eqb, andb_true_r.
      destruct (Ascii.eqb c q) eqn:Hcq.
      * rewrite (IH _ None) by done. reflexivity.
      * rewrite andb_false_r. rewrite (IH _ (Some q)) by done. reflexivity.
    + cbn [negb]. rewrite !andb_true_r.
      destruct (isQuote c) eqn:Hqc.
      * rewrite (IH _ (Some c)) by done. reflexivity.
      * rewrite andb_false_r.
        destruct (Ascii.eqb c "|") eqn:Hp.
        -- rewrite (IH _ None) by done. cbn [done_].
           rewrite length_app. cbn. lia.
        -- rewrite (IH _ None) by done. reflexivity.
Qed.

(** [parsePipeChain] makes a stage boundary at each pipe character
    outside quotes and nowhere else: it returns as many stages as
    there are such characters, and one more when text follows the
    last of them. *)
Lemma parsePipeChain_boundaries (input : string) :
  (Spec.unquotedPipes None input <= length (parsePipeChain input))%nat
  ∧ (length (parsePipeChain input) <= S (Spec.unquotedPipes None input))%nat.
Proof.
  unfold parsePipeChain.
  pose proof (parsePipeChain_scan input scanStart None (conj eq_refl eq_refl)) as H.
  cbn [scanStart done_ length] in H.
  destruct (JS.truthyStr _); rewrite ?length_app; cbn; lia.
Qed.

Lemma parsePipeChain_quoted_pipes (input : string) :
  Spec.unquotedPipes None input = O ->
  (length (parsePipeChain input) <= 1)%nat.
Proof.
  intros H. pose proof (parsePipeChain_boundaries input). lia.
Qed.

End PipeChain.

(** ** The executor *)

Section ExecutorFacts.
Import Async Terminal.
Context {W : Type}.
Variable runCommand :
  string -> list string -> option string -> M (TerminalManager * W) CommandResult.
Variable logDebugInput : string -> list string -> option string -> bool -> list TermOp.
Variable logDebugOutput : CommandResult -> list TermOp.

Let stagesOf := runStages runCommand logDebugInput logDebugOutput.

(** One round of the loop, as an equation on the calls. *)
Lemma runStages_calls_cons cmdInput rest i stdin s :
  exists c tl,
    (stagesOf (cmdInput :: rest) i stdin s).2 = c :: tl
    ∧ inv_stdin c = stdin
    ∧ stageCall cmdInput c
    ∧ ((exists r s', inv_result c = Ok r ∧ success r = true
                     ∧ tl = (stagesOf rest (S i) (Some (output r)) s').2)
       ∨ (¬ succeeded c ∧ tl = [])).
Proof.
  unfold stagesOf. cbn [runStages].
  destruct (runCommand _ _ _ _) as [[result|message] s2] eqn:Hrun.
  - destruct (success result) eqn:Hok; cbn [negb].
    + destruct (runStages _ _ _ rest (S i) (Some (output result)) _)
        as [[exit s3] calls] eqn:Hrest.
      eexists _, _. cbn. split; [reflexivity|]. split; [reflexivity|].
      split; [by split|]. left. eexists _, _. split; [reflexivity|].
      split; [done|]. by rewrite Hrest.
    + eexists _, _. cbn. split; [reflexivity|]. split; [reflexivity|].
      split; [by split|]. right. split; [|done].
      intros (r & Hr & Hs). cbn in Hr. congruence.
  - eexists _, _. cbn. split; [reflexivity|]. split; [reflexivity|].
    split; [by split|]. right. split; [|done].
    intros (r & Hr & Hs). cbn in Hr. congruence.
Qed.




(** A call that did not succeed is the last one. *)
Lemma runStages_halt cmds :
  forall i stdin s k c,
    (stagesOf cmds i stdin s).2 !! k = Some c ->
    ¬ succeeded c ->
    length (stagesOf cmds i stdin s).2 = S k.
Proof.
  induction cmds as [|cmdInput rest IH]; intros i stdin s k c Hk Hfail.
  - by destruct k.
  - destruct (runStages_calls_cons cmdInput rest i stdin s)
      as (c0 & tl & Heq & _ & _ & Htl).
    rewrite Heq in Hk |- *.
    destruct k as [|k].
    + cbn in Hk. inversion Hk; subst.
      destruct Htl as [(r & s' & Hr & Hs & ->)|[_ ->]]; [|done].
      exfalso. apply Hfail. by exists r.
    + cbn in Hk. destruct Htl as [(r & s' & Hr & Hs & ->)|[_ ->]]; [|done].
      cbn. f_equal. by eapply IH.
Qed.



Lemma executeCommand_calls input s :
  JS.truthyStr input = true ->
  (executeCommand runCommand logDebugInput logDebugOutput input s).2
  = (stagesOf (parsePipeChain input) O None
       (onTerminal (setHistoryIndex (-1)) (onTerminal (pushHistory input) s))).2.
Proof.
  intros Hin. unfold executeCommand, stagesOf. rewrite Hin. cbn [negb].
  by destruct (runStages _ _ _ _ _ _ _) as [[[] ?] ?].
Qed.


End ExecutorFacts.

(** ** What a run writes *)

Lemma terminal_prompt (t : Terminal.TerminalManager) :
  Terminal.terminal (Terminal.prompt t)
  = Terminal.terminal t
    ++ [Terminal.Write (Screen.promptText
                          (Terminal.currentDirectory (Terminal.prompt t)))].
Proof.
  unfold Terminal.prompt, Terminal.send.
  cbn [Terminal.terminal Terminal.currentDirectory]. unfold JS.orStr.
  by destruct (Terminal.currentDirectory t).
Qed.

Lemma terminal_error_prompt (t : Terminal.TerminalManager) (message : string) :
  let final := Terminal.prompt (Terminal.send (Terminal.errorLine message) t) in
  Terminal.terminal final
  = Terminal.terminal t
    ++ [Terminal.Writeln (Screen.errorText message);
        Terminal.Write (Screen.promptText (Terminal.currentDirectory final))].
Proof.
  intros final. subst final. rewrite terminal_prompt.
  cbn [Terminal.send Terminal.terminal]. by rewrite <- app_assoc.
Qed.



(** ** The line editor *)

Lemma length_substring (s : string) :
  forall n m, String.length (substring n m s) = Nat.min m (String.length s - n).
Proof.
  induction s as [|c s IH]; intros n m.
  - destruct n, m; reflexivity.
  - destruct n as [|n].
    + destruct m as [|m]; [reflexivity|]. cbn. by rewrite IH, Nat.sub_0_r.
    + cbn. by rewrite IH.
Qed.

Lemma strlen_sliceStr_prefix (s : string) (k : Z) :
  0 <= k <= Terminal.strlen s ->
  Terminal.strlen (JS.sliceStr s 0 (Some k)) = k.
Proof.
  unfold Terminal.strlen, JS.sliceStr, JS.relIndex. intros Hk.
  rewrite length_substring.
  destruct (0 <? 0) eqn:H0; [lia|].
  destruct (k <? 0) eqn:H1; [lia|].
  lia.
Qed.

Lemma strlen_sliceStr_suffix (s : string) (k : Z) :
  0 <= k <= Terminal.strlen s ->
  Terminal.strlen (JS.sliceStr s k None) = Terminal.strlen s - k.
Proof.
  unfold Terminal.strlen, JS.sliceStr, JS.relIndex. intros Hk.
  rewrite length_substring.
  destruct (k <? 0) eqn:H1; [lia|].
  lia.
Qed.

Lemma strlen_append (s t : string) :
  Terminal.strlen (s +:+ t) = Terminal.strlen s + Terminal.strlen t.
Proof. unfold Terminal.strlen. rewrite length_append. lia. Qed.

Lemma leStr_space_nonempty (data : string) :
  JS.leStr " " data = true -> 1 <= Terminal.strlen data.
Proof. destruct data; [done|]. unfold Terminal.strlen. cbn. lia. Qed.

Section EditorFacts.
Import Async Terminal.
Context {W : Type}.
Variable runCommand :
  string -> list string -> option string -> M (TerminalManager * W) CommandResult.
Variable logDebugInput : string -> list string -> option string -> bool -> list TermOp.
Variable logDebugOutput : CommandResult -> list TermOp.

Let handle := handleInput runCommand logDebugInput logDebugOutput.

Lemma handleInput_cursorInLine (data : string) (s : TerminalManager * W) :
  Editor.cursorInLine s.1 -> Editor.cursorInLine (handle data s).1.
Proof.
  destruct s as [t w]. unfold Editor.cursorInLine. cbn [fst]. intros Hinv.
  unfold handle, handleInput. cbn [fst].
  repeat case_match;
    repeat match goal with
           | H : (_ <? _) = true |- _ => apply Z.ltb_lt in H
           | H : (_ <? _) = false |- _ => apply Z.ltb_ge in H
           | H : (_ && _) = true |- _ => apply andb_true_iff in H as [? ?]
           end;
    cbn; try lia;
    rewrite ?strlen_append, ?strlen_sliceStr_prefix, ?strlen_sliceStr_suffix by lia;
    try match goal with
        | H : JS.leStr " " data = true |- _ => apply leStr_space_nonempty in H
        end;
    unfold strlen in *; cbn [String.length]; lia.
Qed.

Lemma handleInputs_cursorInLine (events : list string) :
  forall s : TerminalManager * W,
    Editor.cursorInLine s.1 ->
    Editor.cursorInLine
      (handleInputs runCommand logDebugInput logDebugOutput events s).1.
Proof.
  induction events as [|data events IH]; intros s Hinv; [done|].
  cbn. apply IH. by apply handleInput_cursorInLine.
Qed.

Lemma left_at_start (s : TerminalManager * W) :
  cursorPosition s.1 = 0 -> handle LEFT s = s.
Proof.
  intros Hc. unfold handle, handleInput.
  change (String.eqb LEFT ENTER) with false.
  change (String.eqb LEFT BACKSPACE) with false.
  change (String.eqb LEFT UP) with false.
  change (String.eqb LEFT DOWN) with false.
  change (String.eqb LEFT RIGHT) with false.
  change (String.eqb LEFT LEFT) with true.
  cbv iota. by rewrite Hc.
Qed.

Lemma right_at_end (s : TerminalManager * W) :
  cursorPosition s.1 = strlen (currentLine s.1) -> handle RIGHT s = s.
Proof.
  intros Hc. unfold handle, handleInput.
  change (String.eqb RIGHT ENTER) with false.
  change (String.eqb RIGHT BACKSPACE) with false.
  change (String.eqb RIGHT UP) with false.
  change (String.eqb RIGHT DOWN) with false.
  change (String.eqb RIGHT RIGHT) with true.
  cbv iota. rewrite Hc. by rewrite Z.ltb_irrefl.
Qed.

End EditorFacts.

(** C10. Every input event keeps [0 <= cursorPosition <=
    currentLine.length], so the bound holds after any sequence of events
    from a state that has it (the initial state does); the left arrow at
    cursor 0 and the right arrow at the end of the line change nothing,
    the terminal included. *)
Theorem cursor_stays_in_line {W : Type}
    (runCommand : string -> list string -> option string ->
                  Async.M (Terminal.TerminalManager * W) Terminal.CommandResult)
    (logDebugInput : string -> list string -> option string -> bool
                     -> list Terminal.TermOp)
    (logDebugOutput : Terminal.CommandResult -> list Terminal.TermOp)
    (s : Terminal.TerminalManager * W) :
  Editor.cursorInLine s.1 ->
  (forall data,
     Editor.cursorInLine
       (Terminal.handleInput runCommand logDebugInput logDebugOutput data s).1)
  ∧ (forall events,
       Editor.cursorInLine
         (Terminal.handleInputs runCommand logDebugInput logDebugOutput events s).1)
  ∧ (Terminal.cursorPosition s.1 = 0 ->
     Terminal.handleInput runCommand logDebugInput logDebugOutput Terminal.LEFT s = s)
  ∧ (Terminal.cursorPosition s.1 = Terminal.strlen (Terminal.currentLine s.1) ->
     Terminal.handleInput runCommand logDebugInput logDebugOutput Terminal.RIGHT s = s).
Proof.
  intros Hinv. split; [|split; [|split]].
  - intros data. by apply handleInput_cursorInLine.
  - intros events. by apply handleInputs_cursorInLine.
  - apply left_at_start.
  - apply right_at_end.
Qed.

Lemma initial_cursorInLine : Editor.cursorInLine Terminal.initial.
Proof. unfold Editor.cursorInLine, Terminal.strlen. cbn. lia. Qed.

Lemma cursor_stays_in_line_witness :
  let s := Terminal.handleInputs Examples.runCommand Examples.noDebugInput
             Examples.noDebugOutput
             ["a"; "b"; "c"; Terminal.LEFT; Terminal.LEFT; "X"] Examples.session in
  Terminal.currentLine s.1 = "aXbc"
  ∧ Terminal.cursorPosition s.1 = 2
  ∧ Editor.cursorInLine s.1.
Proof.
  split; [reflexivity|]. split; [reflexivity|].
  exact (proj1 (proj2 (cursor_stays_in_line Examples.runCommand Examples.noDebugInput
                         Examples.noDebugOutput Examples.session initial_cursorInLine))
           ["a"; "b"; "c"; Terminal.LEFT; Terminal.LEFT; "X"]).
Defined.

(** ** head and tail *)

Lemma slice_head_nonneg {A} (l : list A) (n : Z) :
  0 <= n -> JS.slice l 0 (Some n) = take (Z.to_nat n) l.
Proof.
  intros Hn. unfold JS.slice, JS.relIndex.
  destruct (0 <? 0) eqn:H0; [lia|].
  destruct (n <? 0) eqn:H1; [lia|].
  rewrite (Z.min_l 0) by lia. change (drop (Z.to_nat 0) l) with l.
  destruct (Z.le_ge_cases n (Z.of_nat (length l))).
  - rewrite Z.min_l by lia. f_equal. lia.
  - rewrite Z.min_r by lia.
    rewrite (take_ge l (Z.to_nat n)) by lia. apply take_ge. lia.
Qed.

Lemma slice_head_neg {A} (l : list A) (n : Z) :
  n < 0 -> JS.slice l 0 (Some n) = take (length l - Z.to_nat (- n)) l.
Proof.
  intros Hn. unfold JS.slice, JS.relIndex.
  destruct (0 <? 0) eqn:H0; [lia|].
  destruct (n <? 0) eqn:H1; [|lia].
  rewrite (Z.min_l 0) by lia. change (drop (Z.to_nat 0) l) with l.
  f_equal. lia.
Qed.

Lemma slice_tail_pos {A} (l : list A) (n : Z) :
  0 < n -> JS.slice l (- n) None = drop (length l - Z.to_nat n) l.
Proof.
  intros Hn. unfold JS.slice, JS.relIndex.
  destruct (- n <? 0) eqn:H1; [|lia].
  rewrite take_ge.
  - f_equal. lia.
  - rewrite length_drop. lia.
Qed.

Lemma slice_tail_nonpos {A} (l : list A) (n : Z) :
  n <= 0 -> JS.slice l (- n) None = drop (Z.to_nat (- n)) l.
Proof.
  intros Hn. unfold JS.slice, JS.relIndex.
  destruct (- n <? 0) eqn:H1; [lia|].
  destruct (Z.le_ge_cases (- n) (Z.of_nat (length l))).
  - rewrite Z.min_l by lia. rewrite take_ge; [done|]. rewrite length_drop. lia.
  - rewrite Z.min_r by lia. rewrite Nat2Z.id.
    rewrite take_ge by (rewrite length_drop; lia).
    rewrite !drop_ge; [done|lia|lia].
Qed.

Lemma slice_headOf (count : Z) (content : string) :
  JS.join (Terminal.char1 Terminal.LF)
    (JS.slice (JS.split Terminal.LF content) 0 (Some count))
  = Spec.headOf count content.
Proof.
  unfold Spec.headOf. destruct (0 <=? count) eqn:H.
  - by rewrite slice_head_nonneg by lia.
  - by rewrite slice_head_neg by lia.
Qed.

Lemma slice_tailOf (count : Z) (content : string) :
  JS.join (Terminal.char1 Terminal.LF)
    (JS.slice (JS.split Terminal.LF content) (- count) None)
  = Spec.tailOf count content.
Proof.
  unfold Spec.tailOf. destruct (0 <? count) eqn:H.
  - by rewrite slice_tail_pos by lia.
  - by rewrite slice_tail_nonpos by lia.
Qed.

Section HeadTail.
Import Async Terminal.
Context {W : Type}.
Variable readFile : string -> M W string.
Variable engine : RegExp.Engine.
Variable otherVerbs :
  string -> option (list string -> option string -> M (TerminalManager * W) CommandResult).

Let run := runCommand readFile engine otherVerbs.

Lemma runCommand_head a stdin :
  run "head" a stdin
  = onStore (fun t => cmdHead readFile t (a !! 0%nat) (lineCount a) stdin).
Proof. reflexivity. Qed.

Lemma runCommand_tail a stdin :
  run "tail" a stdin
  = onStore (fun t => cmdTail readFile t (a !! 0%nat) (lineCount a) stdin).
Proof. reflexivity. Qed.

Lemma parseInt_empty : JS.parseInt EmptyString None = JS.NaN.
Proof. reflexivity. Qed.

Lemma orStr_truthy (x d : string) :
  JS.truthyStr x = true -> JS.orStr (Some x) d = x.
Proof. intros H. unfold JS.orStr. by rewrite H. Qed.

Lemma lineCount_absent a : a !! 1%nat = None -> lineCount a = 10.
Proof. intros H. unfold lineCount. by rewrite H. Qed.

Lemma lineCount_supplied a x :
  a !! 1%nat = Some x ->
  lineCount a = match JS.parseInt x None with
                | JS.NaN => 10
                | JS.Int n => if n =? 0 then 10 else n
                end.
Proof.
  intros H. unfold lineCount. rewrite H.
  destruct x as [|c x]; [reflexivity|]. reflexivity.
Qed.

Lemma cmdHead_direct t w w' p content lines :
  JS.truthyStr p = true ->
  readFile (resolvePath t p) w = (Ok content, w') ->
  cmdHead readFile t (Some p) lines None w
  = (Ok (ok (Spec.headOf lines content)), w').
Proof.
  intros Hp Hread. unfold cmdHead, bind. cbn [JS.truthyOpt negb].
  rewrite Hp. cbn [negb]. rewrite (orStr_truthy _ _ Hp), Hread.
  unfold ret. by rewrite slice_headOf.
Qed.

Lemma cmdTail_direct t w w' p content lines :
  JS.truthyStr p = true ->
  readFile (resolvePath t p) w = (Ok content, w') ->
  cmdTail readFile t (Some p) lines None w
  = (Ok (ok (Spec.tailOf lines content)), w').
Proof.
  intros Hp Hread. unfold cmdTail, bind. cbn [JS.truthyOpt negb].
  rewrite Hp. cbn [negb]. rewrite (orStr_truthy _ _ Hp), Hread.
  unfold ret. by rewrite slice_tailOf.
Qed.

Lemma cmdHead_piped t w p lines input :
  cmdHead readFile t p lines (Some input) w
  = (Ok (ok (Spec.headOf (pipedCount p lines) input)), w).
Proof.
  unfold cmdHead, bind, ret, pipedCount. by rewrite slice_headOf.
Qed.

Lemma cmdTail_piped t w p lines input :
  cmdTail readFile t p lines (Some input) w
  = (Ok (ok (Spec.tailOf (pipedCount p lines) input)), w).
Proof.
  unfold cmdTail, bind, ret, pipedCount. by rewrite slice_tailOf.
Qed.

Lemma pipedCount_numeric p n lines :
  JS.parseInt p None = JS.Int n -> pipedCount (Some p) lines = n.
Proof.
  intros H. unfold pipedCount. destruct p as [|c p]; [discriminate H|].
  cbn [JS.truthyOpt JS.truthyStr JS.orStr]. by rewrite H.
Qed.

End HeadTail.

(** C6, as the code has it. For head and tail the count is 10 when none
    is supplied and when the supplied one is not numeric or is zero; any
    other supplied count is used as it is, a negative one included (head
    then drops that many lines from the end, tail from the start).  Read
    from a file, head and tail print by that count.  On piped input a
    numeric first argument is the count, whatever its sign and zero
    included; without an argument they print the first and the last 10
    lines of the input, and with a first argument that is not numeric
    they print by the count above. *)
Theorem head_tail_count {W : Type}
    (readFile : string -> Async.M W string) (engine : RegExp.Engine)
    (otherVerbs : string -> option (list string -> option string ->
                    Async.M (Terminal.TerminalManager * W) Terminal.CommandResult))
    (t : Terminal.TerminalManager) (w : W) (a : list string) :
  let run := Terminal.runCommand readFile engine otherVerbs in
  let count := Terminal.lineCount a in
  (a !! 1%nat = None -> count = 10)
  ∧ (forall x, a !! 1%nat = Some x -> JS.parseInt x None = JS.NaN -> count = 10)
  ∧ (forall x, a !! 1%nat = Some x -> JS.parseInt x None = JS.Int 0 -> count = 10)
  ∧ (forall x n, a !! 1%nat = Some x -> JS.parseInt x None = JS.Int n -> n ≠ 0 ->
       count = n)
  ∧ (forall p content w',
       a !! 0%nat = Some p -> p ≠ EmptyString ->
       readFile (Terminal.resolvePath t p) w = (Async.Ok content, w') ->
       run "head" a None (t, w)
       = (Async.Ok (Terminal.ok (Spec.headOf count content)), (t, w'))
       ∧ run "tail" a None (t, w)
         = (Async.Ok (Terminal.ok (Spec.tailOf count content)), (t, w')))
  ∧ (forall p n input,
       a !! 0%nat = Some p -> JS.parseInt p None = JS.Int n ->
       run "head" a (Some input) (t, w)
       = (Async.Ok (Terminal.ok (Spec.headOf n input)), (t, w))
       ∧ run "tail" a (Some input) (t, w)
         = (Async.Ok (Terminal.ok (Spec.tailOf n input)), (t, w)))
  ∧ (forall input,
       a !! 0%nat = None ->
       run "head" a (Some input) (t, w)
       = (Async.Ok (Terminal.ok (Spec.headOf 10 input)), (t, w))
       ∧ run "tail" a (Some input) (t, w)
         = (Async.Ok (Terminal.ok (Spec.tailOf 10 input)), (t, w)))
  ∧ (forall p input,
       a !! 0%nat = Some p -> JS.parseInt p None = JS.NaN ->
       run "head" a (Some input) (t, w)
       = (Async.Ok (Terminal.ok (Spec.headOf count input)), (t, w))
       ∧ run "tail" a (Some input) (t, w)
         = (Async.Ok (Terminal.ok (Spec.tailOf count input)), (t, w))).
Proof.
  intros run count. subst run count.
  split; [|split; [|split; [|split; [|split; [|split; [|split]]]]]].
  - apply lineCount_absent.
  - intros x Hx Hnan. by rewrite (lineCount_supplied _ _ Hx), Hnan.
  - intros x Hx Hz. by rewrite (lineCount_supplied _ _ Hx), Hz.
  - intros x n Hx Hn Hne. rewrite (lineCount_supplied _ _ Hx), Hn.
    destruct (n =? 0) eqn:E; [lia|done].
  - intros p content w' Hp Hne Hread.
    apply truthyStr_true in Hne.
    rewrite runCommand_head, runCommand_tail. unfold Terminal.onStore. rewrite Hp.
    by rewrite (cmdHead_direct _ _ _ _ _ _ _ Hne Hread),
               (cmdTail_direct _ _ _ _ _ _ _ Hne Hread).
  - intros p n input Hp Hn.
    rewrite runCommand_head, runCommand_tail. unfold Terminal.onStore. rewrite Hp.
    rewrite cmdHead_piped, cmdTail_piped.
    by rewrite (pipedCount_numeric _ _ _ Hn).
  - intros input Hnone.
    rewrite runCommand_head, runCommand_tail. unfold Terminal.onStore. rewrite Hnone.
    rewrite cmdHead_piped, cmdTail_piped.
    by destruct a.
  - intros p input Hp Hnan.
    rewrite runCommand_head, runCommand_tail. unfold Terminal.onStore. rewrite Hp.
    rewrite cmdHead_piped, cmdTail_piped.
    unfold pipedCount. cbn [JS.truthyOpt JS.orStr].
    destruct (JS.truthyStr p); [|done]. by rewrite Hnan.
Qed.

Lemma head_tail_count_witness :
  let twelve := ["1"; "2"; "3"; "4"; "5"; "6"; "7"; "8"; "9"; "10"; "11"; "12"] in
  Terminal.lineCount ["notes.txt"; "-2"] = -2
  ∧ (Examples.runCommand "head" ["notes.txt"; "0"] None Examples.session).1
    = Async.Ok (Terminal.ok (Spec.headOf 10 (Examples.lines ["one"; "two"; "three"])))
  ∧ (Examples.runCommand "head" [] (Some (Examples.lines twelve)) Examples.session).1
    = Async.Ok (Terminal.ok (Examples.lines
                               ["1"; "2"; "3"; "4"; "5"; "6"; "7"; "8"; "9"; "10"]))
  ∧ (Examples.runCommand "tail" ["x"] (Some (Examples.lines twelve)) Examples.session).1
    = Async.Ok (Terminal.ok (Examples.lines
                               ["3"; "4"; "5"; "6"; "7"; "8"; "9"; "10"; "11"; "12"])).
Proof.
  intros twelve.
  pose proof (head_tail_count Examples.readFile RegExp.literalEngine
                Examples.noOtherVerbs Examples.session.1 Examples.session.2)
    as H.
  split; [|split; [|split]].
  3:{ destruct (H []) as (_ & _ & _ & _ & _ & _ & Hnone & _).
      destruct (Hnone (Examples.lines twelve) eq_refl) as [Hhead _].
      change (Examples.session.1, Examples.session.2) with Examples.session in Hhead.
      unfold Examples.runCommand. rewrite Hhead. by vm_compute. }
  3:{ destruct (H ["x"]) as (Habsent & _ & _ & _ & _ & _ & _ & Hword).
      destruct (Hword "x" (Examples.lines twelve) eq_refl eq_refl) as [_ Htail].
      change (Examples.session.1, Examples.session.2) with Examples.session in Htail.
      unfold Examples.runCommand. rewrite Htail, (Habsent eq_refl). by vm_compute. }
  - destruct (H ["notes.txt"; "-2"]) as (_ & _ & _ & Hneg & _).
    by apply (Hneg "-2").
  - destruct (H ["notes.txt"; "0"]) as (_ & _ & Hzero & _ & Hdirect & _).
    destruct (Hdirect "notes.txt" (Examples.lines ["one"; "two"; "three"])
                (Examples.runCommand "head" ["notes.txt"; "0"] None
                   Examples.session).2.2) as [Hhead _].
    + reflexivity.
    + done.
    + by vm_compute.
    + rewrite (Hzero "0" eq_refl eq_refl) in Hhead.
      change (Examples.session.1, Examples.session.2) with Examples.session in Hhead.
      unfold Examples.runCommand. by rewrite Hhead.
Defined.

(** C6 as stated fails: supplied to head as the count, the non-positive
    [-2] is not replaced by 10; of the three lines of the file head
    prints the first one, and tail the last one. *)
Lemma head_negative_count_counterexample :
  JS.parseInt "-2" None = JS.Int (-2)
  ∧ Terminal.lineCount ["notes.txt"; "-2"] ≠ 10
  ∧ (Examples.runCommand "head" ["notes.txt"; "-2"] None Examples.session).1
    = Async.Ok (Terminal.ok "one")
  ∧ (Examples.runCommand "head" ["notes.txt"; "-2"] None Examples.session).1
    ≠ Async.Ok (Terminal.ok (Spec.headOf 10 (Examples.lines ["one"; "two"; "three"])))
  ∧ (Examples.runCommand "tail" ["notes.txt"; "-2"] None Examples.session).1
    = Async.Ok (Terminal.ok "three").
Proof.
  split; [reflexivity|]. split; [by vm_compute|]. split; [by vm_compute|].
  split; [by vm_compute|]. by vm_compute.
Qed.

(** On piped input the count zero is used as well: [head 0] prints
    nothing and [tail 0] prints everything. *)
Lemma head_zero_on_piped_input :
  (Examples.runCommand "head" ["0"] (Some (Examples.lines ["one"; "two"])) 
     Examples.session).1 = Async.Ok (Terminal.ok EmptyString)
  ∧ (Examples.runCommand "tail" ["0"] (Some (Examples.lines ["one"; "two"]))
       Examples.session).1 = Async.Ok (Terminal.ok (Examples.lines ["one"; "two"])).
Proof. split; by vm_compute. Qed.

(** ** Moving a file *)

Section Rename.
Import Async OPFS.
Context {W H : Type} `{API : FileSystemAPI W H}.

Lemma renameFile_partial_failure (oldPath newPath content message : string)
    (entry : OPFSEntry) (fs fs1 fs2 fs3 : OPFSFileSystem W H) :
  readFile oldPath fs = (Ok content, fs1) ->
  createFile newPath content fs1 = (Ok entry, fs2) ->
  deleteFile oldPath fs2 = (Throw message, fs3) ->
  renameFile oldPath newPath fs
  = (Throw (renameError oldPath message), (deleteFile newPath fs3).2).
Proof.
  intros Hread Hcreate Hdelete.
  unfold renameFile, bind, tryCatch. rewrite Hread, Hcreate, Hdelete.
  by destruct (deleteFile newPath fs3) as [[[]|rollbackError] fs4].
Qed.

Lemma renameFile_success (oldPath newPath content : string)
    (entry : OPFSEntry) (fs fs1 fs2 fs3 : OPFSFileSystem W H) :
  readFile oldPath fs = (Ok content, fs1) ->
  createFile newPath content fs1 = (Ok entry, fs2) ->
  deleteFile oldPath fs2 = (Ok tt, fs3) ->
  renameFile oldPath newPath fs = (Ok tt, fs3).
Proof.
  intros Hread Hcreate Hdelete.
  unfold renameFile, bind, tryCatch. by rewrite Hread, Hcreate, Hdelete.
Qed.

End Rename.

(** ** grep *)

Section Grep.
Import Async Terminal.

Lemma filterTest_sublist {A} (m : RegExp.Matcher) (key : A -> string) (l : list A) :
  forall lastIndex, RegExp.filterTest m key lastIndex l `sublist_of` l.
Proof.
  induction l as [|x l IH]; intros lastIndex; cbn; [constructor|].
  destruct (RegExp.test m lastIndex (key x)) as [[] lastIndex'].
  - by constructor.
  - by constructor.
Qed.

Lemma test_true_matched (m : RegExp.Matcher) (lastIndex : nat) (line : string) :
  (RegExp.test m lastIndex line).1 = true -> Spec.matched m line.
Proof.
  unfold RegExp.test. destruct (_ <? _)%nat; [done|].
  destruct (m line lastIndex) as [[i e]|] eqn:Hm; [|done].
  intros _. exists lastIndex. by rewrite Hm.
Qed.

Lemma filterTest_matched {A} (m : RegExp.Matcher) (key : A -> string) (l : list A) :
  forall lastIndex,
    Forall (λ x, Spec.matched m (key x)) (RegExp.filterTest m key lastIndex l).
Proof.
  induction l as [|x l IH]; intros lastIndex; cbn; [constructor|].
  destruct (RegExp.test m lastIndex (key x)) as [b lastIndex'] eqn:Ht.
  destruct b; [|done]. constructor; [|done].
  apply (test_true_matched m lastIndex). by rewrite Ht.
Qed.

(** With [lastIndex] at 0, as it is at the first line and after every
    line that did not match, a line with a match is kept. *)
Lemma filterTest_keeps_at_zero {A} (m : RegExp.Matcher) (key : A -> string)
    (x : A) (l : list A) :
  is_Some (m (key x) O) ->
  exists lastIndex, RegExp.filterTest m key O (x :: l)
                    = x :: RegExp.filterTest m key lastIndex l.
Proof.
  intros [[i e] Hm]. cbn. unfold RegExp.test. rewrite Hm.
  destruct (String.length (key x) <? 0)%nat eqn:E.
  - apply Nat.ltb_lt in E. lia.
  - by eexists.
Qed.

Lemma withNumbers_elem (lines : list string) (line : string) (num : nat) :
  (line, num) ∈ TerminalV0.withNumbers lines ->
  exists i, num = S i ∧ lines !! i = Some line.
Proof.
  unfold TerminalV0.withNumbers. intros Hin.
  apply elem_of_lookup_imap in Hin as (i & x & Heq & Hx).
  inversion Heq; subst. by exists i.
Qed.

Context {W : Type}.
Variable readFile : string -> M W string.
Variable engine : RegExp.Engine.

Lemma cmdGrep_success t pattern p stdin w w' r :
  cmdGrep readFile engine t pattern p stdin w = (Ok r, w') ->
  success r = true ->
  exists m content,
    engine (JS.orStr pattern EmptyString) "gi" = Some m
    ∧ grepText readFile t p stdin w w' content
    ∧ output r = JS.join (char1 LF) (grepMatches m content).
Proof.
  unfold cmdGrep. destruct (JS.truthyOpt pattern); cbn [negb].
  2:{ unfold ret. intros [= <- <-]. done. }
  unfold bind. destruct stdin as [input|].
  - unfold ret at 1.
    destruct (engine _ _) as [m|] eqn:Hm; [|done].
    intros Hr Hs. exists m, input.
    destruct (grepMatches m input) eqn:Hmatches.
    + unfold ret in Hr. by inversion Hr.
    + unfold ret in Hr. by inversion Hr.
  - destruct (JS.truthyOpt p); cbn [negb].
    2:{ unfold ret. intros [= <- <-]. done. }
    destruct (readFile _ w) as [[content|message] w1] eqn:Hread; [|done].
    unfold ret at 1.
    destruct (engine _ _) as [m|] eqn:Hm; [|done].
    intros Hr Hs. exists m, content.
    destruct (grepMatches m content) eqn:Hmatches.
    + unfold ret in Hr. inversion Hr; subst.
      split; [done|]. split; [exact Hread|done].
    + unfold ret in Hr. inversion Hr; subst.
      split; [done|]. split; [exact Hread|done].
Qed.

Lemma cmdGrepV0_success t pattern p w w' r :
  TerminalV0.cmdGrep readFile engine t pattern p w = (Ok r, w') ->
  success r = true ->
  exists m content,
    engine (JS.orStr pattern EmptyString) "gi" = Some m
    ∧ readFile (resolvePath t (JS.orStr p EmptyString)) w = (Ok content, w')
    ∧ output r =
        match TerminalV0.grepMatches m content with
        | [] => CSI +:+ "2m(no matches)" +:+ CSI +:+ "0m"
        | matches => JS.join (char1 LF) matches
        end.
Proof.
  unfold TerminalV0.cmdGrep.
  destruct (negb (JS.truthyOpt pattern) || negb (JS.truthyOpt p)).
  { unfold ret. intros [= <- <-]. done. }
  unfold bind.
  destruct (readFile _ w) as [[content|message] w1] eqn:Hread; [|done].
  destruct (engine _ _) as [m|] eqn:Hm; [|done].
  intros Hr Hs. exists m, content.
  destruct (TerminalV0.grepMatches m content) eqn:Hmatches.
  - unfold ret in Hr. by inversion Hr; subst.
  - unfold ret in Hr. by inversion Hr; subst.
Qed.

End Grep.

Lemma numbered_hasLineNumber (num : nat) (highlighted : string) :
  Spec.hasLineNumber num (TerminalV0.numbered num highlighted).
Proof.
  exists (Terminal.CSI +:+ "0m " +:+ highlighted). right.
  reflexivity.
Qed.

(** C5, as the code has it. A successful grep prints lines of its
    input that the pattern, compiled with the flags [gi], matches: they
    come in input order, each at most once, with the matches
    highlighted.  The handler of the revision with pipes prints them
    without a line number, whether the text is piped in or read from the
    path; the handler of the revision before prints each after its
    1-based line number and a colon. *)
Theorem grep_emits_matching_lines {W : Type}
    (readFile : string -> Async.M W string) (engine : RegExp.Engine)
    (t : Terminal.TerminalManager) (pattern p : option string) (w w' : W)
    (r : Terminal.CommandResult) :
  (forall stdin,
     Terminal.cmdGrep readFile engine t pattern p stdin w = (Async.Ok r, w') ->
     Terminal.success r = true ->
     exists m content kept,
       engine (JS.orStr pattern EmptyString) "gi" = Some m
       ∧ grepText readFile t p stdin w w' content
       ∧ kept `sublist_of` JS.split Terminal.LF content
       ∧ Forall (Spec.matched m) kept
       ∧ Terminal.output r =
           JS.join (Terminal.char1 Terminal.LF)
             (map (fun line => RegExp.replace m line Terminal.highlight) kept))
  ∧ (TerminalV0.cmdGrep readFile engine t pattern p w = (Async.Ok r, w') ->
     Terminal.success r = true ->
     exists m content kept,
       engine (JS.orStr pattern EmptyString) "gi" = Some m
       ∧ readFile (Terminal.resolvePath t (JS.orStr p EmptyString)) w
         = (Async.Ok content, w')
       ∧ kept `sublist_of` TerminalV0.withNumbers (JS.split Terminal.LF content)
       ∧ Forall (fun '(line, num) =>
                   Spec.matched m line
                   ∧ exists i, num = S i ∧ JS.split Terminal.LF content !! i = Some line)
                kept
       ∧ Terminal.output r =
           match kept with
           | [] => Terminal.CSI +:+ "2m(no matches)" +:+ Terminal.CSI +:+ "0m"
           | _ =>
               JS.join (Terminal.char1 Terminal.LF)
                 (map (fun '(line, num) =>
                         TerminalV0.numbered num
                           (RegExp.replace m line Terminal.highlight)) kept)
           end).
Proof.
  split.
  - intros stdin Hrun Hok.
    destruct (cmdGrep_success _ _ _ _ _ _ _ _ _ Hrun Hok) as (m & content & Hm & Htext & Hout).
    exists m, content, (RegExp.filterTest m id O (JS.split Terminal.LF content)).
    split; [done|]. split; [done|].
    split; [apply filterTest_sublist|].
    split; [apply (filterTest_matched m id)|done].
  - intros Hrun Hok.
    destruct (cmdGrepV0_success _ _ _ _ _ _ _ _ Hrun Hok) as (m & content & Hm & Hread & Hout).
    exists m, content,
      (RegExp.filterTest m fst O (TerminalV0.withNumbers (JS.split Terminal.LF content))).
    split; [done|]. split; [done|].
    split; [apply filterTest_sublist|]. split.
    + pose proof (filterTest_matched m fst
                    (TerminalV0.withNumbers (JS.split Terminal.LF content)) O) as Hall.
      pose proof (filterTest_sublist m fst
                    (TerminalV0.withNumbers (JS.split Terminal.LF content)) O) as Hsub.
      rewrite Forall_forall in Hall. apply Forall_forall.
      intros [line num] Hin. split; [by apply (Hall (line, num))|].
      apply withNumbers_elem. by eapply elem_of_sublist.
    + rewrite Hout. unfold TerminalV0.grepMatches.
      by destruct (RegExp.filterTest m fst O _).
Qed.

Lemma grep_emits_matching_lines_witness :
  exists m content kept,
    RegExp.literalEngine "TWO" "gi" = Some m
    ∧ grepText Examples.readFile Examples.session.1 (Some "notes.txt") None
        Examples.session.2
        (Terminal.cmdGrep Examples.readFile RegExp.literalEngine Examples.session.1
           (Some "TWO") (Some "notes.txt") None Examples.session.2).2
        content
    ∧ kept `sublist_of` JS.split Terminal.LF content
    ∧ Forall (Spec.matched m) kept
    ∧ JS.join (Terminal.char1 Terminal.LF) [Terminal.highlight "two"] =
        JS.join (Terminal.char1 Terminal.LF)
          (map (fun line => RegExp.replace m line Terminal.highlight) kept).
Proof.
  refine (proj1 (grep_emits_matching_lines Examples.readFile RegExp.literalEngine
                   Examples.session.1 (Some "TWO") (Some "notes.txt")
                   Examples.session.2 _
                   (Terminal.ok (Terminal.highlight "two"))) None _ _).
  - by vm_compute.
  - reflexivity.
Defined.

(** C5 as stated fails. Without stdin the handler of the revision with
    pipes prints the matching line with no line number.  And in either
    revision the expression object keeps its [lastIndex] from line to
    line: after the match in [ba] the line [a], which matches, is not
    printed. *)
Lemma grep_direct_mode_counterexample :
  (exists printed,
     (Terminal.cmdGrep Examples.readFile RegExp.literalEngine Examples.session.1
        (Some "one") (Some "notes.txt") None Examples.session.2).1
     = Async.Ok (Terminal.ok printed)
     ∧ printed = Terminal.highlight "one"
     ∧ ¬ Spec.hasLineNumber 1 printed)
  ∧ (exists m,
       RegExp.literalEngine "a" "gi" = Some m
       ∧ is_Some (m "ba" O) ∧ is_Some (m "a" O)
       ∧ (Terminal.cmdGrep Examples.readFile RegExp.literalEngine Examples.session.1
            (Some "a") None (Some (Examples.lines ["ba"; "a"])) Examples.session.2).1
         = Async.Ok (Terminal.ok ("b" +:+ Terminal.highlight "a"))
       ∧ (TerminalV0.cmdGrep Examples.readFile RegExp.literalEngine Examples.session.1
            (Some "a") (Some "log.txt") Examples.session.2).1
         = Async.Ok (Terminal.ok (TerminalV0.numbered 1 ("b" +:+ Terminal.highlight "a")))).
Proof.
  split.
  - eexists. split; [by vm_compute|]. split; [by vm_compute|].
    intros [rest [H|H]]; vm_compute in H; discriminate H.
  - eexists. split; [reflexivity|].
    split; [vm_compute; by eexists|]. split; [vm_compute; by eexists|].
    split; by vm_compute.
Qed.

(** On the in-memory browser, for file names at the root: when the
    source cannot be removed, the move fails with the error of that
    delete, the copy is removed again and the source keeps its text. *)
Lemma mem_rename_rollback (w : OPFS.MemFS) (old new content : string) :
  OPFS.pathParts old = [old] -> OPFS.pathParts new = [new] -> old ≠ new ->
  OPFS.files w !! old = Some content ->
  old ∈ OPFS.locked w -> new ∉ OPFS.locked w -> new ∉ OPFS.dirs w ->
  let fs := OPFS.fresh (H := string) w in
  (OPFS.renameFile old new fs).1
  = Async.Throw (OPFS.renameError old "NoModificationAllowedError")
  ∧ OPFS.files (OPFS.browser (OPFS.renameFile old new fs).2) !! new = None
  ∧ OPFS.files (OPFS.browser (OPFS.renameFile old new fs).2) !! old = Some content.
Proof.
  intros Hold Hnew Hne Hfile Hlock Hfree Hnodir fs. subst fs.
  unfold OPFS.renameFile, OPFS.readFile, OPFS.createFile, OPFS.deleteFile,
    OPFS.getFileHandleByPath, OPFS.ensureInitialized, OPFS.init, OPFS.root,
    OPFS.call, OPFS.setCache, Async.bind, Async.tryCatch, Async.get,
    Async.modify, Async.ret, Async.throw, OPFS.fresh.
  cbn -[OPFS.pathParts]. rewrite Hold, Hnew. cbn.
  unfold OPFS.mem_getFileHandle, OPFS.mem_getFileText, OPFS.mem_writeContent,
    OPFS.mem_removeEntry, OPFS.child.
  cbn.
  rewrite (bool_decide_eq_true_2 (is_Some (OPFS.files w !! old)))
    by (by rewrite Hfile).
  cbn. rewrite Hfile. cbn.
  destruct (OPFS.files w !! new) as [c0|] eqn:Hn.
  - rewrite (bool_decide_eq_true_2 (is_Some (Some c0))) by done. cbn.
    rewrite Hn. cbn.
    rewrite (bool_decide_eq_true_2 (old ∈ OPFS.locked w)) by done. cbn.
    rewrite (bool_decide_eq_false_2 (new ∈ OPFS.locked w)) by done.
    rewrite lookup_insert_eq.
    rewrite (bool_decide_eq_true_2 (is_Some (Some content))) by done. cbn.
    split; [done|]. split; [by rewrite lookup_delete_eq|].
    by rewrite lookup_delete_ne, lookup_insert_ne.
  - rewrite (bool_decide_eq_false_2 (is_Some None)) by (by intros [? ?]).
    rewrite (bool_decide_eq_false_2 (new ∈ OPFS.dirs w)) by done. cbn.
    rewrite lookup_insert_eq. cbn.
    rewrite (bool_decide_eq_true_2 (old ∈ OPFS.locked w)) by done. cbn.
    rewrite (bool_decide_eq_false_2 (new ∈ OPFS.locked w)) by done.
    rewrite lookup_insert_eq.
    rewrite (bool_decide_eq_true_2 (is_Some (Some content))) by done. cbn.
    split; [done|]. split; [by rewrite lookup_delete_eq|].
    by rewrite lookup_delete_ne, !lookup_insert_ne.
Qed.

(** ** The replace loop has fuel enough *)

Lemma collect_fuel (m : RegExp.Matcher) (s : string) :
  Spec.wellBehaved m ->
  forall fuel extra lastIndex,
    (String.length s + 2 <= fuel + lastIndex)%nat ->
    RegExp.collect (fuel + extra) m s lastIndex = RegExp.collect fuel m s lastIndex.
Proof.
  intros Hm. induction fuel as [|fuel IH]; intros extra lastIndex Hlen.
  - destruct extra as [|extra]; [reflexivity|]. cbn [RegExp.collect Nat.add].
    destruct (String.length s <? lastIndex)%nat eqn:E; [reflexivity|].
    apply Nat.ltb_ge in E. lia.
  - cbn [RegExp.collect Nat.add].
    destruct (String.length s <? lastIndex)%nat eqn:E; [reflexivity|].
    destruct (m s lastIndex) as [[i e]|] eqn:Hmatch; [|reflexivity].
    destruct (Hm _ _ _ _ Hmatch) as [Hfrom Hie].
    f_equal. apply IH.
    destruct (e =? i)%nat eqn:Hei.
    + apply Nat.eqb_eq in Hei. lia.
    + apply Nat.eqb_neq in Hei. lia.
Qed.

Lemma search_wellBehaved (ignoreCase : bool) (p s : string) :
  forall from pos i e,
    RegExp.search ignoreCase p from pos s = Some (i, e) ->
    (from <= i)%nat ∧ (i <= e)%nat.
Proof.
  induction s as [|c s IH]; intros from pos i e; cbn.
  - destruct ((from <=? pos)%nat && RegExp.matchesAt ignoreCase p EmptyString) eqn:E;
      [|done].
    intros [= <- <-]. apply andb_true_iff in E as [E _].
    apply Nat.leb_le in E. lia.
  - destruct ((from <=? pos)%nat && RegExp.matchesAt ignoreCase p (String c s)) eqn:E.
    + intros [= <- <-]. apply andb_true_iff in E as [E _].
      apply Nat.leb_le in E. lia.
    + intros H. by apply IH in H.
Qed.

Lemma literalEngine_wellBehaved (source flags : string) (m : RegExp.Matcher) :
  RegExp.literalEngine source flags = Some m -> Spec.wellBehaved m.
Proof.
  unfold RegExp.literalEngine. destruct (RegExp.hasMeta source); [done|].
  intros [= <-] s from i e H. by apply search_wellBehaved in H.
Qed.

(** ** Splitting a text into lines and joining them *)

Lemma split_nonempty (sep : ascii) (s : string) : JS.split sep s ≠ [].
Proof.
  induction s as [|c s IH]; cbn; [done|].
  destruct (Ascii.eqb c sep); [done|]. by destruct (JS.split sep s).
Qed.

Lemma join_cons (sep x : string) (l : list string) :
  l ≠ [] -> JS.join sep (x :: l) = x +:+ sep +:+ JS.join sep l.
Proof. by destruct l. Qed.

Lemma join_split (sep : ascii) (s : string) :
  JS.join (String sep EmptyString) (JS.split sep s) = s.
Proof.
  induction s as [|c s IH]; [reflexivity|]. cbn [JS.split].
  pose proof (split_nonempty sep s) as Hne.
  destruct (Ascii.eqb c sep) eqn:E.
  - apply Ascii.eqb_eq in E as ->.
    rewrite join_cons by done. by rewrite IH.
  - destruct (JS.split sep s) as [|w ws] eqn:Hs; [done|].
    destruct ws as [|w' ws].
    + cbn in *. by rewrite IH.
    + rewrite join_cons by done. rewrite join_cons in IH by done.
      by rewrite append_cons, IH.
Qed.

Lemma split_no_sep (sep : ascii) (s : string) :
  Text.contains sep s = false -> JS.split sep s = [s].
Proof.
  induction s as [|c s IH]; cbn; [done|].
  intros H. apply orb_false_iff in H as [Hc Hs].
  rewrite Hc. by rewrite IH.
Qed.

Lemma split_append (sep : ascii) (x r : string) :
  Text.contains sep x = false ->
  JS.split sep (x +:+ String sep r) = x :: JS.split sep r.
Proof.
  induction x as [|c x IH]; intros H.
  - rewrite append_nil_l. cbn [JS.split]. by rewrite Ascii.eqb_refl.
  - cbn [Text.contains] in H. apply orb_false_iff in H as [Hc Hx].
    rewrite append_cons. cbn [JS.split]. rewrite Hc. by rewrite IH.
Qed.

Lemma split_join (sep : ascii) (l : list string) :
  l ≠ [] ->
  Forall (λ x, Text.contains sep x = false) l ->
  JS.split sep (JS.join (String sep EmptyString) l) = l.
Proof.
  induction l as [|x l IH]; [done|]. intros _ Hall.
  apply Forall_cons in Hall as [Hx Hl].
  destruct l as [|y l].
  - cbn. by apply split_no_sep.
  - rewrite join_cons by done. rewrite append_cons, append_nil_l.
    rewrite split_append by done. by rewrite IH.
Qed.

Lemma split_pieces (sep : ascii) (s : string) :
  Forall (λ x, Text.contains sep x = false) (JS.split sep s).
Proof.
  induction s as [|c s IH]; cbn; [by repeat constructor|].
  destruct (Ascii.eqb c sep) eqn:E.
  - by constructor.
  - destruct (JS.split sep s) as [|w ws]; [by repeat constructor; cbn; rewrite E|].
    apply Forall_cons in IH as [Hw Hws]. constructor; [|done].
    cbn. by rewrite E.
Qed.

Lemma join_app (sep : string) (a b : list string) :
  a ≠ [] -> b ≠ [] ->
  JS.join sep (a ++ b) = JS.join sep a +:+ sep +:+ JS.join sep b.
Proof.
  induction a as [|x a IH]; [done|]. intros _ Hb.
  destruct a as [|y a].
  - cbn [app]. by rewrite join_cons.
  - change ((x :: y :: a) ++ b) with (x :: ((y :: a) ++ b)).
    rewrite join_cons by done. rewrite IH by done.
    rewrite (join_cons sep x (y :: a)) by done.
    by rewrite !append_assoc.
Qed.

Lemma join_take_prefix (sep : string) (l : list string) (n : nat) :
  Text.isPrefix (JS.join sep (take n l)) (JS.join sep l).
Proof.
  destruct (take n l) as [|x a] eqn:Ha.
  - by exists (JS.join sep l).
  - destruct (drop n l) as [|y b] eqn:Hb.
    + exists EmptyString. rewrite append_nil_r.
      by rewrite <- (take_drop n l), Ha, Hb, app_nil_r.
    + exists (sep +:+ JS.join sep (y :: b)).
      rewrite <- (take_drop n l) at 1. rewrite Ha, Hb. by rewrite join_app.
Qed.

Lemma join_drop_suffix (sep : string) (l : list string) (n : nat) :
  Text.isSuffix (JS.join sep (drop n l)) (JS.join sep l).
Proof.
  destruct (drop n l) as [|y b] eqn:Hb.
  - exists (JS.join sep l). by rewrite append_nil_r.
  - destruct (take n l) as [|x a] eqn:Ha.
    + exists EmptyString. by rewrite <- (take_drop n l), Ha, Hb.
    + exists (JS.join sep (x :: a) +:+ sep).
      rewrite <- (take_drop n l) at 1. rewrite Ha, Hb.
      rewrite join_app by done. by rewrite append_assoc.
Qed.

(** ** head and tail keep a part of their input *)

Lemma headOf_prefix (count : Z) (content : string) :
  Text.isPrefix (Spec.headOf count content) content.
Proof.
  unfold Spec.headOf.
  destruct (0 <=? count);
    [pose proof (join_take_prefix (String Terminal.LF EmptyString)
                   (JS.split Terminal.LF content) (Z.to_nat count)) as H
    |pose proof (join_take_prefix (String Terminal.LF EmptyString)
                   (JS.split Terminal.LF content)
                   (length (JS.split Terminal.LF content) - Z.to_nat (- count))) as H];
    by rewrite (join_split Terminal.LF content) in H.
Qed.

Lemma tailOf_suffix (count : Z) (content : string) :
  Text.isSuffix (Spec.tailOf count content) content.
Proof.
  unfold Spec.tailOf.
  destruct (0 <? count);
    [pose proof (join_drop_suffix (String Terminal.LF EmptyString)
                   (JS.split Terminal.LF content)
                   (length (JS.split Terminal.LF content) - Z.to_nat count)) as H
    |pose proof (join_drop_suffix (String Terminal.LF EmptyString)
                   (JS.split Terminal.LF content) (Z.to_nat (- count))) as H];
    by rewrite (join_split Terminal.LF content) in H.
Qed.

Lemma headOf_all (count : Z) (content : string) :
  Z.of_nat (length (JS.split Terminal.LF content)) <= count ->
  Spec.headOf count content = content.
Proof.
  intros H. unfold Spec.headOf.
  destruct (0 <=? count) eqn:E; [|lia].
  rewrite take_ge by lia. apply join_split.
Qed.

Lemma tailOf_all (count : Z) (content : string) :
  Z.of_nat (length (JS.split Terminal.LF content)) <= count ->
  Spec.tailOf count content = content.
Proof.
  intros H. unfold Spec.tailOf.
  pose proof (split_nonempty Terminal.LF content) as Hne.
  destruct (JS.split Terminal.LF content) as [|l0 ls] eqn:Hs; [done|].
  destruct (0 <? count) eqn:E; [|cbn in H; lia].
  replace (length (l0 :: ls) - Z.to_nat count)%nat with 0%nat by lia.
  rewrite drop_0, <- Hs. apply join_split.
Qed.

(** X1. On piped input head prints a beginning of the input and tail an
    end of it, whatever the count; when the count is at least the number
    of lines, both print the input unchanged. *)
Theorem head_tail_keep_part {W : Type} (readFile : string -> Async.M W string)
    (t : Terminal.TerminalManager) (p : option string) (lines : Z)
    (input : string) (w : W) :
  exists headOut tailOut,
    Terminal.cmdHead readFile t p lines (Some input) w
    = (Async.Ok (Terminal.ok headOut), w)
    ∧ Terminal.cmdTail readFile t p lines (Some input) w
      = (Async.Ok (Terminal.ok tailOut), w)
    ∧ Text.isPrefix headOut input
    ∧ Text.isSuffix tailOut input
    ∧ (Z.of_nat (length (JS.split Terminal.LF input)) <= pipedCount p lines ->
       headOut = input ∧ tailOut = input).
Proof.
  exists (Spec.headOf (pipedCount p lines) input),
         (Spec.tailOf (pipedCount p lines) input).
  split; [apply cmdHead_piped|]. split; [apply cmdTail_piped|].
  split; [apply headOf_prefix|]. split; [apply tailOf_suffix|].
  intros H. split; [by apply headOf_all | by apply tailOf_all].
Qed.

(** ** uniq *)

Lemma dropRepeats_head (prev : option string) (l : list string) (x : string) :
  head (TextVerbs.dropRepeats prev l) = Some x -> prev ≠ Some x.
Proof.
  revert prev. induction l as [|line rest IH]; intros prev; cbn; [done|].
  destruct prev as [before|]; [|done].
  destruct (String.eqb_spec line before) as [->|Hne].
  - apply IH.
  - cbn. intros [= <-]. congruence.
Qed.

Lemma noRepeats_cons (x : string) (l : list string) :
  (forall y, head l = Some y -> x ≠ y) -> Text.noRepeats l -> Text.noRepeats (x :: l).
Proof.
  intros Hhead Hl [|i] a b Ha Hb.
  - cbn in Ha. inversion Ha; subst. apply Hhead. by destruct l.
  - by eapply Hl.
Qed.

Lemma dropRepeats_noRepeats (prev : option string) (l : list string) :
  Text.noRepeats (TextVerbs.dropRepeats prev l).
Proof.
  revert prev. induction l as [|line rest IH]; intros prev; cbn.
  - by intros [] ???.
  - assert (Text.noRepeats (line :: TextVerbs.dropRepeats (Some line) rest)) as Hkeep.
    { apply noRepeats_cons; [|apply IH].
      intros y Hy Heq. subst y. by apply dropRepeats_head in Hy. }
    destruct prev as [before|]; [|done].
    destruct (String.eqb line before); [apply IH|done].
Qed.

Lemma dropRepeats_idempotent (prev : option string) (l : list string) :
  TextVerbs.dropRepeats prev (TextVerbs.dropRepeats prev l)
  = TextVerbs.dropRepeats prev l.
Proof.
  revert prev. induction l as [|line rest IH]; intros prev; cbn; [done|].
  destruct prev as [before|].
  - destruct (String.eqb_spec line before) as [->|Hne].
    + apply IH.
    + cbn. destruct (String.eqb_spec line before); [done|]. by rewrite IH.
  - cbn. by rewrite IH.
Qed.

Lemma dropRepeats_sublist (prev : option string) (l : list string) :
  TextVerbs.dropRepeats prev l `sublist_of` l.
Proof.
  revert prev. induction l as [|line rest IH]; intros prev; cbn; [done|].
  destruct prev as [before|].
  - destruct (String.eqb line before); by constructor.
  - by constructor.
Qed.

Lemma dropRepeats_nonempty (l : list string) :
  l ≠ [] -> TextVerbs.dropRepeats None l ≠ [].
Proof. by destruct l. Qed.

Lemma cmdUniq_piped {W : Type} (readFile : string -> Async.M W string)
    (t : Terminal.TerminalManager) (p : option string) (input : string) (w : W) :
  TextVerbs.cmdUniq readFile t p (Some input) w
  = (Async.Ok (Terminal.ok
       (JS.join (Terminal.char1 Terminal.LF)
          (TextVerbs.dropRepeats None (JS.split Terminal.LF input)))), w).
Proof. reflexivity. Qed.

Lemma split_uniq (input : string) :
  JS.split Terminal.LF
    (JS.join (Terminal.char1 Terminal.LF)
       (TextVerbs.dropRepeats None (JS.split Terminal.LF input)))
  = TextVerbs.dropRepeats None (JS.split Terminal.LF input).
Proof.
  apply split_join.
  - apply dropRepeats_nonempty, split_nonempty.
  - pose proof (split_pieces Terminal.LF input) as Hall.
    rewrite Forall_forall in Hall. apply Forall_forall. intros x Hx.
    apply Hall. eapply elem_of_sublist; [done|apply dropRepeats_sublist].
Qed.

(** X2. On piped input uniq prints lines of the input in their order,
    no printed line is followed by an equal one, and running uniq on its
    own output changes nothing. *)
Theorem uniq_drops_adjacent_repeats {W : Type}
    (readFile : string -> Async.M W string)
    (t : Terminal.TerminalManager) (p : option string) (input : string) (w : W) :
  exists out,
    TextVerbs.cmdUniq readFile t p (Some input) w = (Async.Ok (Terminal.ok out), w)
    ∧ JS.split Terminal.LF out `sublist_of` JS.split Terminal.LF input
    ∧ Text.noRepeats (JS.split Terminal.LF out)
    ∧ TextVerbs.cmdUniq readFile t p (Some out) w = (Async.Ok (Terminal.ok out), w).
Proof.
  eexists. split; [apply cmdUniq_piped|]. rewrite split_uniq.
  split; [apply dropRepeats_sublist|]. split; [apply dropRepeats_noRepeats|].
  rewrite cmdUniq_piped, split_uniq. by rewrite dropRepeats_idempotent.
Qed.

(** ** wc *)

Lemma countNewlines_split (content : string) :
  S (TextVerbs.countNewlines content) = length (JS.split Terminal.LF content).
Proof.
  induction content as [|c r IH]; [reflexivity|].
  cbn [TextVerbs.countNewlines JS.split].
  destruct (Ascii.eqb c Terminal.LF).
  - cbn. by rewrite IH.
  - pose proof (split_nonempty Terminal.LF r).
    destruct (JS.split Terminal.LF r); [done|]. by rewrite IH.
Qed.

(** X3. On piped input wc succeeds without reading a file and without
    printing a label, whatever path it was given.  The line count it
    prints first, after two spaces and padded to six columns, is one
    less than the number of lines the same text splits into for head,
    tail, grep and uniq. *)
Theorem wc_counts_newlines {W : Type} (readFile : string -> Async.M W string)
    (t : Terminal.TerminalManager) (p : option string) (input : string) (w : W) :
  TextVerbs.cmdWc readFile t p (Some input) w
  = (Async.Ok (Terminal.ok (TextVerbs.wcLine input EmptyString)), w)
  ∧ exists counts,
      TextVerbs.wcLine input EmptyString
      = "  " +:+ TextVerbs.padStart
                   (JS.showNat (length (JS.split Terminal.LF input) - 1)) 6
        +:+ counts.
Proof.
  split; [done|]. unfold TextVerbs.wcLine.
  rewrite <- countNewlines_split. cbn [Nat.sub]. rewrite Nat.sub_0_r.
  by eexists.
Qed.

(** ** diff *)

Lemma concat_map_nil {A B} (f : A -> list B) (l : list A) :
  concat (map f l) = [] -> forall x, x ∈ l -> f x = [].
Proof.
  induction l as [|a l IH]; cbn; intros H x Hx; [by apply elem_of_nil in Hx|].
  apply app_eq_nil in H as [Ha Hl].
  apply elem_of_cons in Hx as [->|Hx]; [done|by apply IH].
Qed.

Lemma diffLines_nil (lines1 lines2 : list string) :
  TextVerbs.diffLines lines1 lines2 = [] -> lines1 = lines2.
Proof.
  unfold TextVerbs.diffLines. intros Hnil.
  apply list_eq. intros i.
  destruct (decide (i < Nat.max (length lines1) (length lines2))%nat) as [Hlt|Hge].
  - assert (TextVerbs.diffAt lines1 lines2 i = []) as Hi.
    { apply (concat_map_nil _ _ Hnil). apply elem_of_seq. lia. }
    unfold TextVerbs.diffAt in Hi.
    destruct (lines1 !! i) as [a|], (lines2 !! i) as [b|]; try done.
    destruct (String.eqb_spec a b); [by subst|done].
  - rewrite !lookup_ge_None_2; [done|lia|lia].
Qed.

Lemma diffLines_marked (lines1 lines2 : list string) (x : string) :
  x ∈ TextVerbs.diffLines lines1 lines2 ->
  exists body, x = TextVerbs.removed body ∨ x = TextVerbs.added body.
Proof.
  unfold TextVerbs.diffLines. intros Hx.
  apply list_elem_of_In, in_concat in Hx as (l & Hl & Hx).
  apply in_map_iff in Hl as (i & <- & _).
  apply list_elem_of_In in Hx.
  unfold TextVerbs.diffAt in Hx.
  destruct (lines1 !! i) as [a|], (lines2 !! i) as [b|].
  - destruct (String.eqb a b); [by apply elem_of_nil in Hx|].
    apply elem_of_cons in Hx as [->|Hx]; [by exists a; left|].
    apply list_elem_of_singleton in Hx as ->. by exists b; right.
  - apply list_elem_of_singleton in Hx as ->. by exists a; left.
  - apply list_elem_of_singleton in Hx as ->. by eexists; right.
  - apply list_elem_of_singleton in Hx as ->. by eexists; right.
Qed.

Lemma join_starts (sep x : string) (l : list string) :
  exists rest, JS.join sep (x :: l) = x +:+ rest.
Proof.
  destruct l as [|y l].
  - exists EmptyString. by rewrite append_nil_r.
  - eexists. by rewrite join_cons.
Qed.

Lemma diffReport_distinct (lines1 lines2 : list string) :
  TextVerbs.diffLines lines1 lines2 ≠ [] ->
  JS.join (Terminal.char1 Terminal.LF) (TextVerbs.diffLines lines1 lines2)
    ≠ EmptyString
  ∧ JS.join (Terminal.char1 Terminal.LF) (TextVerbs.diffLines lines1 lines2)
    ≠ TextVerbs.identicalNote.
Proof.
  intros Hne.
  destruct (TextVerbs.diffLines lines1 lines2) as [|x l] eqn:Hd; [done|].
  destruct (diffLines_marked lines1 lines2 x) as [body Hx].
  { rewrite Hd. by left. }
  destruct (join_starts (Terminal.char1 Terminal.LF) x l) as [rest ->].
  destruct Hx as [-> | ->]; split; intros H; cbv in H; discriminate H.
Qed.

(** X4. diff never throws: when the read of either file fails, it
    answers without success, with no output and with the error [Failed
    to read one or both files].  When both files are read, the report
    is the note [(files are identical)] exactly when the two texts are
    equal; otherwise it is not empty and is not that note. *)
Theorem diff_reports_difference {W : Type} (readFile : string -> Async.M W string)
    (t : Terminal.TerminalManager) (path1 path2 : option string) (w : W) :
  (exists r w', TextVerbs.cmdDiff readFile t path1 path2 w = (Async.Ok r, w'))
  ∧ (forall content1 content2 w1 w2,
       JS.truthyOpt path1 = true -> JS.truthyOpt path2 = true ->
       readFile (Terminal.resolvePath t (JS.orStr path1 EmptyString)) w
       = (Async.Ok content1, w1) ->
       readFile (Terminal.resolvePath t (JS.orStr path2 EmptyString)) w1
       = (Async.Ok content2, w2) ->
       exists out,
         TextVerbs.cmdDiff readFile t path1 path2 w
         = (Async.Ok (Terminal.ok out), w2)
         ∧ (content1 = content2 -> out = TextVerbs.identicalNote)
         ∧ (content1 ≠ content2 ->
            out ≠ EmptyString ∧ out ≠ TextVerbs.identicalNote))
  ∧ (forall e w1,
       JS.truthyOpt path1 = true -> JS.truthyOpt path2 = true ->
       readFile (Terminal.resolvePath t (JS.orStr path1 EmptyString)) w
       = (Async.Throw e, w1) ->
       TextVerbs.cmdDiff readFile t path1 path2 w
       = (Async.Ok {| Terminal.success := false; Terminal.output := EmptyString;
                      Terminal.error := Some "Failed to read one or both files" |},
          w1))
  ∧ (forall content1 e w1 w2,
       JS.truthyOpt path1 = true -> JS.truthyOpt path2 = true ->
       readFile (Terminal.resolvePath t (JS.orStr path1 EmptyString)) w
       = (Async.Ok content1, w1) ->
       readFile (Terminal.resolvePath t (JS.orStr path2 EmptyString)) w1
       = (Async.Throw e, w2) ->
       TextVerbs.cmdDiff readFile t path1 path2 w
       = (Async.Ok {| Terminal.success := false; Terminal.output := EmptyString;
                      Terminal.error := Some "Failed to read one or both files" |},
          w2)).
Proof.
  split; [|split; [|split]].
  3:{ intros e w1 Hp1 Hp2 Hr1.
      unfold TextVerbs.cmdDiff. rewrite Hp1, Hp2. cbn [negb orb].
      unfold Async.tryCatch, Async.bind. by rewrite Hr1. }
  3:{ intros content1 e w1 w2 Hp1 Hp2 Hr1 Hr2.
      unfold TextVerbs.cmdDiff. rewrite Hp1, Hp2. cbn [negb orb].
      unfold Async.tryCatch, Async.bind. by rewrite Hr1, Hr2. }
  - unfold TextVerbs.cmdDiff.
    destruct (negb (JS.truthyOpt path1) || negb (JS.truthyOpt path2));
      [by eexists _, _|].
    unfold Async.tryCatch, Async.bind.
    destruct (readFile _ w) as [[content1|e1] w1]; [|by eexists _, _].
    destruct (readFile _ w1) as [[content2|e2] w2]; [|by eexists _, _].
    destruct (String.eqb content1 content2); by eexists _, _.
  - intros content1 content2 w1 w2 Hp1 Hp2 Hr1 Hr2.
    unfold TextVerbs.cmdDiff. rewrite Hp1, Hp2. cbn [negb orb].
    unfold Async.tryCatch, Async.bind. rewrite Hr1, Hr2.
    destruct (String.eqb_spec content1 content2) as [Heq|Hne].
    + eexists. split; [reflexivity|]. split; [done|]. by intros ?.
    + eexists. split; [reflexivity|]. split; [by intros ?|]. intros _.
      apply diffReport_distinct. intros Hnil. apply Hne.
      apply diffLines_nil in Hnil.
      rewrite <- (join_split Terminal.LF content1),
              <- (join_split Terminal.LF content2).
      by rewrite Hnil.
Qed.

Lemma diff_reports_difference_witness :
  (exists out,
     TextVerbs.cmdDiff Examples.readFile Examples.session.1
       (Some "notes.txt") (Some "log.txt") Examples.session.2
     = (Async.Ok (Terminal.ok out),
        (Examples.readFile "log.txt" (Examples.readFile "notes.txt" Examples.session.2).2).2)
     ∧ out ≠ EmptyString)
  ∧ (TextVerbs.cmdDiff Examples.readFile Examples.session.1
       (Some "notes.txt") (Some "missing.txt") Examples.session.2).1
    = Async.Ok {| Terminal.success := false; Terminal.output := EmptyString;
                  Terminal.error := Some "Failed to read one or both files" |}
  ∧ (TextVerbs.cmdDiff Examples.readFile Examples.session.1
       (Some "missing.txt") (Some "notes.txt") Examples.session.2).1
    = Async.Ok {| Terminal.success := false; Terminal.output := EmptyString;
                  Terminal.error := Some "Failed to read one or both files" |}
  ∧ (TextVerbs.cmdDiff Examples.readFile Examples.session.1
       (Some "notes.txt") (Some "notes.txt") Examples.session.2).1
    = Async.Ok {| Terminal.success := true;
                  Terminal.output :=
                    String "027" ("[2m(files are identical)" +:+ String "027" "[0m");
                  Terminal.error := None |}.
Proof.
  split; [|split; [|split]].
  - destruct (diff_reports_difference Examples.readFile Examples.session.1
                (Some "notes.txt") (Some "log.txt") Examples.session.2)
      as (_ & Hboth & _).
    destruct (Hboth (Examples.lines ["one"; "two"; "three"]) (Examples.lines ["ba"; "a"])
                (Examples.readFile "notes.txt" Examples.session.2).2
                (Examples.readFile "log.txt"
                   (Examples.readFile "notes.txt" Examples.session.2).2).2
                eq_refl eq_refl)
      as (out & Hrun & _ & Hdiff).
    + by vm_compute.
    + by vm_compute.
    + exists out. split; [exact Hrun|]. apply Hdiff. by vm_compute.
  - destruct (diff_reports_difference Examples.readFile Examples.session.1
                (Some "notes.txt") (Some "missing.txt") Examples.session.2)
      as (_ & _ & _ & Hsecond).
    erewrite Hsecond; [reflexivity|reflexivity|reflexivity|..];
      vm_compute; reflexivity.
  - destruct (diff_reports_difference Examples.readFile Examples.session.1
                (Some "missing.txt") (Some "notes.txt") Examples.session.2)
      as (_ & _ & Hfirst & _).
    erewrite Hfirst; [reflexivity|reflexivity|reflexivity|]; vm_compute; reflexivity.
  - destruct (diff_reports_difference Examples.readFile Examples.session.1
                (Some "notes.txt") (Some "notes.txt") Examples.session.2)
      as (_ & Hboth & _).
    destruct (Hboth (Examples.lines ["one"; "two"; "three"])
                (Examples.lines ["one"; "two"; "three"])
                (Examples.readFile "notes.txt" Examples.session.2).2
                (Examples.readFile "notes.txt"
                   (Examples.readFile "notes.txt" Examples.session.2).2).2
                eq_refl eq_refl)
      as (out & Hrun & Hsame & _).
    + by vm_compute.
    + by vm_compute.
    + rewrite Hrun. cbn [fst]. rewrite (Hsame eq_refl). by vm_compute.
Defined.

(** ** How a run of the executor ends *)

Section ExecutorEnds.
Import Async Terminal.
Context {W : Type}.
Variable runCommand :
  string -> list string -> option string -> M (TerminalManager * W) CommandResult.
Variable logDebugInput : string -> list string -> option string -> bool -> list TermOp.
Variable logDebugOutput : CommandResult -> list TermOp.

Let stagesOf := runStages runCommand logDebugInput logDebugOutput.

Lemma runStages_raise cmds :
  forall i stdin s k c message,
    (stagesOf cmds i stdin s).2 !! k = Some c ->
    inv_result c = Throw message ->
    (stagesOf cmds i stdin s).1.1 = Raised message.
Proof.
  induction cmds as [|cmdInput rest IH]; intros i stdin s k c message Hk Hr.
  - by destruct k.
  - revert Hk. unfold stagesOf. cbn [runStages].
    destruct (runCommand _ _ _ _) as [[result|e] s2] eqn:Hrun.
    + destruct (success result) eqn:Hok; cbn [negb].
      * destruct (runStages _ _ _ rest _ _ _) as [[exit s3] calls] eqn:Hrest.
        destruct k as [|k]; cbn; intros Hk.
        -- inversion Hk; subst c. cbn in Hr. congruence.
        -- pose proof (IH (S i) (Some (output result))
                         (if debugging (JS.toLowerCase
                                          (PipeParser.firstOf (parseCommand cmdInput))) s2
                          then onTerminal (sendAll (logDebugOutput result)) s2
                          else s2) k c message) as H.
           unfold stagesOf in H. rewrite Hrest in H. cbn in H. by apply H.
      * destruct k as [|k]; cbn; intros Hk; [|done].
        inversion Hk; subst c. cbn in Hr. congruence.
    + destruct k as [|k]; cbn; intros Hk; [|done].
      inversion Hk; subst c. cbn in Hr. congruence.
Qed.

Lemma runStages_complete cmds :
  forall i stdin s k c r,
    (stagesOf cmds i stdin s).2 !! k = Some c ->
    inv_result c = Ok r -> success r = true ->
    S k = length cmds ->
    (stagesOf cmds i stdin s).1.1 = Completed (Some (output r)).
Proof.
  induction cmds as [|cmdInput rest IH]; intros i stdin s k c r Hk Hr Hs Hlen.
  - by destruct k.
  - revert Hk. unfold stagesOf. cbn [runStages].
    destruct (runCommand _ _ _ _) as [[result|e] s2] eqn:Hrun.
    + destruct (success result) eqn:Hok; cbn [negb].
      * destruct (runStages _ _ _ rest _ _ _) as [[exit s3] calls] eqn:Hrest.
        destruct k as [|k]; cbn; intros Hk.
        -- inversion Hk; subst c. cbn in Hr. inversion Hr; subst result.
           destruct rest; [|cbn in Hlen; lia]. cbn in Hrest. by inversion Hrest.
        -- pose proof (IH (S i) (Some (output result))
                         (if debugging (JS.toLowerCase
                                          (PipeParser.firstOf (parseCommand cmdInput))) s2
                          then onTerminal (sendAll (logDebugOutput result)) s2
                          else s2) k c r) as H.
           unfold stagesOf in H. rewrite Hrest in H. cbn in H. apply H; try done.
           cbn in Hlen. lia.
      * destruct k as [|k]; cbn; intros Hk; [|done].
        inversion Hk; subst c. cbn in Hr. congruence.
    + destruct k as [|k]; cbn; intros Hk; [|done].
      inversion Hk; subst c. cbn in Hr. congruence.
Qed.

Lemma executeCommand_raised input s message :
  JS.truthyStr input = true ->
  (stagesOf (parsePipeChain input) O None
     (onTerminal (setHistoryIndex (-1)) (onTerminal (pushHistory input) s))).1.1
  = Raised message ->
  exists t,
    (executeCommand runCommand logDebugInput logDebugOutput input s).1.1
    = prompt (send (errorLine message) t).
Proof.
  intros Hin. unfold executeCommand, stagesOf. rewrite Hin. cbn [negb].
  destruct (runStages _ _ _ _ _ _ _) as [[exit s'] calls]. cbn.
  intros ->. cbn. by eexists.
Qed.

Lemma executeCommand_completed input s out :
  JS.truthyStr input = true ->
  (stagesOf (parsePipeChain input) O None
     (onTerminal (setHistoryIndex (-1)) (onTerminal (pushHistory input) s))).1.1
  = Completed (Some out) ->
  exists t,
    (executeCommand runCommand logDebugInput logDebugOutput input s).1.1
    = prompt (if JS.truthyStr out then send (Writeln (crlf out)) t else t).
Proof.
  intros Hin. unfold executeCommand, stagesOf. rewrite Hin. cbn [negb].
  destruct (runStages _ _ _ _ _ _ _) as [[exit s'] calls]. cbn.
  intros ->. cbn. destruct (JS.truthyStr out); by eexists.
Qed.

End ExecutorEnds.

Lemma crlf_lineBreaks (text : string) : Terminal.crlf text = Screen.lineBreaks text.
Proof.
  unfold Screen.lineBreaks. induction text as [|c r IH]; [reflexivity|].
  cbn [Terminal.crlf JS.split].
  change Screen.LF with Terminal.LF in *.
  pose proof (split_nonempty Terminal.LF r) as Hne.
  destruct (Ascii.eqb c Terminal.LF).
  - rewrite join_cons by done. by rewrite IH.
  - rewrite IH. destruct (JS.split Terminal.LF r) as [|w ws]; [done|].
    destruct ws as [|w' ws]; [done|].
    by rewrite (join_cons _ w (w' :: ws)), (join_cons _ (String c w) (w' :: ws)).
Qed.

Lemma terminal_output_prompt (t : Terminal.TerminalManager) (out : string) :
  let final :=
    Terminal.prompt (if JS.truthyStr out
                     then Terminal.send (Terminal.Writeln (Terminal.crlf out)) t
                     else t) in
  Terminal.terminal final
  = Terminal.terminal t
    ++ (if JS.truthyStr out then [Terminal.Writeln (Screen.lineBreaks out)] else [])
    ++ [Terminal.Write (Screen.promptText (Terminal.currentDirectory final))].
Proof.
  intros final. subst final. rewrite terminal_prompt.
  destruct (JS.truthyStr out); [|done].
  cbn [Terminal.send Terminal.terminal]. by rewrite <- app_assoc, crlf_lineBreaks.
Qed.

(** X5. When a stage throws (a file that cannot be read, a pattern that
    does not compile), no later stage is called, and the last two
    things in what the terminal was sent are the line [Error: ]
    followed by the message of the exception and then the prompt. *)
Theorem pipeline_stops_on_exception {W : Type}
    (runCommand : string -> list string -> option string ->
                  Async.M (Terminal.TerminalManager * W) Terminal.CommandResult)
    (logDebugInput : string -> list string -> option string -> bool
                     -> list Terminal.TermOp)
    (logDebugOutput : Terminal.CommandResult -> list Terminal.TermOp)
    (input : string) (s : Terminal.TerminalManager * W)
    (k : nat) (c : Terminal.Invocation) (message : string) :
  let run := Terminal.executeCommand runCommand logDebugInput logDebugOutput input s in
  run.2 !! k = Some c ->
  Terminal.inv_result c = Async.Throw message ->
  length run.2 = S k
  ∧ exists t,
      run.1.1 = Terminal.prompt (Terminal.send (Terminal.errorLine message) t)
      ∧ Terminal.terminal run.1.1
        = Terminal.terminal t
          ++ [Terminal.Writeln (Screen.errorText message);
              Terminal.Write (Screen.promptText
                                (Terminal.currentDirectory run.1.1))].
Proof.
  intros run Hk Hr. subst run.
  destruct (JS.truthyStr input) eqn:Hin.
  2:{ unfold Terminal.executeCommand in Hk. rewrite Hin in Hk. by destruct k. }
  rewrite (executeCommand_calls _ _ _ _ _ Hin) in Hk |- *.
  split.
  - eapply runStages_halt; [done|]. intros (r & Hr' & _). congruence.
  - destruct (executeCommand_raised runCommand logDebugInput logDebugOutput
                input s message Hin) as [t Ht]; [by eapply runStages_raise|].
    exists t. split; [exact Ht|]. rewrite Ht. apply terminal_error_prompt.
Qed.

Lemma pipeline_stops_on_exception_witness :
  let run := Examples.executeCommand "cat missing.txt | head 2 | cat" Examples.session in
  let errorLine :=
    Terminal.Writeln
      (String "027" ("[1;31mError:" +:+ String "027" "[0m NotFoundError")) in
  let promptLine :=
    Terminal.Write
      (String "027" ("[1;36m/" +:+ String "027" ("[0m " +:+ String "027"
         ("[1;32m$" +:+ String "027" "[0m ")))) in
  length run.2 = 1%nat
  ∧ (exists t, Terminal.terminal run.1.1
               = Terminal.terminal t ++ [errorLine; promptLine])
  ∧ Terminal.terminal run.1.1 = [errorLine; promptLine].
Proof.
  intros run errorLine promptLine.
  destruct (pipeline_stops_on_exception Examples.runCommand Examples.noDebugInput
              Examples.noDebugOutput "cat missing.txt | head 2 | cat"
              Examples.session 0
              {| Terminal.inv_command := "cat";
                 Terminal.inv_args := ["missing.txt"];
                 Terminal.inv_stdin := None;
                 Terminal.inv_result := Async.Throw "NotFoundError" |}
              "NotFoundError") as (Hlen & t & _ & Hwritten);
    [by vm_compute|reflexivity|].
  split; [exact Hlen|]. split; [by exists t|]. by vm_compute.
Defined.

(** X6. When the last stage of a line succeeds, what the terminal was
    sent ends with the output of that stage, its lines joined by
    carriage return and line feed, and then the prompt; when the output
    is empty it ends with the prompt alone. *)
Theorem pipeline_prints_last_output {W : Type}
    (runCommand : string -> list string -> option string ->
                  Async.M (Terminal.TerminalManager * W) Terminal.CommandResult)
    (logDebugInput : string -> list string -> option string -> bool
                     -> list Terminal.TermOp)
    (logDebugOutput : Terminal.CommandResult -> list Terminal.TermOp)
    (input : string) (s : Terminal.TerminalManager * W)
    (k : nat) (c : Terminal.Invocation) (r : Terminal.CommandResult) :
  let run := Terminal.executeCommand runCommand logDebugInput logDebugOutput input s in
  run.2 !! k = Some c ->
  Terminal.inv_result c = Async.Ok r ->
  Terminal.success r = true ->
  S k = length (Terminal.parsePipeChain input) ->
  exists t,
    run.1.1
    = Terminal.prompt
        (if JS.truthyStr (Terminal.output r)
         then Terminal.send (Terminal.Writeln (Terminal.crlf (Terminal.output r))) t
         else t)
    ∧ Terminal.terminal run.1.1
      = Terminal.terminal t
        ++ (match Terminal.output r with
            | EmptyString => []
            | out => [Terminal.Writeln (Screen.lineBreaks out)]
            end)
        ++ [Terminal.Write (Screen.promptText (Terminal.currentDirectory run.1.1))].
Proof.
  intros run Hk Hr Hs Hlen. subst run.
  destruct (JS.truthyStr input) eqn:Hin.
  2:{ unfold Terminal.executeCommand in Hk. rewrite Hin in Hk. by destruct k. }
  rewrite (executeCommand_calls _ _ _ _ _ Hin) in Hk.
  destruct (executeCommand_completed runCommand logDebugInput logDebugOutput
              input s (Terminal.output r) Hin) as [t Ht];
    [by eapply runStages_complete|].
  exists t. split; [exact Ht|]. rewrite Ht, terminal_output_prompt.
  by destruct (Terminal.output r).
Qed.

Lemma pipeline_prints_last_output_witness :
  let run := Examples.executeCommand "cat notes.txt | head 2" Examples.session in
  let outputLine :=
    Terminal.Writeln ("one" +:+ String "013" (String "010" "two")) in
  let promptLine :=
    Terminal.Write
      (String "027" ("[1;36m/" +:+ String "027" ("[0m " +:+ String "027"
         ("[1;32m$" +:+ String "027" "[0m ")))) in
  (exists t, Terminal.terminal run.1.1
             = Terminal.terminal t ++ [outputLine] ++ [promptLine])
  ∧ Terminal.terminal run.1.1 = [outputLine; promptLine].
Proof.
  intros run outputLine promptLine.
  destruct (pipeline_prints_last_output Examples.runCommand Examples.noDebugInput
              Examples.noDebugOutput "cat notes.txt | head 2" Examples.session 1
              {| Terminal.inv_command := "head";
                 Terminal.inv_args := ["2"];
                 Terminal.inv_stdin := Some (Examples.lines ["one"; "two"; "three"]);
                 Terminal.inv_result :=
                   Async.Ok (Terminal.ok (Examples.lines ["one"; "two"])) |}
              (Terminal.ok (Examples.lines ["one"; "two"])))
    as (t & _ & Hwritten); [by vm_compute|reflexivity|reflexivity|by vm_compute|].
  split; [by exists t|]. by vm_compute.
Defined.

(** ** The command history *)

Section HistoryFacts.
Import Async Terminal.
Context {W : Type}.
Variable runCommand :
  string -> list string -> option string -> M (TerminalManager * W) CommandResult.
Variable logDebugInput : string -> list string -> option string -> bool -> list TermOp.
Variable logDebugOutput : CommandResult -> list TermOp.
Hypothesis Hkeeps : History.keeps runCommand.

Let stagesOf := runStages runCommand logDebugInput logDebugOutput.
Let handle := handleInput runCommand logDebugInput logDebugOutput.

Lemma sendAll_sameHistory ops t : History.same t (sendAll ops t).
Proof.
  revert t. induction ops as [|op ops IH]; intros t; [done|].
  cbn. destruct (IH (send op t)) as [H1 H2]. by split.
Qed.

Lemma runStages_sameHistory cmds :
  forall i stdin s, History.same s.1 (stagesOf cmds i stdin s).1.2.1.
Proof.
  induction cmds as [|cmdInput rest IH]; intros i stdin s; [done|].
  unfold stagesOf. cbn [runStages].
  set (command := JS.toLowerCase (PipeParser.firstOf (parseCommand cmdInput))).
  set (a := JS.slice (parseCommand cmdInput) 1 None).
  set (s1 := if debugging command s then _ else s).
  assert (History.same s.1 s1.1) as H1.
  { subst s1. destruct (debugging command s); [|done]. apply sendAll_sameHistory. }
  destruct (Hkeeps command a stdin s1) as [Hh Hi].
  destruct (runCommand command a stdin s1) as [[result|e] s2] eqn:Hrun.
  - set (s3 := if debugging command s2 then _ else s2).
    assert (History.same s2.1 s3.1) as H3.
    { subst s3. destruct (debugging command s2); [|done]. apply sendAll_sameHistory. }
    cbn in Hh, Hi.
    destruct (success result) eqn:Hok; cbn [negb].
    + pose proof (IH (S i) (Some (output result)) s3) as H4. unfold stagesOf in H4.
      destruct (runStages _ _ _ rest _ _ _) as [[exit s4] calls]. cbn in *.
      unfold History.same in *. destruct H1, H3, H4. split; congruence.
    + unfold History.same in *.
      cbn. destruct (JS.truthyOpt (error result)); cbn;
        destruct H1, H3; split; congruence.
  - unfold History.same in *. cbn in *. destruct H1. split; congruence.
Qed.

Lemma executeCommand_history input s :
  let t' := (executeCommand runCommand logDebugInput logDebugOutput input s).1.1 in
  if JS.truthyStr input
  then commandHistory t' = commandHistory s.1 ++ [input] ∧ historyIndex t' = -1
  else History.same s.1 t'.
Proof.
  unfold executeCommand. destruct (JS.truthyStr input); cbn [negb]; [|done].
  pose proof (runStages_sameHistory (parsePipeChain input) O None
                (onTerminal (setHistoryIndex (-1)) (onTerminal (pushHistory input) s)))
    as H.
  unfold stagesOf in H.
  destruct (runStages _ _ _ _ _ _ _) as [[exit s'] calls]. cbn in H.
  destruct H as [Hh Hi].
  destruct exit as [|stdin|message]; cbn.
  - done.
  - by destruct (JS.truthyOpt stdin).
  - by destruct (debugMode s'.1); cbn; [destruct (sendAll_sameHistory
        (logDebugOutput (failure message)) s'.1) as [-> ->]|].
Qed.

Lemma handle_ENTER s :
  handle ENTER s
  = onTerminal (setCursorPosition 0)
      (onTerminal (setCurrentLine EmptyString)
         (executeCommand runCommand logDebugInput logDebugOutput
            (JS.trim (currentLine s.1))
            (onTerminal (send (Writeln EmptyString)) s)).1).
Proof. reflexivity. Qed.

Lemma handleInput_indexInRange data s :
  History.indexInRange s.1 -> History.indexInRange (handle data s).1.
Proof.
  unfold History.indexInRange. intros Hinv.
  destruct (String.eqb data ENTER) eqn:E.
  - apply String.eqb_eq in E as ->. rewrite handle_ENTER.
    pose proof (executeCommand_history (JS.trim (currentLine s.1))
                  (onTerminal (send (Writeln EmptyString)) s)) as H.
    cbn [onTerminal fst setCursorPosition setCurrentLine historyIndex commandHistory].
    cbn [onTerminal fst send commandHistory historyIndex] in H.
    destruct (JS.truthyStr (JS.trim (currentLine s.1))).
    + destruct H as [-> ->]. rewrite length_app. cbn. lia.
    + destruct H as [-> ->]. done.
  - unfold handle, handleInput. rewrite E.
    destruct s as [t w]. cbn [fst] in *.
    repeat case_match;
      repeat match goal with
             | H : (_ <? _) = true |- _ => apply Z.ltb_lt in H
             | H : (_ <? _) = false |- _ => apply Z.ltb_ge in H
             | H : (_ =? _) = true |- _ => apply Z.eqb_eq in H
             end;
      cbn; lia.
Qed.

Lemma handleInputs_indexInRange events :
  forall s, History.indexInRange s.1 ->
            History.indexInRange
              (handleInputs runCommand logDebugInput logDebugOutput events s).1.
Proof.
  induction events as [|data events IH]; intros s Hinv; [done|].
  cbn. apply IH. by apply handleInput_indexInRange.
Qed.

Lemma up_at_oldest s :
  historyIndex s.1 = Z.of_nat (length (commandHistory s.1)) - 1 -> handle UP s = s.
Proof.
  intros Hidx. unfold handle, handleInput.
  change (String.eqb UP ENTER) with false.
  change (String.eqb UP BACKSPACE) with false.
  change (String.eqb UP UP) with true.
  cbv iota. rewrite Hidx. by rewrite Z.ltb_irrefl.
Qed.

Lemma down_when_not_browsing s :
  historyIndex s.1 = -1 -> handle DOWN s = s.
Proof.
  intros Hidx. unfold handle, handleInput.
  change (String.eqb DOWN ENTER) with false.
  change (String.eqb DOWN BACKSPACE) with false.
  change (String.eqb DOWN UP) with false.
  change (String.eqb DOWN DOWN) with true.
  cbv iota. by rewrite Hidx.
Qed.

Lemma up_shows_entry s :
  History.indexInRange s.1 ->
  historyIndex s.1 < Z.of_nat (length (commandHistory s.1)) - 1 ->
  let t' := (handle UP s).1 in
  historyIndex t' = historyIndex s.1 + 1
  ∧ commandHistory t' = commandHistory s.1
  ∧ commandHistory s.1
      !! Z.to_nat (Z.of_nat (length (commandHistory s.1)) - 2 - historyIndex s.1)
    = Some (currentLine t')
  ∧ cursorPosition t' = strlen (currentLine t').
Proof.
  intros [Hlo Hhi] Hlt. unfold handle, handleInput.
  change (String.eqb UP ENTER) with false.
  change (String.eqb UP BACKSPACE) with false.
  change (String.eqb UP UP) with true.
  cbv iota. apply Z.ltb_lt in Hlt as Hb. rewrite Hb.
  destruct s as [t w]. cbn [fst] in *. cbn.
  split; [done|]. split; [done|]. split; [|done].
  unfold historyEntry, JS.index. cbn.
  replace (Z.of_nat (length (commandHistory t)) - 1 - (historyIndex t + 1))
    with (Z.of_nat (length (commandHistory t)) - 2 - historyIndex t) by lia.
  destruct (_ <? 0) eqn:Hneg; [apply Z.ltb_lt in Hneg; lia|].
  destruct (commandHistory t !! _) as [entry|] eqn:Hentry.
  - unfold JS.orStr. by destruct entry.
  - apply lookup_ge_None in Hentry. lia.
Qed.

End HistoryFacts.

Lemma onStore_keeps {W A : Type}
    (h : Terminal.TerminalManager -> Async.M W A) (s : Terminal.TerminalManager * W) :
  (Terminal.onStore h s).2.1 = s.1.
Proof. destruct s as [t w]. unfold Terminal.onStore. by destruct (h t w). Qed.

Lemma runCommand_keeps_history {W : Type} (readFile : string -> Async.M W string)
    (engine : RegExp.Engine) :
  History.keeps (Terminal.runCommand readFile engine (fun _ => None)).
Proof.
  intros command a stdin s. unfold Terminal.runCommand.
  repeat case_match; rewrite ?onStore_keeps; done.
Qed.

(** X7. Enter empties the line and puts the cursor at 0.  A line that
    is not blank is appended to the history in its trimmed form, and
    the history index goes back to -1; a blank line leaves the history
    and the index as they are. *)
Theorem enter_records_history {W : Type}
    (runCommand : string -> list string -> option string ->
                  Async.M (Terminal.TerminalManager * W) Terminal.CommandResult)
    (logDebugInput : string -> list string -> option string -> bool
                     -> list Terminal.TermOp)
    (logDebugOutput : Terminal.CommandResult -> list Terminal.TermOp)
    (s : Terminal.TerminalManager * W) :
  History.keeps runCommand ->
  let line := JS.trim (Terminal.currentLine s.1) in
  let t' := (Terminal.handleInput runCommand logDebugInput logDebugOutput
               Terminal.ENTER s).1 in
  Terminal.currentLine t' = EmptyString
  ∧ Terminal.cursorPosition t' = 0
  ∧ (line ≠ EmptyString ->
     Terminal.commandHistory t' = Terminal.commandHistory s.1 ++ [line]
     ∧ Terminal.historyIndex t' = -1)
  ∧ (line = EmptyString ->
     Terminal.commandHistory t' = Terminal.commandHistory s.1
     ∧ Terminal.historyIndex t' = Terminal.historyIndex s.1).
Proof.
  intros Hkeeps line t'. subst t'. rewrite handle_ENTER.
  pose proof (executeCommand_history runCommand logDebugInput logDebugOutput Hkeeps
                (JS.trim (Terminal.currentLine s.1))
                (Terminal.onTerminal (Terminal.send (Terminal.Writeln EmptyString)) s))
    as H.
  cbn [Terminal.onTerminal fst Terminal.setCursorPosition Terminal.setCurrentLine
         Terminal.historyIndex Terminal.commandHistory Terminal.currentLine
         Terminal.cursorPosition].
  cbn [Terminal.onTerminal fst Terminal.send Terminal.commandHistory
         Terminal.historyIndex] in H.
  subst line.
  split; [done|]. split; [done|]. split.
  - intros Hne. apply truthyStr_true in Hne. rewrite Hne in H. exact H.
  - intros Heq. rewrite Heq in H |- *. exact H.
Qed.

Lemma enter_records_history_witness :
  let s := Terminal.handleInputs Examples.runCommand Examples.noDebugInput
             Examples.noDebugOutput
             [" "; "e"; "c"; "h"; "o"; " "; "h"; "i"; " "] Examples.session in
  let t' := (Terminal.handleInput Examples.runCommand Examples.noDebugInput
               Examples.noDebugOutput Terminal.ENTER s).1 in
  JS.trim (Terminal.currentLine s.1) = "echo hi"
  ∧ Terminal.commandHistory t'
    = Terminal.commandHistory s.1 ++ [JS.trim (Terminal.currentLine s.1)]
  ∧ Terminal.historyIndex t' = -1.
Proof.
  intros s t'. split; [by vm_compute|].
  pose proof (runCommand_keeps_history Examples.readFile RegExp.literalEngine) as K.
  pose proof (enter_records_history Examples.runCommand Examples.noDebugInput
              Examples.noDebugOutput s K) as H.
  apply H.
  by vm_compute.
Defined.

(** X8. When the handlers leave the history alone, every event keeps
    [-1 <= historyIndex <= commandHistory.length - 1].  The up arrow at
    the oldest entry and the down arrow outside browsing change nothing;
    an up arrow that moves shows the entry one step older, with the
    cursor at its end, and leaves the history as it is. *)
Theorem history_navigation_in_range {W : Type}
    (runCommand : string -> list string -> option string ->
                  Async.M (Terminal.TerminalManager * W) Terminal.CommandResult)
    (logDebugInput : string -> list string -> option string -> bool
                     -> list Terminal.TermOp)
    (logDebugOutput : Terminal.CommandResult -> list Terminal.TermOp)
    (s : Terminal.TerminalManager * W) :
  History.keeps runCommand ->
  History.indexInRange s.1 ->
  let handle := Terminal.handleInput runCommand logDebugInput logDebugOutput in
  let size := Z.of_nat (length (Terminal.commandHistory s.1)) in
  (forall events,
     History.indexInRange
       (Terminal.handleInputs runCommand logDebugInput logDebugOutput events s).1)
  ∧ (Terminal.historyIndex s.1 = size - 1 -> handle Terminal.UP s = s)
  ∧ (Terminal.historyIndex s.1 = -1 -> handle Terminal.DOWN s = s)
  ∧ (Terminal.historyIndex s.1 < size - 1 ->
     Terminal.historyIndex (handle Terminal.UP s).1 = Terminal.historyIndex s.1 + 1
     ∧ Terminal.commandHistory (handle Terminal.UP s).1 = Terminal.commandHistory s.1
     ∧ Terminal.commandHistory s.1
         !! Z.to_nat (size - 2 - Terminal.historyIndex s.1)
       = Some (Terminal.currentLine (handle Terminal.UP s).1)
     ∧ Terminal.cursorPosition (handle Terminal.UP s).1
       = Terminal.strlen (Terminal.currentLine (handle Terminal.UP s).1)).
Proof.
  intros Hkeeps Hinv handle size. subst handle size.
  split; [|split; [|split]].
  - intros events. by apply handleInputs_indexInRange.
  - apply up_at_oldest.
  - apply down_when_not_browsing.
  - intros Hlt. by apply up_shows_entry.
Qed.

Lemma history_navigation_in_range_witness :
  let events := ["p"; "w"; "d"; Terminal.ENTER; "l"; "s"; Terminal.ENTER;
                 Terminal.UP] in
  let s := Terminal.handleInputs Examples.runCommand Examples.noDebugInput
             Examples.noDebugOutput events Examples.session in
  let s' := Terminal.handleInput Examples.runCommand Examples.noDebugInput
              Examples.noDebugOutput Terminal.UP s in
  History.indexInRange s.1
  ∧ Terminal.commandHistory s.1 = ["pwd"; "ls"]
  ∧ Terminal.historyIndex s.1 = 0
  ∧ Terminal.historyIndex s'.1 = Terminal.historyIndex s.1 + 1
  ∧ Terminal.commandHistory s.1 !! 0%nat = Some (Terminal.currentLine s'.1).
Proof.
  intros events s s'.
  pose proof (runCommand_keeps_history Examples.readFile RegExp.literalEngine) as K.
  assert (History.indexInRange Examples.session.1) as Hstart
    by (vm_compute; split; discriminate).
  pose proof (history_navigation_in_range Examples.runCommand Examples.noDebugInput
                Examples.noDebugOutput Examples.session K Hstart) as (Hall & _).
  pose proof (Hall events) as Hs. fold s in Hs.
  pose proof (history_navigation_in_range Examples.runCommand Examples.noDebugInput
                Examples.noDebugOutput s K Hs) as (_ & _ & _ & Hup).
  split; [exact Hs|]. split; [by vm_compute|]. split; [by vm_compute|].
  destruct Hup as (Hidx & _ & Hentry & _); [by vm_compute|].
  split; [exact Hidx|]. exact Hentry.
Defined.

(** ** Typing and deleting *)

Lemma substring_app_prefix (a b : string) :
  substring 0 (String.length a) (a +:+ b) = a.
Proof.
  induction a as [|c a IH]; [by destruct b|].
  rewrite append_cons. cbn. by rewrite IH.
Qed.

Lemma substring_whole (s : string) : substring 0 (String.length s) s = s.
Proof. induction s as [|c s IH]; [done|]. cbn. by rewrite IH. Qed.

Lemma substring_app_suffix (a b : string) (m : nat) :
  substring (String.length a) m (a +:+ b) = substring 0 m b.
Proof.
  induction a as [|c a IH]; [done|]. rewrite append_cons. cbn. by rewrite IH.
Qed.

Lemma substring_split (s : string) :
  forall k, (k <= String.length s)%nat ->
            substring 0 k s +:+ substring k (String.length s - k) s = s.
Proof.
  induction s as [|c s IH]; intros k Hk.
  - cbn in Hk. by replace k with 0%nat by lia.
  - destruct k as [|k].
    + cbn. by rewrite substring_whole.
    + cbn in Hk |- *. rewrite append_cons. rewrite IH by lia. done.
Qed.

Lemma sliceStr_app_prefix (a b : string) (k : Z) :
  Terminal.strlen a = k -> JS.sliceStr (a +:+ b) 0 (Some k) = a.
Proof.
  unfold Terminal.strlen, JS.sliceStr, JS.relIndex. intros <-.
  rewrite length_append.
  destruct (0 <? 0) eqn:H0; [done|].
  destruct (Z.of_nat (String.length a) <? 0) eqn:H1; [apply Z.ltb_lt in H1; lia|].
  rewrite (Z.min_l 0) by lia. rewrite Z.min_l by lia.
  rewrite Z.sub_0_r, Nat2Z.id. apply substring_app_prefix.
Qed.

Lemma sliceStr_app_suffix (a b : string) (k : Z) :
  Terminal.strlen a = k -> JS.sliceStr (a +:+ b) k None = b.
Proof.
  unfold Terminal.strlen, JS.sliceStr, JS.relIndex. intros <-.
  rewrite length_append.
  destruct (Z.of_nat (String.length a) <? 0) eqn:H1; [apply Z.ltb_lt in H1; lia|].
  rewrite Z.min_l by lia. rewrite Nat2Z.id.
  rewrite substring_app_suffix.
  replace (Z.to_nat (Z.of_nat (String.length a + String.length b)
                     - Z.of_nat (String.length a)))
    with (String.length b) by lia.
  apply substring_whole.
Qed.

Lemma sliceStr_split (s : string) (k : Z) :
  0 <= k <= Terminal.strlen s ->
  JS.sliceStr s 0 (Some k) +:+ JS.sliceStr s k None = s.
Proof.
  unfold Terminal.strlen, JS.sliceStr, JS.relIndex. intros Hk.
  destruct (0 <? 0) eqn:H0; [done|].
  destruct (k <? 0) eqn:H1; [apply Z.ltb_lt in H1; lia|].
  rewrite (Z.min_l 0) by lia. rewrite !(Z.min_l k) by lia.
  rewrite Z.sub_0_r. change (Z.to_nat 0) with 0%nat.
  replace (Z.to_nat (Z.of_nat (String.length s) - k))
    with (String.length s - Z.to_nat k)%nat by lia.
  apply substring_split. lia.
Qed.

Lemma printable_plain (c : ascii) :
  History.printable c ->
  let data := Terminal.char1 c in
  String.eqb data Terminal.ENTER = false
  ∧ String.eqb data Terminal.BACKSPACE = false
  ∧ String.eqb data Terminal.UP = false
  ∧ String.eqb data Terminal.DOWN = false
  ∧ String.eqb data Terminal.RIGHT = false
  ∧ String.eqb data Terminal.LEFT = false
  ∧ String.eqb data Terminal.CTRL_A = false
  ∧ String.eqb data Terminal.CTRL_E = false
  ∧ String.eqb data Terminal.CTRL_C = false
  ∧ String.eqb data Terminal.CTRL_L = false
  ∧ JS.leStr " " data && JS.leStr data "~" = true.
Proof.
  unfold History.printable. intros [Hlo Hhi].
  apply Nat.leb_le in Hlo. apply Nat.leb_le in Hhi.
  revert Hlo Hhi.
  destruct c as [[] [] [] [] [] [] [] []]; vm_compute; intros Hlo Hhi;
    first [discriminate Hlo | discriminate Hhi | repeat split; reflexivity].
Qed.

Section Typing.
Context {W : Type}.
Variable runCommand : string -> list string -> option string ->
                      Async.M (Terminal.TerminalManager * W) Terminal.CommandResult.
Variable logDebugInput : string -> list string -> option string -> bool
                         -> list Terminal.TermOp.
Variable logDebugOutput : Terminal.CommandResult -> list Terminal.TermOp.

Let handle := Terminal.handleInput runCommand logDebugInput logDebugOutput.

Lemma handle_printable (c : ascii) (s : Terminal.TerminalManager * W) :
  History.printable c ->
  let t := s.1 in
  let before := JS.sliceStr (Terminal.currentLine t) 0
                  (Some (Terminal.cursorPosition t)) in
  let after := JS.sliceStr (Terminal.currentLine t) (Terminal.cursorPosition t) None in
  Terminal.currentLine (handle (Terminal.char1 c) s).1
  = before +:+ Terminal.char1 c +:+ after
  ∧ Terminal.cursorPosition (handle (Terminal.char1 c) s).1
    = Terminal.cursorPosition t + 1
  ∧ History.same t (handle (Terminal.char1 c) s).1
  ∧ (handle (Terminal.char1 c) s).2 = s.2.
Proof.
  intros Hc t before after.
  destruct (printable_plain c Hc)
    as (E1 & E2 & E3 & E4 & E5 & E6 & E7 & E8 & E9 & E10 & E11).
  unfold handle, Terminal.handleInput.
  rewrite E1, E2, E3, E4, E5, E6, E7, E8, E9, E10, E11.
  fold t. fold before. fold after.
  unfold History.same.
  destruct (0 <? Terminal.strlen after); done.
Qed.

Lemma handle_BACKSPACE (s : Terminal.TerminalManager * W) :
  0 < Terminal.cursorPosition s.1 ->
  let t := s.1 in
  Terminal.currentLine (handle Terminal.BACKSPACE s).1
  = JS.sliceStr (Terminal.currentLine t) 0 (Some (Terminal.cursorPosition t - 1))
    +:+ JS.sliceStr (Terminal.currentLine t) (Terminal.cursorPosition t) None
  ∧ Terminal.cursorPosition (handle Terminal.BACKSPACE s).1
    = Terminal.cursorPosition t - 1
  ∧ History.same t (handle Terminal.BACKSPACE s).1
  ∧ (handle Terminal.BACKSPACE s).2 = s.2.
Proof.
  intros Hpos t. unfold handle, Terminal.handleInput.
  change (String.eqb Terminal.BACKSPACE Terminal.ENTER) with false.
  change (String.eqb Terminal.BACKSPACE Terminal.BACKSPACE) with true.
  cbv iota. fold t.
  destruct (0 <? Terminal.cursorPosition t) eqn:E; [done|].
  apply Z.ltb_ge in E. subst t. lia.
Qed.

End Typing.

(** X9. A printable character is inserted at the cursor, which moves
    one place to the right; a backspace right after it gives back the
    line and the cursor position from before the character was typed.
    Neither key touches the history or the file store. *)
Theorem backspace_undoes_typing {W : Type}
    (runCommand : string -> list string -> option string ->
                  Async.M (Terminal.TerminalManager * W) Terminal.CommandResult)
    (logDebugInput : string -> list string -> option string -> bool
                     -> list Terminal.TermOp)
    (logDebugOutput : Terminal.CommandResult -> list Terminal.TermOp)
    (c : ascii) (s : Terminal.TerminalManager * W) :
  History.printable c ->
  Editor.cursorInLine s.1 ->
  let handle := Terminal.handleInput runCommand logDebugInput logDebugOutput in
  let typed := handle (Terminal.char1 c) s in
  let erased := handle Terminal.BACKSPACE typed in
  (exists before after,
     Terminal.currentLine s.1 = before +:+ after
     ∧ Terminal.strlen before = Terminal.cursorPosition s.1
     ∧ Terminal.currentLine typed.1 = before +:+ Terminal.char1 c +:+ after)
  ∧ Terminal.cursorPosition typed.1 = Terminal.cursorPosition s.1 + 1
  ∧ Terminal.currentLine erased.1 = Terminal.currentLine s.1
  ∧ Terminal.cursorPosition erased.1 = Terminal.cursorPosition s.1
  ∧ History.same s.1 erased.1
  ∧ erased.2 = s.2.
Proof.
  intros Hc Hin handle typed erased.
  destruct (handle_printable runCommand logDebugInput logDebugOutput c s Hc)
    as (Hline & Hcur & Hhist & Hstore).
  fold handle in Hline, Hcur, Hhist, Hstore. fold typed in Hline, Hcur, Hhist, Hstore.
  set (before := JS.sliceStr (Terminal.currentLine s.1) 0
                   (Some (Terminal.cursorPosition s.1))) in *.
  set (after := JS.sliceStr (Terminal.currentLine s.1)
                  (Terminal.cursorPosition s.1) None) in *.
  assert (Terminal.strlen before = Terminal.cursorPosition s.1) as Hlen
    by (by apply strlen_sliceStr_prefix).
  assert (before +:+ after = Terminal.currentLine s.1) as Hsplit
    by (by apply sliceStr_split).
  destruct (handle_BACKSPACE runCommand logDebugInput logDebugOutput typed)
    as (Hline' & Hcur' & Hhist' & Hstore').
  { rewrite Hcur. unfold Editor.cursorInLine in Hin. lia. }
  fold handle in Hline', Hcur', Hhist', Hstore'.
  fold erased in Hline', Hcur', Hhist', Hstore'.
  split; [by exists before, after|]. split; [done|].
  split; [|split; [|split]].
  - rewrite Hline', Hcur, Hline.
    replace (Terminal.cursorPosition s.1 + 1 - 1) with (Terminal.cursorPosition s.1)
      by lia.
    rewrite (sliceStr_app_prefix before _ _ Hlen).
    rewrite <- append_assoc.
    rewrite (sliceStr_app_suffix (before +:+ Terminal.char1 c) after).
    + exact Hsplit.
    + rewrite strlen_append, Hlen. done.
  - rewrite Hcur', Hcur. lia.
  - unfold History.same in *. destruct Hhist as [H1 H2], Hhist' as [H3 H4].
    split; congruence.
  - by rewrite Hstore'.
Qed.

Lemma backspace_undoes_typing_witness :
  let s := Terminal.handleInputs Examples.runCommand Examples.noDebugInput
             Examples.noDebugOutput ["c"; "t"; Terminal.LEFT] Examples.session in
  let typed := Terminal.handleInput Examples.runCommand Examples.noDebugInput
                 Examples.noDebugOutput "a" s in
  let erased := Terminal.handleInput Examples.runCommand Examples.noDebugInput
                  Examples.noDebugOutput Terminal.BACKSPACE typed in
  Terminal.currentLine s.1 = "ct"
  ∧ Terminal.currentLine typed.1 = "cat"
  ∧ Terminal.currentLine erased.1 = Terminal.currentLine s.1
  ∧ Terminal.cursorPosition erased.1 = Terminal.cursorPosition s.1.
Proof.
  intros s typed erased.
  assert (History.printable "a") as Hc by (vm_compute; lia).
  assert (Editor.cursorInLine s.1) as Hin by (vm_compute; split; discriminate).
  pose proof (backspace_undoes_typing Examples.runCommand Examples.noDebugInput
                Examples.noDebugOutput "a"%char s Hc Hin)
    as (_ & _ & Hline & Hcur & _).
  split; [by vm_compute|]. split; [by vm_compute|].
  split; [exact Hline|exact Hcur].
Defined.

(** ** The two pipe splitters *)

Lemma parsePipeChain_step_unquoted (st : Terminal.ScanState) (c : ascii) :
  Terminal.inQuote st = false ->
  Ascii.eqb c JS.DQ = false ->
  Ascii.eqb c "'" = false ->
  Terminal.parsePipeChain_step st c
  = if Ascii.eqb c "|"
    then {| Terminal.done_ := Terminal.done_ st ++ [JS.trim (Terminal.current st)];
            Terminal.current := EmptyString;
            Terminal.inQuote := false;
            Terminal.quoteChar := Terminal.quoteChar st |}
    else {| Terminal.done_ := Terminal.done_ st;
            Terminal.current := Terminal.current st +:+ Terminal.char1 c;
            Terminal.inQuote := false;
            Terminal.quoteChar := Terminal.quoteChar st |}.
Proof.
  intros Hin Hdq Hsq. unfold Terminal.parsePipeChain_step, Terminal.isQuote.
  rewrite Hdq, Hsq, Hin. cbn [orb andb negb]. rewrite andb_false_r.
  by destruct (Ascii.eqb c "|").
Qed.

Lemma scan_unquoted (input : string) :
  forall st,
    Terminal.inQuote st = false ->
    Text.contains JS.DQ input = false ->
    Text.contains "'" input = false ->
    exists w ws,
      JS.split "|" input = w :: ws
      ∧ Terminal.done_ (Terminal.scan Terminal.parsePipeChain_step st input)
        = Terminal.done_ st
          ++ map JS.trim (List.removelast ((Terminal.current st +:+ w) :: ws))
      ∧ Terminal.current (Terminal.scan Terminal.parsePipeChain_step st input)
        = List.last ((Terminal.current st +:+ w) :: ws) EmptyString.
Proof.
  induction input as [|c r IH]; intros st Hin Hdq Hsq.
  - exists EmptyString, []. cbn. by rewrite append_nil_r, app_nil_r.
  - cbn [Text.contains] in Hdq, Hsq.
    apply orb_false_iff in Hdq as [Hdq Hdq'].
    apply orb_false_iff in Hsq as [Hsq Hsq'].
    cbn [Terminal.scan JS.split].
    rewrite parsePipeChain_step_unquoted by done.
    destruct (Ascii.eqb c "|") eqn:Hp.
    + edestruct (IH {| Terminal.done_ := Terminal.done_ st ++ [JS.trim (Terminal.current st)];
                       Terminal.current := EmptyString;
                       Terminal.inQuote := false;
                       Terminal.quoteChar := Terminal.quoteChar st |})
        as (w & ws & Hsplit & Hdone & Hcur); [done..|].
      cbn [Terminal.done_ Terminal.current] in Hdone, Hcur.
      rewrite append_nil_l in Hdone, Hcur.
      exists EmptyString, (w :: ws). rewrite Hsplit. split; [done|].
      rewrite Hdone, Hcur, append_nil_r. split; [|done].
      by rewrite <- app_assoc.
    + edestruct (IH {| Terminal.done_ := Terminal.done_ st;
                       Terminal.current := Terminal.current st +:+ Terminal.char1 c;
                       Terminal.inQuote := false;
                       Terminal.quoteChar := Terminal.quoteChar st |})
        as (w & ws & Hsplit & Hdone & Hcur); [done..|].
      cbn [Terminal.done_ Terminal.current] in Hdone, Hcur.
      rewrite append_assoc in Hdone, Hcur.
      exists (String c w), ws. rewrite Hsplit. split; [done|].
      by rewrite Hdone, Hcur.
Qed.

(** X10. On a line without quote characters the terminal's
    [parsePipeChain] returns the trimmed pieces between the pipe
    characters, empty ones included, leaving out only a blank piece
    after the last pipe.  Without the empty stages this is the list of
    segments that the pipe parser makes of the same text. *)
Theorem pipe_splitters_agree (input : string) :
  Text.contains JS.DQ input = false ->
  Text.contains "'" input = false ->
  let pieces := map JS.trim (JS.split "|" input) in
  Terminal.parsePipeChain input
  = (if JS.truthyStr (List.last pieces EmptyString)
     then pieces else List.removelast pieces)
  ∧ filter (λ s, (0 <? String.length s)%nat = true) (Terminal.parsePipeChain input)
    = PipeParser.splitSegments input.
Proof.
  intros Hdq Hsq pieces.
  destruct (scan_unquoted input Terminal.scanStart eq_refl Hdq Hsq)
    as (w & ws & Hsplit & Hdone & Hcur).
  cbn [Terminal.scanStart Terminal.done_ Terminal.current] in Hdone, Hcur.
  rewrite append_nil_l in Hdone, Hcur. cbn [app] in Hdone.
  rewrite <- Hsplit in Hdone, Hcur.
  unfold Terminal.parsePipeChain. rewrite Hdone, Hcur.
  assert (JS.split "|" input
          = List.removelast (JS.split "|" input)
            ++ [List.last (JS.split "|" input) EmptyString]) as Hdecomp
    by (apply app_removelast_last, split_nonempty).
  set (front := List.removelast (JS.split "|" input)) in *.
  set (final := List.last (JS.split "|" input) EmptyString) in *.
  assert (pieces = map JS.trim front ++ [JS.trim final]) as Hpieces
    by (subst pieces; rewrite Hdecomp at 1; by rewrite map_app).
  unfold PipeParser.splitSegments. fold pieces.
  rewrite Hpieces, last_last, removelast_last.
  destruct (JS.truthyStr (JS.trim final)) eqn:Hfinal; split; try done.
  rewrite filter_app. destruct (JS.trim final); [|done].
  cbn. by rewrite app_nil_r.
Qed.

Lemma pipe_splitters_agree_witness :
  Terminal.parsePipeChain "ls | | wc |" = ["ls"; EmptyString; "wc"]
  ∧ PipeParser.splitSegments "ls | | wc |" = ["ls"; "wc"].
Proof.
  destruct (pipe_splitters_agree "ls | | wc |" eq_refl eq_refl) as [Hchain Hsegs].
  split; [by rewrite Hchain|]. by rewrite <- Hsegs.
Defined.

(** ** The result of the pipe parser *)

Lemma parseCommand_tool (segment : string) (cmd : PipeParser.PipeCommand) :
  PipeParser.parseCommand segment = Some cmd ->
  PipeParser.tool cmd ∈ Parsed.toolNames.
Proof.
  unfold PipeParser.parseCommand, PipeParser.COMMAND_PATTERNS, Parsed.toolNames.
  intros H. repeat case_match; simplify_eq; cbn [PipeParser.tool PipeParser.toolName];
    set_solver.
Qed.

Lemma parseSegments_inr (segs : list string) :
  forall acc cmds,
    PipeParser.parseSegments segs acc = inr cmds ->
    exists new, cmds = acc ++ new
                ∧ Forall2 (λ seg cmd, PipeParser.parseCommand seg = Some cmd) segs new.
Proof.
  induction segs as [|seg segs IH]; intros acc cmds H; cbn in H.
  - simplify_eq. exists []. split; [by rewrite app_nil_r|constructor].
  - destruct (PipeParser.parseCommand seg) as [cmd|] eqn:E; [|done].
    destruct (IH _ _ H) as (new & -> & Hall).
    exists (cmd :: new). split; [by rewrite <- app_assoc|]. by constructor.
Qed.

Lemma parseSegments_inl (segs : list string) :
  forall acc segment,
    PipeParser.parseSegments segs acc = inl segment ->
    segment ∈ segs ∧ PipeParser.parseCommand segment = None.
Proof.
  induction segs as [|seg segs IH]; intros acc segment H; cbn in H; [done|].
  destruct (PipeParser.parseCommand seg) as [cmd|] eqn:E.
  - destruct (IH _ _ H) as [Hin Hnone]. split; [by right|done].
  - simplify_eq. split; [by left|done].
Qed.

(** X11. [parsePipeCommand] answers in one of three ways.  Either the
    input is not a pipe command, and there are no commands and no
    error.  Or there is an error, one of the two messages, and no
    commands.  Or there is no error and at least one command: one for
    each non-empty segment, in order, each with the tool name of a
    supported command, and a first command that reads a file names
    one. *)
Theorem parse_result_shape (input : string) :
  let r := PipeParser.parsePipeCommand input in
  let segments := PipeParser.splitSegments (JS.trim input) in
  r = {| PipeParser.isPipeCommand := false; PipeParser.commands := [];
         PipeParser.error := None |}
  ∨ (exists message,
       r = {| PipeParser.isPipeCommand := true; PipeParser.commands := [];
              PipeParser.error := Some message |}
       ∧ ((exists segment, segment ∈ segments
                           ∧ PipeParser.parseCommand segment = None
                           ∧ message = Parsed.unknownCommand
                                         (PipeParser.firstOf (JS.splitWs segment)))
          ∨ (exists tool, PipeParser.requiresSource tool = true
                          ∧ message = Parsed.missingSource tool)))
  ∨ (exists first rest,
       r = {| PipeParser.isPipeCommand := true; PipeParser.commands := first :: rest;
              PipeParser.error := None |}
       ∧ Forall2 (λ segment cmd, PipeParser.parseCommand segment = Some cmd)
                 segments (first :: rest)
       ∧ Forall (λ cmd, PipeParser.tool cmd ∈ Parsed.toolNames) (first :: rest)
       ∧ (PipeParser.requiresSource (PipeParser.tool first) = true ->
          PipeParser.truthy (PipeParser.args first !! "path") = true
          ∨ PipeParser.truthy (PipeParser.args first !! "paths") = true)).
Proof.
  intros r segments. subst r. unfold PipeParser.parsePipeCommand. fold segments.
  destruct (negb (PipeParser.isPipeCommandSyntax (JS.trim input))); [by left|].
  destruct segments as [|seg segs] eqn:Hsegs; [by left|].
  destruct (PipeParser.parseSegments (seg :: segs) []) as [segment|cmds] eqn:Hparse.
  - right; left. eexists. split; [done|]. left.
    destruct (parseSegments_inl _ _ _ Hparse) as [Hin Hnone].
    by exists segment.
  - destruct (parseSegments_inr _ _ _ Hparse) as (new & -> & Hall).
    cbn [app] in *.
    destruct new as [|first rest]; [by apply Forall2_nil_inv_r in Hall|].
    destruct (PipeParser.requiresSource (PipeParser.tool first)
              && negb (PipeParser.truthy (PipeParser.args first !! "path"))
              && negb (PipeParser.truthy (PipeParser.args first !! "paths")))
      eqn:Hsource.
    + right; left. eexists. split; [done|]. right.
      apply andb_true_iff in Hsource as [Hsource _].
      apply andb_true_iff in Hsource as [Hsource _].
      by exists (PipeParser.tool first).
    + right; right. exists first, rest. split; [done|]. split; [done|]. split.
      * clear Hsource Hparse Hsegs.
        induction Hall as [|? ? ? ? Hcmd _ IH]; constructor; [|done].
        by eapply parseCommand_tool.
      * intros Hreq. rewrite Hreq in Hsource. cbn [andb] in Hsource.
        apply andb_false_iff in Hsource as [Hp|Hp]; apply negb_false_iff in Hp; auto.
Qed.

(** ** The arguments of head, tail and grep *)

Lemma isDigit_not_n (c : ascii) : JS.isDigit c = true -> Ascii.eqb c "n" = false.
Proof.
  intros H. destruct (Ascii.eqb_spec c "n") as [->|]; [|done]. by vm_compute in H.
Qed.

(** X12. For head and tail the shorthand [-N] and the pair [-n N]
    mean the same when [N] is a string of digits: whatever was parsed
    before and whatever follows, both set [lines] to the number [N]
    reads as and go on with the arguments after them. *)
Theorem count_shorthand (d : string) (result : gmap string PipeParser.Value)
    (rest : list string) :
  d ≠ EmptyString ->
  PipeParser.allDigits d = true ->
  PipeParser.lines_loop result (("-" +:+ d) :: rest)
  = PipeParser.lines_loop result ("-n" :: d :: rest)
  ∧ PipeParser.lines_loop result ("-n" :: d :: rest)
    = PipeParser.lines_loop
        (<["lines" := PipeParser.VNum (JS.parseInt d (Some 10))]> result) rest.
Proof.
  intros Hne Hd. destruct d as [|c r]; [done|].
  cbn [PipeParser.allDigits] in Hd. pose proof Hd as Hd'.
  apply andb_true_iff in Hd' as [Hc Hr].
  assert (JS.sliceStr (String "-" (String c r)) 1 None = String c r) as Hslice
    by (by apply (sliceStr_app_suffix "-" (String c r) 1)).
  split; [|reflexivity].
  change ("-" +:+ String c r) with (String "-" (String c r)).
  cbn [PipeParser.lines_loop].
  change (String.eqb "-n" "-n") with true. cbv iota.
  change (JS.truthyStr (String c r)) with true. cbv iota.
  assert (String.eqb (String "-" (String c r)) "-n" = false) as ->.
  { cbn [String.eqb]. change (Ascii.eqb "-" "-") with true. cbv iota.
    by rewrite (isDigit_not_n c Hc). }
  assert (PipeParser.isDashNumber (String "-" (String c r)) = true) as -> by exact Hd.
  rewrite Hslice. by destruct rest.
Qed.

Lemma count_shorthand_witness :
  PipeParser.head_parseArgs ["-25"; "notes.txt"]
  = PipeParser.head_parseArgs ["-n"; "25"; "notes.txt"]
  ∧ PipeParser.tail_parseArgs ["-n"; "25"; "notes.txt"] !! "lines"
    = Some (PipeParser.VNum (JS.Int 25)).
Proof.
  destruct (count_shorthand "25" ∅ ["notes.txt"]) as [Hsame Hlines]; [done..|].
  split; [exact Hsame|].
  unfold PipeParser.tail_parseArgs. rewrite Hlines. by vm_compute.
Defined.

Lemma bool_decide_cons (x y : string) (l : list string) :
  bool_decide (x ∈ y :: l) = bool_decide (x = y) || bool_decide (x ∈ l).
Proof. rewrite <- bool_decide_or. apply bool_decide_ext, elem_of_cons. Qed.

Ltac same_record :=
  apply map_eq; intros key;
  destruct (decide (key = "caseInsensitive")) as [->|];
  [|destruct (decide (key = "invertMatch")) as [->|]];
  repeat first [rewrite lookup_insert_eq | rewrite lookup_insert_ne by done];
  done.

Lemma switches_cons (flag : string) (flags : list string)
    (result : gmap string PipeParser.Value) :
  Parsed.switches flags
    (if String.eqb flag "-i"
     then <["caseInsensitive" := PipeParser.VBool true]> result
     else if String.eqb flag "-v"
          then <["invertMatch" := PipeParser.VBool true]> result
          else result)
  = Parsed.switches (flag :: flags) result.
Proof.
  unfold Parsed.switches. rewrite !bool_decide_cons.
  destruct (String.eqb flag "-i") eqn:Ei; [|destruct (String.eqb flag "-v") eqn:Ev].
  - apply String.eqb_eq in Ei as ->.
    rewrite (bool_decide_eq_true_2 ("-i" = "-i")) by done.
    rewrite (bool_decide_eq_false_2 ("-v" = "-i")) by done. cbn [orb].
    destruct (bool_decide ("-v" ∈ flags)), (bool_decide ("-i" ∈ flags)); same_record.
  - apply String.eqb_eq in Ev as ->.
    rewrite (bool_decide_eq_true_2 ("-v" = "-v")) by done.
    rewrite (bool_decide_eq_false_2 ("-i" = "-v")) by done. cbn [orb].
    destruct (bool_decide ("-v" ∈ flags)), (bool_decide ("-i" ∈ flags)); same_record.
  - apply String.eqb_neq in Ei, Ev.
    rewrite (bool_decide_eq_false_2 ("-i" = flag)) by congruence.
    by rewrite (bool_decide_eq_false_2 ("-v" = flag)) by congruence.
Qed.

Lemma grep_flags_switches (flags : list string) :
  forall result tail,
    Forall (λ flag, PipeParser.dash flag = true) flags ->
    (match tail with arg :: _ => PipeParser.dash arg = false | [] => True end) ->
    PipeParser.grep_flags result (flags ++ tail) = (Parsed.switches flags result, tail).
Proof.
  induction flags as [|flag flags IH]; intros result tail Hall Htail.
  - cbn [app]. destruct tail as [|arg tail]; [done|]. cbn [PipeParser.grep_flags].
    by rewrite Htail.
  - apply Forall_cons in Hall as [Hflag Hall].
    cbn [app PipeParser.grep_flags]. rewrite Hflag.
    rewrite IH by done. by rewrite switches_cons.
Qed.

Lemma switches_filter (flags : list string) (result : gmap string PipeParser.Value) :
  Parsed.switches (filter Parsed.isSwitch flags) result = Parsed.switches flags result.
Proof.
  assert (forall flag, Parsed.isSwitch flag ->
                       flag ∈ filter Parsed.isSwitch flags <-> flag ∈ flags) as Hin.
  { intros flag Hflag. rewrite list_elem_of_filter.
    split; [by intros [_ ?]|by intros ?]. }
  unfold Parsed.switches.
  rewrite (bool_decide_ext _ _ (Hin "-v" (or_intror eq_refl))).
  by rewrite (bool_decide_ext _ _ (Hin "-i" (or_introl eq_refl))).
Qed.

Lemma switches_dash (flags : list string) :
  Forall (λ flag, PipeParser.dash flag = true) (filter Parsed.isSwitch flags).
Proof.
  apply Forall_forall. intros flag Hin.
  apply list_elem_of_filter in Hin as [[-> | ->] _]; reflexivity.
Qed.

(** X13. When every argument of grep begins with a dash, the parsed
    record holds what [-i] and [-v] set and nothing else: no pattern,
    no path.  When arguments that begin with a dash are followed by one
    that does not, that one is the pattern and the argument after it,
    if any, the path, and the record is exactly these next to what [-i]
    and [-v] set: whatever comes after the path is ignored, and of the
    arguments before the pattern only [-i] and [-v] have an effect,
    leaving the others out gives the same record. *)
Theorem grep_pattern_first_plain_argument (flags : list string) :
  Forall (λ flag, PipeParser.dash flag = true) flags ->
  let set_ (key : string) (on : bool) (record : gmap string PipeParser.Value) :=
    if on then <[key := PipeParser.VBool true]> record else record in
  let switches :=
    set_ "caseInsensitive" (bool_decide ("-i" ∈ flags))
      (set_ "invertMatch" (bool_decide ("-v" ∈ flags)) ∅) in
  PipeParser.grep_parseArgs flags = switches
  ∧ (forall pattern,
       PipeParser.dash pattern = false ->
       PipeParser.grep_parseArgs (flags ++ [pattern])
       = <["pattern" := PipeParser.VStr pattern]> switches)
  ∧ (forall pattern p rest,
       PipeParser.dash pattern = false ->
       PipeParser.grep_parseArgs (flags ++ pattern :: p :: rest)
       = <["path" := PipeParser.VStr p]>
           (<["pattern" := PipeParser.VStr pattern]> switches))
  ∧ (forall tail,
       (match tail with arg :: _ => PipeParser.dash arg = false | [] => True end) ->
       PipeParser.grep_parseArgs (flags ++ tail)
       = PipeParser.grep_parseArgs (filter Parsed.isSwitch flags ++ tail)).
Proof.
  intros Hall set_ switches.
  assert (switches = Parsed.switches flags ∅) as -> by reflexivity.
  split; [|split; [|split]].
  - unfold PipeParser.grep_parseArgs.
    rewrite <- (app_nil_r flags) at 1. by rewrite grep_flags_switches.
  - intros pattern Hplain. unfold PipeParser.grep_parseArgs.
    by rewrite grep_flags_switches.
  - intros pattern p rest Hplain. unfold PipeParser.grep_parseArgs.
    by rewrite grep_flags_switches.
  - intros tail Htail. unfold PipeParser.grep_parseArgs.
    rewrite !grep_flags_switches by (done || apply switches_dash).
    by rewrite switches_filter.
Qed.

Lemma grep_pattern_first_plain_argument_witness :
  PipeParser.grep_parseArgs ["-i"; "-n"; "todo"; "notes.txt"; "-v"]
  = {[ "caseInsensitive" := PipeParser.VBool true;
       "pattern" := PipeParser.VStr "todo";
       "path" := PipeParser.VStr "notes.txt" ]}
  ∧ PipeParser.grep_parseArgs ["-i"; "-n"; "todo"; "notes.txt"; "-v"]
    = PipeParser.grep_parseArgs ["-i"; "todo"; "notes.txt"; "-v"].
Proof.
  assert (Forall (λ flag, PipeParser.dash flag = true) ["-i"; "-n"]) as Hall
    by (by repeat constructor).
  destruct (grep_pattern_first_plain_argument ["-i"; "-n"] Hall)
    as (_ & _ & Hrecord & Honly).
  split.
  - change ["-i"; "-n"; "todo"; "notes.txt"; "-v"]
      with (["-i"; "-n"] ++ "todo" :: "notes.txt" :: ["-v"]).
    rewrite (Hrecord "todo" "notes.txt" ["-v"] eq_refl). by vm_compute.
  - change ["-i"; "-n"; "todo"; "notes.txt"; "-v"]
      with (["-i"; "-n"] ++ ["todo"; "notes.txt"; "-v"]).
    rewrite (Honly ["todo"; "notes.txt"; "-v"] eq_refl). by vm_compute.
Defined.

(** ** The two tokenizers *)

Lemma tokenizer_steps_related (st : Terminal.ScanState) (ts : PipeParser.TokState)
    (c : ascii) :
  Tokenizers.related st ts ->
  Ascii.eqb c Tokenizers.TAB = false ->
  Tokenizers.related (Terminal.parseCommand_step st c) (PipeParser.tokenize_step ts c).
Proof.
  intros (Hdone & Hcur & Htr) Htab.
  unfold Tokenizers.related, Terminal.parseCommand_step, PipeParser.tokenize_step,
    Terminal.isQuote.
  unfold Tokenizers.TAB in Htab.
  destruct (PipeParser.inQuote ts) as [q|] eqn:Hopen; destruct Htr as [Hin Hq];
    rewrite Hin, Hq.
  - rewrite andb_false_r. cbn [negb andb]. rewrite char1_eqb, andb_true_r.
    destruct (Ascii.eqb c q) eqn:Hcq; cbn; [done|].
    rewrite andb_false_r. cbn. by rewrite Hcur.
  - cbn [negb]. rewrite !andb_true_r, andb_false_r. rewrite Htab, orb_false_r.
    destruct (Ascii.eqb c JS.DQ || Ascii.eqb c "'") eqn:Hquote; cbn; [done|].
    destruct (Ascii.eqb c " ") eqn:Hsp.
    + rewrite <- Hcur. destruct (JS.truthyStr (Terminal.current st)); cbn.
      * by rewrite Hdone.
      * by rewrite Hopen.
    + cbn. by rewrite Hcur.
Qed.

Lemma tokenizer_loops_related (input : string) :
  forall st ts,
    Tokenizers.related st ts ->
    Text.contains Tokenizers.TAB input = false ->
    Tokenizers.related (Terminal.scan Terminal.parseCommand_step st input)
                       (PipeParser.tokenize_loop ts input).
Proof.
  induction input as [|c r IH]; intros st ts Hrel Htab; [done|].
  cbn [Text.contains] in Htab. apply orb_false_iff in Htab as [Hc Hr].
  cbn [Terminal.scan PipeParser.tokenize_loop].
  apply IH; [|done]. by apply tokenizer_steps_related.
Qed.

(** X14. On a text without a tab the terminal's [parseCommand] and
    the pipe parser's [tokenize] return the same tokens, whatever the
    quotes in it. *)
Theorem tokenizers_agree (input : string) :
  Text.contains Tokenizers.TAB input = false ->
  Terminal.parseCommand input = PipeParser.tokenize input.
Proof.
  intros Htab.
  destruct (tokenizer_loops_related input Terminal.scanStart
              {| PipeParser.tokens := []; PipeParser.current := EmptyString;
                 PipeParser.inQuote := None |}) as (Hdone & Hcur & _); [done..|].
  unfold Terminal.parseCommand, PipeParser.tokenize.
  by rewrite Hdone, Hcur.
Qed.

Lemma tokenizers_agree_witness :
  Terminal.parseCommand ("grep " +:+ JS.quoted "it's  here" +:+ "  a.txt")
  = ["grep"; "it's  here"; "a.txt"]
  ∧ PipeParser.tokenize ("grep " +:+ JS.quoted "it's  here" +:+ "  a.txt")
    = ["grep"; "it's  here"; "a.txt"].
Proof.
  pose proof (tokenizers_agree ("grep " +:+ JS.quoted "it's  here" +:+ "  a.txt")
                eq_refl) as H.
  split; [by rewrite H|]. by rewrite <- H.
Defined.

(** ** The cache of the file store *)

Section CacheFacts.
Import Async OPFS.
Context {W H : Type} `{API : FileSystemAPI W H}.

Lemma keeps_ret {A} (a : A) : Cache.keeps (ret (S := OPFSFileSystem W H) a).
Proof. done. Qed.

Lemma keeps_throw {A} (e : string) :
  Cache.keeps (throw (S := OPFSFileSystem W H) (A := A) e).
Proof. done. Qed.

Lemma keeps_get : Cache.keeps (get (S := OPFSFileSystem W H)).
Proof. done. Qed.

Lemma keeps_bind {A B} (m : M (OPFSFileSystem W H) A)
    (k : A -> M (OPFSFileSystem W H) B) :
  Cache.keeps m -> (forall a, Cache.keeps (k a)) -> Cache.keeps (bind m k).
Proof.
  intros Hm Hk fs. unfold bind. specialize (Hm fs).
  destruct (m fs) as [[a|e] fs1]; cbn in Hm; [|done].
  by rewrite Hk.
Qed.

Lemma keeps_call {A} (m : M W A) : Cache.keeps (call (H := H) m).
Proof. intros fs. unfold call. by destruct (m (browser fs)). Qed.

Lemma keeps_init : Cache.keeps (init (W := W) (H := H)).
Proof.
  unfold init. apply keeps_bind; [apply keeps_get|]. intros fs.
  destruct (initialized fs); [apply keeps_ret|].
  destruct (negb isSupported); [apply keeps_throw|].
  apply keeps_bind; [apply keeps_call|]. intros h fs'. done.
Qed.

Lemma keeps_ensureInitialized : Cache.keeps (ensureInitialized (W := W) (H := H)).
Proof.
  unfold ensureInitialized. apply keeps_bind; [apply keeps_get|]. intros fs.
  destruct (negb (initialized fs)); [apply keeps_init|apply keeps_ret].
Qed.

Lemma keeps_root : Cache.keeps (root (W := W) (H := H)).
Proof.
  unfold root. apply keeps_bind; [apply keeps_get|]. intros fs.
  destruct (rootHandle fs); [apply keeps_ret|apply keeps_throw].
Qed.

Lemma keeps_navigate (parts : list string) :
  forall dirHandle, Cache.keeps (navigate dirHandle parts).
Proof.
  induction parts as [|part r IH]; intros dirHandle; cbn [navigate].
  - apply keeps_ret.
  - apply keeps_bind; [apply keeps_call|]. intros d. apply IH.
Qed.

Lemma keeps_getFileHandleByPath (p : string) : Cache.keeps (getFileHandleByPath p).
Proof.
  unfold getFileHandleByPath.
  apply keeps_bind; [apply keeps_ensureInitialized|]. intros _.
  destruct (pop (pathParts p)) as [[fileName|] parts]; [|apply keeps_throw].
  apply keeps_bind; [apply keeps_root|]. intros r.
  apply keeps_bind; [apply keeps_navigate|]. intros d. apply keeps_call.
Qed.

Lemma updates_throw {A} (f : gmap string OPFSEntry -> gmap string OPFSEntry)
    (e : string) :
  Cache.updates f (throw (S := OPFSFileSystem W H) (A := A) e).
Proof. done. Qed.

Lemma updates_setCache (f : gmap string OPFSEntry -> gmap string OPFSEntry) :
  Cache.updates f (setCache (W := W) (H := H) f).
Proof. done. Qed.

Lemma updates_bind {A B} (f : gmap string OPFSEntry -> gmap string OPFSEntry)
    (m : M (OPFSFileSystem W H) A) (k : A -> M (OPFSFileSystem W H) B) :
  Cache.keeps m -> (forall a, Cache.updates f (k a)) -> Cache.updates f (bind m k).
Proof.
  intros Hm Hk fs. unfold bind. specialize (Hm fs).
  destruct (m fs) as [[a|e] fs1]; cbn in Hm; [|done].
  rewrite Hk. by rewrite Hm.
Qed.

Lemma keeps_readFile (p : string) : Cache.keeps (readFile p).
Proof.
  unfold readFile.
  apply keeps_bind; [apply keeps_getFileHandleByPath|]. intros h. apply keeps_call.
Qed.

Lemma keeps_writeFile (p content : string) : Cache.keeps (writeFile p content).
Proof.
  unfold writeFile.
  apply keeps_bind; [apply keeps_getFileHandleByPath|]. intros h. apply keeps_call.
Qed.

Lemma updates_deleteFile (p : string) : Cache.updates (delete p) (deleteFile p).
Proof.
  unfold deleteFile.
  apply updates_bind; [apply keeps_ensureInitialized|]. intros _.
  destruct (pop (pathParts p)) as [[fileName|] parts]; [|apply updates_throw].
  apply updates_bind; [apply keeps_root|]. intros r.
  apply updates_bind; [apply keeps_navigate|]. intros d.
  apply updates_bind; [apply keeps_call|]. intros _.
  apply updates_setCache.
Qed.

Lemma updates_deleteDirectory (p : string) :
  Cache.updates (filter (λ kv, StoreMethods.underPath p kv.1 = false))
                (StoreMethods.deleteDirectory p).
Proof.
  unfold StoreMethods.deleteDirectory.
  apply updates_bind; [apply keeps_ensureInitialized|]. intros _.
  destruct (pop (pathParts p)) as [[dirName|] parts]; [|apply updates_throw].
  apply updates_bind; [apply keeps_root|]. intros r.
  apply updates_bind; [apply keeps_navigate|]. intros d.
  apply updates_bind; [apply keeps_call|]. intros _.
  apply updates_setCache.
Qed.

End CacheFacts.

(** X15. Whatever the browser does, reading and writing a file leave
    the cache of the store as it was, and so does a delete that throws;
    a delete that returns removes from the cache the path it was given,
    and for a directory also every cached path below it. *)
Theorem cache_follows_browser {W H : Type} `{API : OPFS.FileSystemAPI W H}
    (p content : string) :
  Cache.keeps (OPFS.readFile p)
  ∧ Cache.keeps (OPFS.writeFile p content)
  ∧ Cache.updates (delete p) (OPFS.deleteFile p)
  ∧ Cache.updates (filter (λ kv, StoreMethods.underPath p kv.1 = false))
                  (StoreMethods.deleteDirectory p).
Proof.
  split; [|split; [|split]].
  - apply keeps_readFile.
  - apply keeps_writeFile.
  - apply updates_deleteFile.
  - apply updates_deleteDirectory.
Qed.

(** ** Creating and moving files *)

Section CreateFacts.
Import Async OPFS.
Context {W H : Type} `{API : FileSystemAPI W H}.

Lemma bind_Ok {S A B} (m : M S A) (k : A -> M S B) (s s' : S) (b : B) :
  bind m k s = (Ok b, s') ->
  exists a s1, m s = (Ok a, s1) ∧ k a s1 = (Ok b, s').
Proof.
  unfold bind. destruct (m s) as [[a|e] s1]; [|done]. intros Hk. by exists a, s1.
Qed.

Lemma keeps_run {A} (m : M (OPFSFileSystem W H) A) (fs fs' : OPFSFileSystem W H)
    (r : Result A) :
  Cache.keeps m -> m fs = (r, fs') -> fileCache fs' = fileCache fs.
Proof. intros Hm Hrun. specialize (Hm fs). by rewrite Hrun in Hm. Qed.

Lemma child_join (dirs : list string) :
  forall cur,
    cur ≠ EmptyString ->
    fold_left child dirs cur = JS.join "/" (cur :: dirs).
Proof.
  induction dirs as [|part dirs IH]; intros cur Hcur; [done|].
  cbn [fold_left]. unfold child at 2.
  apply truthyStr_true in Hcur as Htruthy. rewrite Htruthy.
  rewrite IH by (by destruct cur).
  rewrite (join_cons "/" cur (part :: dirs)) by done.
  destruct dirs as [|next dirs]; [done|].
  rewrite !join_cons by done. by rewrite !append_assoc.
Qed.

Lemma navigateCreate_cache (parts : list string) :
  forall dirHandle cur fs h fs',
    navigateCreate dirHandle cur parts fs = (Ok h, fs') ->
    (forall k, is_Some (fileCache fs !! k) -> fileCache fs' !! k = fileCache fs !! k)
    ∧ (forall dirs rest,
         parts = dirs ++ rest -> dirs ≠ [] ->
         is_Some (fileCache fs' !! fold_left child dirs cur)).
Proof.
  induction parts as [|part r IH]; intros dirHandle cur fs h fs' Hrun.
  - cbn [navigateCreate] in Hrun. unfold ret in Hrun. simplify_eq. split; [done|].
    intros dirs rest Hsplit Hne. symmetry in Hsplit.
    by apply app_eq_nil in Hsplit as [-> _].
  - cbn [navigateCreate] in Hrun. fold (child cur part) in Hrun.
    apply bind_Ok in Hrun as (d & fs1 & Hcall & Hrun).
    apply bind_Ok in Hrun as (u & fs2 & Hset & Hrun).
    pose proof (keeps_run _ _ _ _ (keeps_call _) Hcall) as Hcache1.
    unfold setCache, modify in Hset. simplify_eq. cbn [fileCache] in *.
    destruct (IH _ _ _ _ _ Hrun) as [Hkept Hdirs]. cbn [fileCache] in Hkept, Hdirs.
    rewrite Hcache1 in Hkept.
    assert (forall k, is_Some (fileCache fs !! k) ->
                      match fileCache fs !! child cur part with
                      | Some _ => fileCache fs
                      | None => <[child cur part := {| name := part; path := child cur part;
                                                       kind := directory |}]> (fileCache fs)
                      end !! k = fileCache fs !! k) as Hstep.
    { intros k Hk. destruct (fileCache fs !! child cur part) eqn:E; [done|].
      apply lookup_insert_ne. intros <-. rewrite E in Hk. by destruct Hk. }
    assert (is_Some (match fileCache fs !! child cur part with
                     | Some _ => fileCache fs
                     | None => <[child cur part := {| name := part; path := child cur part;
                                                      kind := directory |}]> (fileCache fs)
                     end !! child cur part)) as Hhere.
    { destruct (fileCache fs !! child cur part) eqn:E; [by rewrite E|].
      by rewrite lookup_insert_eq. }
    split.
    + intros k Hk. rewrite Hkept by (by rewrite Hstep). by apply Hstep.
    + intros dirs rest Hsplit Hne.
      destruct dirs as [|first dirs]; [done|].
      cbn [app] in Hsplit. simplify_eq. cbn [fold_left].
      destruct dirs as [|second dirs].
      * cbn [fold_left]. by rewrite Hkept.
      * by apply (Hdirs (second :: dirs) rest).
Qed.

Lemma pathParts_nonempty (p : string) :
  Forall (λ part, part ≠ EmptyString) (pathParts p).
Proof.
  unfold pathParts. apply Forall_forall. intros part Hin.
  apply list_elem_of_filter in Hin as [Hlen _]. by destruct part.
Qed.

Lemma createFile_cache (p content : string) (entry : OPFSEntry)
    (fs fs' : OPFSFileSystem W H) :
  createFile p content fs = (Ok entry, fs') ->
  exists fileName cached,
    last (pathParts p) = Some fileName
    ∧ entry = Cache.fileEntry fileName p
    ∧ fileCache fs' = <[p := entry]> cached
    ∧ (forall k, is_Some (fileCache fs !! k) -> cached !! k = fileCache fs !! k)
    ∧ (forall dirs rest,
         removelast (pathParts p) = dirs ++ rest -> dirs ≠ [] ->
         is_Some (cached !! JS.join "/" dirs)).
Proof.
  intros Hrun. unfold createFile in Hrun.
  apply bind_Ok in Hrun as (u & fs1 & Hens & Hrun).
  unfold pop in Hrun.
  destruct (last (pathParts p)) as [fileName|] eqn:Hlast; [|done].
  apply bind_Ok in Hrun as (r & fs2 & Hroot & Hrun).
  apply bind_Ok in Hrun as (d & fs3 & Hnav & Hrun).
  apply bind_Ok in Hrun as (fh & fs4 & Hfh & Hrun).
  apply bind_Ok in Hrun as (u' & fs5 & Hwrite & Hrun).
  apply bind_Ok in Hrun as (u'' & fs6 & Hset & Hrun).
  pose proof (keeps_run _ _ _ _ keeps_ensureInitialized Hens) as H1.
  pose proof (keeps_run _ _ _ _ keeps_root Hroot) as H2.
  pose proof (keeps_run _ _ _ _ (keeps_call _) Hfh) as H4.
  pose proof (keeps_run _ _ _ _ (keeps_call _) Hwrite) as H5.
  destruct (navigateCreate_cache _ _ _ _ _ _ Hnav) as [Hkept Hdirs].
  unfold setCache, modify in Hset. unfold ret in Hrun. simplify_eq.
  cbn [fileCache]. rewrite H5, H4.
  exists fileName, (fileCache fs3). split; [done|]. split; [done|]. split; [done|].
  rewrite H2, H1 in Hkept. split; [done|].
  intros dirs rest Hsplit Hne.
  destruct dirs as [|first dirs]; [done|].
  assert (Forall (λ part, part ≠ EmptyString) (first :: dirs)) as Hparts.
  { pose proof (pathParts_nonempty p) as Hall.
    rewrite (app_removelast_last (l := pathParts p) EmptyString) in Hall
      by (intros Hnil; by rewrite Hnil in Hlast).
    apply Forall_app in Hall as [Hall _]. rewrite Hsplit in Hall.
    by apply Forall_app in Hall as [Hall _]. }
  apply Forall_cons in Hparts as [Hfirst _].
  rewrite <- child_join by done.
  by apply (Hdirs (first :: dirs) rest).
Qed.

Lemma renameFile_cache (oldPath newPath : string) (fs fs' : OPFSFileSystem W H) :
  renameFile oldPath newPath fs = (Ok tt, fs') ->
  fileCache fs' !! oldPath = None
  ∧ (newPath ≠ oldPath ->
     exists fileName,
       fileCache fs' !! newPath = Some (Cache.fileEntry fileName newPath)).
Proof.
  intros Hrun. unfold renameFile in Hrun.
  apply bind_Ok in Hrun as (content & fs1 & Hread & Hrun).
  apply bind_Ok in Hrun as (entry & fs2 & Hcreate & Hrun).
  unfold tryCatch in Hrun.
  destruct (deleteFile oldPath fs2) as [[[]|deleteError] fs3] eqn:Hdelete.
  - simplify_eq.
    pose proof (updates_deleteFile oldPath fs2) as Hupd.
    rewrite Hdelete in Hupd. cbn [fst snd] in Hupd.
    rewrite Hupd. split; [apply lookup_delete_eq|].
    intros Hdiff. rewrite lookup_delete_ne by done.
    destruct (createFile_cache _ _ _ _ _ Hcreate)
      as (fileName & cached & _ & -> & -> & _).
    exists fileName. by rewrite lookup_insert_eq.
  - unfold bind, tryCatch in Hrun.
    by destruct (deleteFile newPath fs3) as [[[]|e] fs4].
Qed.

Lemma createDirectory_cache (p : string) (entry : option OPFSEntry)
    (fs fs' : OPFSFileSystem W H) :
  StoreMethods.createDirectory p fs = (Ok entry, fs') ->
  entry = fileCache fs' !! JS.trim p
  ∧ is_Some (fileCache fs' !! JS.join "/" (pathParts (JS.trim p)))
  ∧ (forall k, is_Some (fileCache fs !! k) -> fileCache fs' !! k = fileCache fs !! k).
Proof.
  intros Hrun. unfold StoreMethods.createDirectory in Hrun.
  apply bind_Ok in Hrun as (u & fs1 & Hens & Hrun).
  destruct (negb (JS.truthyStr (JS.trim p))); [done|].
  destruct (pathParts (JS.trim p)) as [|part parts] eqn:Hparts; [done|].
  apply bind_Ok in Hrun as (r & fs2 & Hroot & Hrun).
  apply bind_Ok in Hrun as (d & fs3 & Hnav & Hrun).
  apply bind_Ok in Hrun as (fs4 & fs5 & Hget & Hrun).
  unfold get in Hget. unfold ret in Hrun. simplify_eq.
  pose proof (keeps_run _ _ _ _ keeps_ensureInitialized Hens) as H1.
  pose proof (keeps_run _ _ _ _ keeps_root Hroot) as H2.
  destruct (navigateCreate_cache _ _ _ _ _ _ Hnav) as [Hkept Hdirs].
  rewrite H2, H1 in Hkept. split; [done|]. split; [|done].
  pose proof (pathParts_nonempty (JS.trim p)) as Hall. rewrite Hparts in Hall.
  apply Forall_cons in Hall as [Hpart _].
  rewrite <- child_join by done.
  apply (Hdirs (part :: parts) []); [by rewrite app_nil_r|done].
Qed.

End CreateFacts.

(** X16. A [createFile] that returns has put the file in the cache
    under the path it was given, with the last part of the path as its
    name, and has an entry for every directory on the way; the entries
    of the other paths that were cached before are as they were. *)
Theorem createFile_caches {W H : Type} `{API : OPFS.FileSystemAPI W H}
    (p content : string) (entry : OPFS.OPFSEntry) (fs fs' : OPFS.OPFSFileSystem W H) :
  OPFS.createFile p content fs = (Async.Ok entry, fs') ->
  (exists fileName, last (OPFS.pathParts p) = Some fileName
                    ∧ entry = Cache.fileEntry fileName p)
  ∧ OPFS.fileCache fs' !! p = Some entry
  ∧ (forall dirs rest,
       removelast (OPFS.pathParts p) = dirs ++ rest -> dirs ≠ [] ->
       is_Some (OPFS.fileCache fs' !! JS.join "/" dirs))
  ∧ (forall k, k ≠ p -> is_Some (OPFS.fileCache fs !! k) ->
               OPFS.fileCache fs' !! k = OPFS.fileCache fs !! k).
Proof.
  intros Hrun.
  destruct (createFile_cache p content entry fs fs' Hrun)
    as (fileName & cached & Hlast & Hentry & Hcache & Hkept & Hdirs).
  rewrite Hcache. split; [by exists fileName|]. split; [by rewrite lookup_insert_eq|].
  split.
  - intros dirs rest Hsplit Hne.
    destruct (decide (p = JS.join "/" dirs)) as [<-|Hdiff].
    + by rewrite lookup_insert_eq.
    + rewrite lookup_insert_ne by done. by eapply Hdirs.
  - intros k Hk Hcached. rewrite lookup_insert_ne by done. by apply Hkept.
Qed.

Lemma createFile_caches_witness :
  exists entry fs',
    OPFS.createFile "docs/old/a.txt" "x" Examples.session.2 = (Async.Ok entry, fs')
    ∧ OPFS.fileCache fs' !! "docs/old/a.txt" = Some entry
    ∧ is_Some (OPFS.fileCache fs' !! "docs")
    ∧ is_Some (OPFS.fileCache fs' !! "docs/old").
Proof.
  destruct (OPFS.createFile "docs/old/a.txt" "x" Examples.session.2)
    as [[entry|e] fs'] eqn:Hrun; [|by vm_compute in Hrun].
  exists entry, fs'. split; [done|].
  destruct (createFile_caches _ _ _ _ _ Hrun) as (_ & Hfile & Hdirs & _).
  split; [done|]. split.
  - by apply (Hdirs ["docs"] ["old"]).
  - by apply (Hdirs ["docs"; "old"] []).
Defined.

(** X17. A [renameFile] that returns has taken the old path out of the
    cache and, unless the new path is the old one, has cached a file at
    the new path; the entries of the other paths that were cached
    before are as they were.  So after a file was renamed to its own
    name the cache does not list it. *)
Theorem rename_moves_cache_entry {W H : Type} `{API : OPFS.FileSystemAPI W H}
    (oldPath newPath : string) (fs fs' : OPFS.OPFSFileSystem W H) :
  OPFS.renameFile oldPath newPath fs = (Async.Ok tt, fs') ->
  OPFS.fileCache fs' !! oldPath = None
  ∧ (newPath ≠ oldPath ->
     exists fileName,
       OPFS.fileCache fs' !! newPath = Some (Cache.fileEntry fileName newPath))
  ∧ (forall k, k ≠ oldPath -> k ≠ newPath -> is_Some (OPFS.fileCache fs !! k) ->
               OPFS.fileCache fs' !! k = OPFS.fileCache fs !! k).
Proof.
  intros Hrun.
  destruct (renameFile_cache _ _ _ _ Hrun) as [Hold Hnew].
  split; [exact Hold|]. split; [exact Hnew|].
  intros k Hk Hk' Hcached. unfold OPFS.renameFile in Hrun.
  apply bind_Ok in Hrun as (content & fs1 & Hread & Hrun).
  apply bind_Ok in Hrun as (entry & fs2 & Hcreate & Hrun).
  pose proof (keeps_run _ _ _ _ (keeps_readFile _) Hread) as Hsame.
  destruct (createFile_cache _ _ _ _ _ Hcreate)
    as (fileName & cached & _ & _ & Hcache & Hkept & _).
  unfold Async.tryCatch in Hrun.
  destruct (OPFS.deleteFile oldPath fs2) as [[[]|deleteError] fs3] eqn:Hdelete.
  - simplify_eq.
    pose proof (updates_deleteFile oldPath fs2) as Hupd.
    rewrite Hdelete in Hupd. cbn [fst snd] in Hupd.
    rewrite Hupd, lookup_delete_ne by done.
    rewrite Hcache, lookup_insert_ne by done.
    rewrite Hkept by (by rewrite Hsame). by rewrite Hsame.
  - unfold Async.bind, Async.tryCatch in Hrun.
    by destruct (OPFS.deleteFile newPath fs3) as [[[]|e] fs4].
Qed.

Lemma rename_moves_cache_entry_witness :
  exists fs',
    OPFS.renameFile "log.txt" "old/log.txt" Examples.session.2 = (Async.Ok tt, fs')
    ∧ OPFS.fileCache fs' !! "log.txt" = None
    ∧ exists fileName,
        OPFS.fileCache fs' !! "old/log.txt"
        = Some (Cache.fileEntry fileName "old/log.txt").
Proof.
  destruct (OPFS.renameFile "log.txt" "old/log.txt" Examples.session.2)
    as [[[]|e] fs'] eqn:Hrun; [|by vm_compute in Hrun].
  exists fs'. split; [done|].
  destruct (rename_moves_cache_entry _ _ _ _ Hrun) as (Hold & Hnew & _).
  split; [done|]. by apply Hnew.
Defined.

(** ** Paths that name nothing, and browsers without the file system *)

Lemma pathParts_only_slashes (p : string) :
  OPFS.pathParts p = [] <-> Text.only "/" p = true.
Proof.
  unfold OPFS.pathParts. induction p as [|c r IH]; [done|].
  cbn [JS.split Text.only].
  destruct (Ascii.eqb c "/") eqn:E; cbn [andb].
  - rewrite filter_cons_False by (cbn; lia). exact IH.
  - destruct (JS.split "/" r) as [|w ws]; (split; [|done]);
      (rewrite filter_cons_True by done); done.
Qed.

(** X18. A path that is empty or made of slashes only names no file:
    once the store is initialized, reading, writing, creating and
    deleting at such a path throw the error that quotes the path, and
    neither the browser nor the store is touched. *)
Theorem invalid_path_rejected {W H : Type} `{API : OPFS.FileSystemAPI W H}
    (p content : string) (fs : OPFS.OPFSFileSystem W H) :
  OPFS.initialized fs = true ->
  Text.only "/" p = true ->
  OPFS.readFile p fs = (Async.Throw ("Invalid file path: " +:+ p), fs)
  ∧ OPFS.writeFile p content fs = (Async.Throw ("Invalid file path: " +:+ p), fs)
  ∧ OPFS.createFile p content fs = (Async.Throw ("Invalid file path: " +:+ p), fs)
  ∧ OPFS.deleteFile p fs = (Async.Throw ("Invalid file path: " +:+ p), fs)
  ∧ StoreMethods.deleteDirectory p fs
    = (Async.Throw ("Invalid directory path: " +:+ p), fs).
Proof.
  intros Hinit Hp. apply pathParts_only_slashes in Hp.
  unfold OPFS.readFile, OPFS.writeFile, OPFS.getFileHandleByPath, OPFS.createFile,
    OPFS.deleteFile, StoreMethods.deleteDirectory, OPFS.ensureInitialized,
    Async.bind, Async.get.
  rewrite Hinit, Hp. done.
Qed.

Lemma invalid_path_rejected_witness :
  OPFS.deleteFile "//" (Browsers.ready Examples.disk)
  = (Async.Throw "Invalid file path: //", Browsers.ready Examples.disk).
Proof.
  by destruct (invalid_path_rejected "//" EmptyString (Browsers.ready Examples.disk)
                 eq_refl eq_refl) as (_ & _ & _ & Hdelete & _).
Defined.

(** X19. In a browser without the Origin Private File System every
    method of a store that is not initialized throws the error that
    says so, and leaves the store as it was. *)
Theorem unsupported_browser_rejected {W H : Type} `{API : OPFS.FileSystemAPI W H}
    (p q content : string) (fs : OPFS.OPFSFileSystem W H) :
  OPFS.isSupported = false ->
  OPFS.initialized fs = false ->
  OPFS.init fs = (Async.Throw Browsers.notSupported, fs)
  ∧ OPFS.readFile p fs = (Async.Throw Browsers.notSupported, fs)
  ∧ OPFS.writeFile p content fs = (Async.Throw Browsers.notSupported, fs)
  ∧ OPFS.createFile p content fs = (Async.Throw Browsers.notSupported, fs)
  ∧ OPFS.deleteFile p fs = (Async.Throw Browsers.notSupported, fs)
  ∧ StoreMethods.deleteDirectory p fs = (Async.Throw Browsers.notSupported, fs)
  ∧ StoreMethods.createDirectory p fs = (Async.Throw Browsers.notSupported, fs)
  ∧ OPFS.renameFile p q fs = (Async.Throw Browsers.notSupported, fs)
  ∧ OPFS.copyFile p q fs = (Async.Throw Browsers.notSupported, fs).
Proof.
  intros Hno Hinit.
  assert (OPFS.init fs = (Async.Throw Browsers.notSupported, fs)) as Hfail.
  { unfold OPFS.init, Async.bind, Async.get. by rewrite Hinit, Hno. }
  assert (OPFS.ensureInitialized fs = (Async.Throw Browsers.notSupported, fs)) as Hens.
  { unfold OPFS.ensureInitialized, Async.bind, Async.get. by rewrite Hinit. }
  split; [done|].
  unfold OPFS.renameFile, OPFS.copyFile, OPFS.readFile, OPFS.writeFile,
    OPFS.getFileHandleByPath, OPFS.createFile, OPFS.deleteFile,
    StoreMethods.deleteDirectory, StoreMethods.createDirectory, Async.bind.
  by rewrite Hens.
Qed.

Lemma unsupported_browser_rejected_witness :
  OPFS.readFile (API := Browsers.unsupported) "notes.txt" (OPFS.fresh tt)
  = (Async.Throw Browsers.notSupported, OPFS.fresh tt).
Proof.
  by destruct (unsupported_browser_rejected (API := Browsers.unsupported)
                 "notes.txt" EmptyString EmptyString (OPFS.fresh tt) eq_refl eq_refl)
    as (_ & Hread & _).
Defined.

(** ** The verbs that change the store *)

Section VerbFacts.
Import Async OPFS Terminal.
Context {W H : Type} `{API : FileSystemAPI W H}.

Lemma cached_file (p fileName : string) (fs : OPFSFileSystem W H) :
  fileCache fs !! p = Some (Cache.fileEntry fileName p) ->
  StoreMethods.isFile p fs = true ∧ exists_ p fs = true.
Proof.
  intros Hp. unfold StoreMethods.isFile, exists_. rewrite Hp.
  split; [done|]. by apply bool_decide_eq_true_2.
Qed.

Lemma createFile_isFile (p content : string) (entry : OPFSEntry)
    (fs fs' : OPFSFileSystem W H) :
  createFile p content fs = (Ok entry, fs') ->
  StoreMethods.isFile p fs' = true ∧ exists_ p fs' = true.
Proof.
  intros Hrun.
  destruct (createFile_cache _ _ _ _ _ Hrun) as (fileName & cached & _ & -> & Hc & _).
  apply (cached_file p fileName). by rewrite Hc, lookup_insert_eq.
Qed.

End VerbFacts.

(** X20. After a verb of the terminal that changes the store answered
    with success, the cache of the store shows what the verb did:
    [touch] and [cp] leave a file at the path, [write] leaves the path
    cached, [rm] and [rmdir] leave neither the path nor, for [rmdir],
    any path below it, [mv] leaves no entry at the source and a file at
    a destination that differs from it, and [mkdir] leaves an entry at
    the path in normal form. *)
Theorem store_verbs_update_cache {W H : Type} `{API : OPFS.FileSystemAPI W H}
    (t : Terminal.TerminalManager) (fs fs' : OPFS.OPFSFileSystem W H)
    (r : Terminal.CommandResult) (p q : option string) :
  Terminal.success r = true ->
  let at_ (x : option string) := Terminal.resolvePath t (JS.orStr x EmptyString) in
  (StoreVerbs.cmdTouch t p fs = (Async.Ok r, fs') ->
   StoreMethods.isFile (at_ p) fs' = true)
  ∧ (StoreVerbs.cmdWrite t p q fs = (Async.Ok r, fs') ->
     OPFS.exists_ (at_ p) fs' = true)
  ∧ (StoreVerbs.cmdRm t p fs = (Async.Ok r, fs') ->
     OPFS.exists_ (at_ p) fs' = false)
  ∧ (StoreVerbs.cmdRmdir t p fs = (Async.Ok r, fs') ->
     forall k, StoreMethods.underPath (at_ p) k = true -> OPFS.exists_ k fs' = false)
  ∧ (StoreVerbs.cmdMv t p q fs = (Async.Ok r, fs') ->
     OPFS.exists_ (at_ p) fs' = false
     ∧ (at_ q ≠ at_ p -> StoreMethods.isFile (at_ q) fs' = true))
  ∧ (StoreVerbs.cmdCp t p q fs = (Async.Ok r, fs') ->
     StoreMethods.isFile (at_ q) fs' = true)
  ∧ (StoreVerbs.cmdMkdir t p fs = (Async.Ok r, fs') ->
     OPFS.exists_ (JS.join "/" (OPFS.pathParts (JS.trim (at_ p)))) fs' = true).
Proof.
  intros Hsuccess at_.
  split; [|split; [|split; [|split; [|split; [|split]]]]].
  - unfold StoreVerbs.cmdTouch. destruct (negb (JS.truthyOpt p)).
    + unfold Async.ret. intros Hrun. by simplify_eq.
    + intros Hrun. apply bind_Ok in Hrun as (entry & fs1 & Hcreate & Hrun).
      unfold Async.ret in Hrun. simplify_eq.
      by destruct (createFile_isFile _ _ _ _ _ Hcreate).
  - unfold StoreVerbs.cmdWrite. destruct (negb (JS.truthyOpt p)).
    + unfold Async.ret. intros Hrun. by simplify_eq.
    + intros Hrun. apply bind_Ok in Hrun as (fs0 & fs1 & Hget & Hrun).
      unfold Async.get in Hget. simplify_eq.
      apply bind_Ok in Hrun as (u & fs2 & Hstep & Hrun).
      unfold Async.ret in Hrun. simplify_eq. fold (at_ p) in Hstep.
      destruct (OPFS.exists_ (at_ p) fs0) eqn:Hcached.
      * pose proof (keeps_run _ _ _ _ (keeps_writeFile _ _) Hstep) as Hsame.
        unfold OPFS.exists_ in *. by rewrite Hsame.
      * apply bind_Ok in Hstep as (entry & fs3 & Hcreate & Hstep).
        unfold Async.ret in Hstep. simplify_eq.
        by destruct (createFile_isFile _ _ _ _ _ Hcreate).
  - unfold StoreVerbs.cmdRm. destruct (negb (JS.truthyOpt p)).
    + unfold Async.ret. intros Hrun. by simplify_eq.
    + intros Hrun. apply bind_Ok in Hrun as (u & fs1 & Hdelete & Hrun).
      unfold Async.ret in Hrun. simplify_eq. fold (at_ p) in Hdelete.
      pose proof (updates_deleteFile (at_ p) fs) as Hupd.
      rewrite Hdelete in Hupd. cbn [fst snd] in Hupd.
      unfold OPFS.exists_. rewrite Hupd, lookup_delete_eq.
      apply bool_decide_eq_false_2. by intros [? ?].
  - unfold StoreVerbs.cmdRmdir. destruct (negb (JS.truthyOpt p)).
    + unfold Async.ret. intros Hrun. by simplify_eq.
    + intros Hrun k Hunder. apply bind_Ok in Hrun as (u & fs1 & Hdelete & Hrun).
      unfold Async.ret in Hrun. simplify_eq. fold (at_ p) in Hdelete.
      pose proof (updates_deleteDirectory (at_ p) fs) as Hupd.
      rewrite Hdelete in Hupd. cbn [fst snd] in Hupd.
      unfold OPFS.exists_. rewrite Hupd.
      apply bool_decide_eq_false_2. intros [entry Hentry].
      apply map_lookup_filter_Some in Hentry as [_ Hkeep]. cbn in Hkeep.
      by rewrite Hunder in Hkeep.
  - unfold StoreVerbs.cmdMv.
    destruct (negb (JS.truthyOpt p) || negb (JS.truthyOpt q)).
    + unfold Async.ret. intros Hrun. by simplify_eq.
    + intros Hrun. apply bind_Ok in Hrun as ([] & fs1 & Hrename & Hrun).
      unfold Async.ret in Hrun. simplify_eq. fold (at_ p) (at_ q) in Hrename.
      destruct (renameFile_cache _ _ _ _ Hrename) as [Hold Hnew].
      split.
      * unfold OPFS.exists_. rewrite Hold.
        apply bool_decide_eq_false_2. by intros [? ?].
      * intros Hdiff. destruct (Hnew Hdiff) as (fileName & Hfile).
        by destruct (cached_file _ _ _ Hfile).
  - unfold StoreVerbs.cmdCp.
    destruct (negb (JS.truthyOpt p) || negb (JS.truthyOpt q)).
    + unfold Async.ret. intros Hrun. by simplify_eq.
    + intros Hrun. apply bind_Ok in Hrun as (entry & fs1 & Hcopy & Hrun).
      unfold Async.ret in Hrun. simplify_eq. fold (at_ p) (at_ q) in Hcopy.
      unfold OPFS.copyFile in Hcopy.
      apply bind_Ok in Hcopy as (content & fs2 & Hread & Hcreate).
      by destruct (createFile_isFile _ _ _ _ _ Hcreate).
  - unfold StoreVerbs.cmdMkdir. destruct (negb (JS.truthyOpt p)).
    + unfold Async.ret. intros Hrun. by simplify_eq.
    + intros Hrun. apply bind_Ok in Hrun as (entry & fs1 & Hcreate & Hrun).
      unfold Async.ret in Hrun. simplify_eq. fold (at_ p) in Hcreate.
      destruct (createDirectory_cache _ _ _ _ Hcreate) as (_ & Hdir & _).
      unfold OPFS.exists_. by apply bool_decide_eq_true_2.
Qed.

Lemma store_verbs_update_cache_witness :
  exists r fs',
    StoreVerbs.cmdMv Terminal.initial (Some "log.txt") (Some "/old/log.txt")
      Examples.session.2 = (Async.Ok r, fs')
    ∧ OPFS.exists_ "log.txt" fs' = false
    ∧ StoreMethods.isFile "old/log.txt" fs' = true.
Proof.
  destruct (StoreVerbs.cmdMv Terminal.initial (Some "log.txt") (Some "/old/log.txt")
              Examples.session.2) as [[r|e] fs'] eqn:Hrun; [|by vm_compute in Hrun].
  exists r, fs'. split; [done|].
  assert (Terminal.success r = true) as Hsuccess
    by (generalize Hrun; clear; intros Hrun; vm_compute in Hrun; by simplify_eq).
  destruct (store_verbs_update_cache Terminal.initial Examples.session.2 fs' r
              (Some "log.txt") (Some "/old/log.txt") Hsuccess)
    as (_ & _ & _ & _ & Hmv & _).
  destruct (Hmv Hrun) as [Hold Hnew]. split; [exact Hold|]. by apply Hnew.
Defined.

(** ** Resolving paths *)

Lemma filter_all {A} (P : A -> Prop) `{forall x, Decision (P x)} (l : list A) :
  Forall P l -> filter P l = l.
Proof.
  induction 1 as [|x l Hx _ IH]; [done|]. rewrite filter_cons_True by done.
  by rewrite IH.
Qed.

Lemma join_truthy (sep : string) (parts : list string) :
  Forall (λ x, x ≠ EmptyString) parts ->
  JS.truthyStr (JS.join sep parts) = negb (bool_decide (parts = [])).
Proof.
  intros Hall. destruct parts as [|x parts]; [done|].
  apply Forall_cons in Hall as [Hx _].
  destruct parts as [|y parts]; [by destruct x|].
  rewrite join_cons by done. by destruct x.
Qed.

Lemma plain_name_tests (name : string) :
  name ≠ EmptyString ->
  Text.contains "/" name = false ->
  JS.startsWith "/" name = false ∧ JS.startsWith "./" name = false.
Proof.
  intros Hne Hslash. destruct name as [|c r]; [done|].
  cbn [Text.contains] in Hslash. apply orb_false_iff in Hslash as [Hc Hr].
  split.
  - cbn [JS.startsWith]. rewrite Ascii.eqb_sym. by rewrite Hc.
  - cbn [JS.startsWith]. destruct (Ascii.eqb "." c); [|done].
    destruct r as [|d r]; [done|].
    cbn [Text.contains] in Hr. apply orb_false_iff in Hr as [Hd _].
    rewrite Ascii.eqb_sym. by rewrite Hd.
Qed.

(** X21. In a current directory made of the parts [parts], a plain
    name resolves to the path of the parts followed by the name, and
    from there [..] resolves back to the current directory.  The name
    with [./] in front resolves like the name alone, and with [/] in
    front to the name itself, whatever the current directory. *)
Theorem resolve_child_and_parent (t inside : Terminal.TerminalManager)
    (parts : list string) (name : string) :
  Terminal.currentDirectory t = JS.join "/" parts ->
  Forall (λ x, x ≠ EmptyString ∧ Text.contains "/" x = false) parts ->
  name ≠ EmptyString -> Text.contains "/" name = false ->
  name ≠ "." -> name ≠ ".." ->
  Terminal.currentDirectory inside = Terminal.resolvePath t name ->
  Terminal.resolvePath t name = JS.join "/" (parts ++ [name])
  ∧ Terminal.resolvePath inside ".." = Terminal.currentDirectory t
  ∧ Terminal.resolvePath t ("./" +:+ name) = Terminal.resolvePath t name
  ∧ Terminal.resolvePath t ("/" +:+ name) = name.
Proof.
  intros Hcwd Hparts Hne Hslash Hdot Hdots Hinside.
  destruct (plain_name_tests name Hne Hslash) as [Habs Hrel].
  assert (Forall (λ x, x ≠ EmptyString) parts) as Hfull
    by (eapply Forall_impl; [exact Hparts|]; by intros x [? _]).
  assert (Forall (λ x, Text.contains "/" x = false) parts) as Hplain
    by (eapply Forall_impl; [exact Hparts|]; by intros x [_ ?]).
  assert (Terminal.resolvePath t name = JS.join "/" (parts ++ [name])) as Hchild.
  { unfold Terminal.resolvePath.
    apply truthyStr_true in Hne as Htruthy. rewrite Htruthy.
    apply String.eqb_neq in Hdot as ->. apply String.eqb_neq in Hdots as ->.
    rewrite Habs, Hrel. cbn [negb orb].
    rewrite Hcwd, (join_truthy "/" parts Hfull).
    destruct parts as [|x parts]; [done|].
    rewrite bool_decide_eq_false_2 by done. cbn [negb].
    by rewrite join_snoc. }
  split; [exact Hchild|]. split; [|split].
  - unfold Terminal.resolvePath. rewrite Hinside, Hchild. cbn [JS.truthyStr negb orb].
    change (String.eqb ".." ".") with false.
    change (JS.startsWith "/" "..") with false.
    change (String.eqb ".." "..") with true. cbv iota.
    rewrite split_join.
    + rewrite filter_all.
      * by rewrite removelast_last.
      * apply Forall_app. split; [|by repeat constructor; apply truthyStr_true].
        eapply Forall_impl; [exact Hfull|]. intros x Hx. by apply truthyStr_true.
    + by destruct parts.
    + apply Forall_app. split; [done|]. by repeat constructor.
  - unfold Terminal.resolvePath.
    change ("./" +:+ name) with (String "." (String "/" name)).
    cbn [JS.truthyStr negb orb].
    assert (String.eqb (String "." (String "/" name)) "." = false) as -> by done.
    assert (JS.startsWith "/" (String "." (String "/" name)) = false) as -> by done.
    assert (String.eqb (String "." (String "/" name)) ".." = false) as -> by done.
    assert (JS.startsWith "./" (String "." (String "/" name)) = true) as -> by done.
    pose proof (sliceStr_app_suffix "./" name 2 eq_refl) as Hslice.
    change ("./" +:+ name) with (String "." (String "/" name)) in Hslice.
    rewrite Hslice.
    apply truthyStr_true in Hne as Htruthy. rewrite Htruthy.
    apply String.eqb_neq in Hdot as ->. apply String.eqb_neq in Hdots as ->.
    by rewrite Habs, Hrel.
  - unfold Terminal.resolvePath.
    change ("/" +:+ name) with (String "/" name).
    cbn [JS.truthyStr negb orb].
    assert (String.eqb (String "/" name) "." = false) as -> by done.
    assert (JS.startsWith "/" (String "/" name) = true) as -> by done.
    apply (sliceStr_app_suffix "/" name 1 eq_refl).
Qed.

Lemma resolve_child_and_parent_witness :
  let t := Terminal.initial in
  let inside :=
    {| Terminal.terminal := []; Terminal.currentLine := EmptyString;
       Terminal.cursorPosition := 0; Terminal.commandHistory := [];
       Terminal.historyIndex := -1; Terminal.currentDirectory := "docs/old";
       Terminal.debugMode := false |} in
  let docs :=
    {| Terminal.terminal := []; Terminal.currentLine := EmptyString;
       Terminal.cursorPosition := 0; Terminal.commandHistory := [];
       Terminal.historyIndex := -1; Terminal.currentDirectory := "docs";
       Terminal.debugMode := false |} in
  Terminal.resolvePath docs "old" = "docs/old"
  ∧ Terminal.resolvePath inside ".." = "docs".
Proof.
  intros t inside docs.
  assert (Forall (λ x, x ≠ EmptyString ∧ Text.contains "/" x = false) ["docs"])
    as Hparts by (by repeat constructor).
  destruct (resolve_child_and_parent docs inside ["docs"] "old" eq_refl Hparts)
    as (Hchild & Hparent & _); done.
Defined.

(** ** The path of sort, uniq and wc *)

Ltac flag_cases D :=
  repeat case_match; rewrite ?lookup_insert_ne by done; try done;
  repeat match goal with
         | H : _ || _ = true |- _ => apply orb_true_iff in H as [H|H]
         | H : String.eqb _ _ = true |- _ => apply String.eqb_eq in H; subst
         | H : negb _ = true |- _ => apply negb_true_iff in H
         | H : negb _ = false |- _ => apply negb_false_iff in H
         end;
  try (by rewrite lookup_insert_eq); try (by vm_compute in D); congruence.

Lemma sort_step_path (result : gmap string PipeParser.Value) (arg : string) :
  PipeParser.sort_step result arg !! "path"
  = if PipeParser.dash arg then result !! "path" else Some (PipeParser.VStr arg).
Proof.
  unfold PipeParser.sort_step. destruct (PipeParser.dash arg) eqn:D; flag_cases D.
Qed.

Lemma uniq_step_path (result : gmap string PipeParser.Value) (arg : string) :
  PipeParser.uniq_step result arg !! "path"
  = if PipeParser.dash arg then result !! "path" else Some (PipeParser.VStr arg).
Proof.
  unfold PipeParser.uniq_step. destruct (PipeParser.dash arg) eqn:D; flag_cases D.
Qed.

Lemma wc_step_path (st : gmap string PipeParser.Value * bool) (arg : string) :
  (PipeParser.wc_step st arg).1 !! "path"
  = if PipeParser.dash arg then st.1 !! "path" else Some (PipeParser.VStr arg).
Proof.
  destruct st as [result hasSpecificFlags]. unfold PipeParser.wc_step.
  destruct (PipeParser.dash arg) eqn:D; repeat case_match; cbn [fst]; flag_cases D.
Qed.

Lemma fold_path {S : Type} (step : S -> string -> S)
    (pathOf : S -> option PipeParser.Value) :
  (forall st arg, pathOf (step st arg)
                  = if PipeParser.dash arg then pathOf st
                    else Some (PipeParser.VStr arg)) ->
  forall a st,
    pathOf (fold_left step a st)
    = match last (filter (λ x, PipeParser.dash x = false) a) with
      | Some p => Some (PipeParser.VStr p)
      | None => pathOf st
      end.
Proof.
  intros Hstep a. induction a as [|arg a IH]; intros st; [done|].
  cbn [fold_left]. rewrite IH, Hstep.
  destruct (PipeParser.dash arg) eqn:D.
  - by rewrite filter_cons_False by (by rewrite D).
  - rewrite filter_cons_True by done. rewrite last_cons.
    by destruct (last (filter _ a)).
Qed.

(** X22. For sort, uniq and wc the path is the last argument that does
    not begin with a dash: an earlier one is overwritten, and a flag
    after the path does not change it. *)
Theorem path_is_last_plain_argument (a : list string) :
  let plain := filter (λ x, PipeParser.dash x = false) a in
  PipeParser.sort_parseArgs a !! "path" = PipeParser.VStr <$> last plain
  ∧ PipeParser.uniq_parseArgs a !! "path" = PipeParser.VStr <$> last plain
  ∧ PipeParser.wc_parseArgs a !! "path" = PipeParser.VStr <$> last plain.
Proof.
  intros plain. subst plain.
  unfold PipeParser.sort_parseArgs, PipeParser.uniq_parseArgs, PipeParser.wc_parseArgs.
  split; [|split].
  - rewrite (fold_path PipeParser.sort_step (λ st, st !! "path") sort_step_path).
    by destruct (last _).
  - rewrite (fold_path PipeParser.uniq_step (λ st, st !! "path") uniq_step_path).
    by destruct (last _).
  - rewrite (fold_path PipeParser.wc_step (λ st, st.1 !! "path") wc_step_path).
    by destruct (last _).
Qed.

(** ** Moving a file: the rollback *)

(** C7, as the code has it. When the read of the source and the
    creation of the copy succeed and the delete of the source then
    fails, [renameFile] runs one delete of the copy on the state the
    failed delete left, ignores how that delete ends, and throws the
    error that names the source and carries the message of the failed
    delete.  The failed delete leaves the cache as the create left it.
    When the delete of the copy returns, the cache no longer lists the
    copy and its other entries are as they were; when it throws, the
    cache still lists the copy.  On the in-memory browser, for file
    names at the root with a source that cannot be removed and a
    destination that can: the copy is gone again and the source still
    has its text. *)
Theorem rename_rolls_back {W H : Type} `{API : OPFS.FileSystemAPI W H}
    (oldPath newPath content message : string) (entry : OPFS.OPFSEntry)
    (fs fs1 fs2 fs3 : OPFS.OPFSFileSystem W H) :
  OPFS.readFile oldPath fs = (Async.Ok content, fs1) ->
  OPFS.createFile newPath content fs1 = (Async.Ok entry, fs2) ->
  OPFS.deleteFile oldPath fs2 = (Async.Throw message, fs3) ->
  let after := (OPFS.renameFile oldPath newPath fs).2 in
  ((OPFS.renameFile oldPath newPath fs).1
   = Async.Throw ("Failed to complete rename: could not delete original file "
                  +:+ JS.quoted oldPath +:+ ". Error: " +:+ message)
   ∧ after = (OPFS.deleteFile newPath fs3).2)
  ∧ (OPFS.fileCache fs3 = OPFS.fileCache fs2
     ∧ OPFS.fileCache fs2 !! newPath = Some entry)
  ∧ (forall fs4,
       OPFS.deleteFile newPath fs3 = (Async.Ok tt, fs4) ->
       OPFS.fileCache after !! newPath = None
       ∧ forall k, k ≠ newPath ->
                   OPFS.fileCache after !! k = OPFS.fileCache fs2 !! k)
  ∧ (forall e fs4,
       OPFS.deleteFile newPath fs3 = (Async.Throw e, fs4) ->
       OPFS.fileCache after !! newPath = Some entry)
  ∧ (forall (w : OPFS.MemFS) (old new text : string),
       OPFS.pathParts old = [old] -> OPFS.pathParts new = [new] -> old ≠ new ->
       OPFS.files w !! old = Some text ->
       old ∈ OPFS.locked w -> new ∉ OPFS.locked w -> new ∉ OPFS.dirs w ->
       let run := OPFS.renameFile old new (OPFS.fresh (H := string) w) in
       run.1 = Async.Throw (OPFS.renameError old "NoModificationAllowedError")
       ∧ OPFS.files (OPFS.browser run.2) !! new = None
       ∧ OPFS.files (OPFS.browser run.2) !! old = Some text).
Proof.
  intros Hread Hcreate Hdelete after. subst after.
  rewrite (renameFile_partial_failure _ _ _ _ _ _ _ _ _ Hread Hcreate Hdelete).
  cbn [fst snd].
  pose proof (updates_deleteFile oldPath fs2) as Hold.
  rewrite Hdelete in Hold. cbn [fst snd] in Hold.
  assert (OPFS.fileCache fs2 !! newPath = Some entry) as Hlisted.
  { destruct (createFile_cache _ _ _ _ _ Hcreate) as (fileName & cached & _ & _ & -> & _).
    by rewrite lookup_insert_eq. }
  pose proof (updates_deleteFile newPath fs3) as Hnew.
  split; [done|]. split; [done|]. split; [|split].
  - intros fs4 Hrollback. rewrite Hrollback in Hnew |- *. cbn [fst snd] in Hnew |- *.
    rewrite Hnew, Hold. split; [apply lookup_delete_eq|].
    intros k Hk. by rewrite lookup_delete_ne.
  - intros e fs4 Hrollback. rewrite Hrollback in Hnew |- *. cbn [fst snd] in Hnew |- *.
    by rewrite Hnew, Hold.
  - intros w old new text Hp Hq Hne Hfile Hlock Hfree Hnodir.
    by apply mem_rename_rollback.
Qed.

(** On the in-memory browser with a source that cannot be removed: the
    move fails with the delete error, the copy is gone again and the
    source is still there with its text. *)
Lemma rename_rolls_back_witness :
  let fs := OPFS.fresh (H := string) Examples.lockedDisk in
  let after := (OPFS.renameFile "a.txt" "b.txt" fs).2 in
  (OPFS.renameFile "a.txt" "b.txt" fs).1
  = Async.Throw ("Failed to complete rename: could not delete original file "
                 +:+ JS.quoted "a.txt" +:+ ". Error: NoModificationAllowedError")
  ∧ OPFS.files (OPFS.browser after) !! "b.txt" = None
  ∧ OPFS.files (OPFS.browser after) !! "a.txt" = Some "hello"
  ∧ OPFS.fileCache after !! "b.txt" = None.
Proof.
  intros fs after.
  destruct (rename_rolls_back "a.txt" "b.txt" "hello" "NoModificationAllowedError"
              {| OPFS.name := "b.txt"; OPFS.path := "b.txt"; OPFS.kind := OPFS.file |}
              fs
              (OPFS.readFile "a.txt" fs).2
              (OPFS.createFile "b.txt" "hello" (OPFS.readFile "a.txt" fs).2).2
              (OPFS.deleteFile "a.txt"
                 (OPFS.createFile "b.txt" "hello" (OPFS.readFile "a.txt" fs).2).2).2)
    as ([Herr Hstate] & _ & Hgone & _ & Hmem).
  - by vm_compute.
  - by vm_compute.
  - by vm_compute.
  - split; [exact Herr|].
    destruct (Hmem Examples.lockedDisk "a.txt" "b.txt" "hello")
      as (_ & Hcopy & Hsource); [by vm_compute..|].
    split; [exact Hcopy|]. split; [exact Hsource|].
    edestruct Hgone as [Hcache _]; [vm_compute; reflexivity|]. exact Hcache.
Defined.

(** C7 as stated fails: in a browser where the copy cannot be removed
    either, the read and the copy succeed, the delete of the source
    throws, the delete of the copy throws as well and is not reported,
    and afterwards the destination, which did not exist before, is
    still there with the text of the source and is still listed in the
    cache: it is not rolled back. *)
Lemma rename_rollback_failure_swallowed :
  let fs := OPFS.fresh (H := string) Examples.stuckDisk in
  let fs1 := (OPFS.readFile "a.txt" fs).2 in
  let fs2 := (OPFS.createFile "b.txt" "hello" fs1).2 in
  let fs3 := (OPFS.deleteFile "a.txt" fs2).2 in
  let after := (OPFS.renameFile "a.txt" "b.txt" fs).2 in
  OPFS.files Examples.stuckDisk !! "b.txt" = None
  ∧ (OPFS.readFile "a.txt" fs).1 = Async.Ok "hello"
  ∧ (OPFS.createFile "b.txt" "hello" fs1).1
    = Async.Ok (Cache.fileEntry "b.txt" "b.txt")
  ∧ (OPFS.deleteFile "a.txt" fs2).1 = Async.Throw "NoModificationAllowedError"
  ∧ (OPFS.deleteFile "b.txt" fs3).1 = Async.Throw "NoModificationAllowedError"
  ∧ (OPFS.renameFile "a.txt" "b.txt" fs).1
    = Async.Throw ("Failed to complete rename: could not delete original file "
                   +:+ JS.quoted "a.txt" +:+ ". Error: NoModificationAllowedError")
  ∧ OPFS.files (OPFS.browser after) !! "b.txt" = Some "hello"
  ∧ OPFS.files (OPFS.browser after) !! "a.txt" = Some "hello"
  ∧ OPFS.fileCache after !! "b.txt" = Some (Cache.fileEntry "b.txt" "b.txt").
Proof. repeat split; by vm_compute. Qed.
